(** * ads-extension-telemetry: the event builder, the reporter and the timed action

    A shallow embedding of [telemetryReporter.ts] and [timedAction.ts].

    JavaScript objects live in a store of property maps addressed by
    locations, so that an object handed in by a caller and the accumulator of
    an event can be one and the same object.  Methods are computations over a
    [world] (the store, the calls received by the transport, the lines written
    with [console.error]) that complete normally or throw. *)

From Stdlib Require Import ZArith String Ascii List Bool Lia.
From stdpp Require Import gmap strings list pretty.

Local Open Scope string_scope.

(** ** The JavaScript fragment the sources rely on *)
Module JS.

Definition loc := positive.

(** Numbers: the integers a double holds exactly (what [Date.now()] and
    counters produce) and NaN.  Fractions, infinities and the negative zero
    are outside the embedding. *)
Inductive number :=
  | NaN
  | Int (z : Z).

(** *** [Number.prototype.toString] on integers

    The digits are the shortest that read back as the same double. *)
Module NumberToString.

Local Open Scope Z_scope.

(** The Number value for a positive integer: the nearest double, a tie going
    to the even mantissa; [None] when that is Infinity. *)
Definition toDouble (z : Z) : option Z :=
  let bits := Z.log2 z + 1 in
  if bits <=? 53 then Some z
  else
    let sh := bits - 53 in
    let q := Z.shiftr z sh in
    let r := z - Z.shiftl q sh in
    let half := Z.shiftl 1 (sh - 1) in
    let q' := if (half <? r) || ((r =? half) && Z.odd q) then q + 1 else q in
    let d := Z.shiftl q' sh in
    if 2 ^ 1024 <=? d then None else Some d.

Definition decimal (z : Z) : string := pretty (Z.to_N z).

Definition digits (z : Z) : Z := Z.of_nat (String.length (decimal z)).

(** A significand [s] of [k] digits with [s * 10^(n-k)] of Number value [x]:
    of the two multiples of [10^(n-k)] around [x], the closer one that will
    do, the even one when they are equally close. *)
Definition candidate (x k n : Z) : option Z :=
  if n <? k then None
  else
    let p := 10 ^ (n - k) in
    let lo := x / p in
    let hi := lo + 1 in
    let ok s :=
      (10 ^ (k - 1) <=? s) && (s <? 10 ^ k) && bool_decide (toDouble (s * p) = Some x) in
    match ok lo, ok hi with
    | true, true =>
        if x - lo * p <? hi * p - x then Some lo
        else if hi * p - x <? x - lo * p then Some hi
        else if Z.even lo then Some lo else Some hi
    | true, false => Some lo
    | false, true => Some hi
    | false, false => None
    end.

(** The least [k], from [k] on, with a significand of [k] digits, and the
    [n] that goes with it: [x] has [n] digits, or is just below [10^(n-1)]. *)
Fixpoint shortest (x k : Z) (fuel : nat) : option (Z * Z * Z) :=
  match fuel with
  | O => None
  | S fuel' =>
      match candidate x k (digits x) with
      | Some s => Some (s, k, digits x)
      | None =>
          match candidate x k (digits x + 1) with
          | Some s => Some (s, k, digits x + 1)
          | None => shortest x (k + 1) fuel'
          end
      end
  end.

Definition zeros (n : Z) : string := string_of_list_ascii (repeat "0"%char (Z.to_nat n)).

(** Seventeen digits always read back as the same double. *)
Definition ofPositive (z : Z) : string :=
  match toDouble z with
  | None => "Infinity"
  | Some x =>
      match shortest x 1 17 with
      | None => decimal x
      | Some (s, k, n) =>
          if n <=? 21 then decimal s ++ zeros (n - k)
          else
            match decimal s with
            | String c rest =>
                String c (if k =? 1 then "" else "." ++ rest) ++ "e+" ++ decimal (n - 1)
            | EmptyString => ""
            end
      end
  end.

Definition ofInteger (z : Z) : string :=
  if z =? 0 then "0"
  else if z <? 0 then "-" ++ ofPositive (- z)
  else ofPositive z.

End NumberToString.

(** [n.toString()] *)
Definition Number_toString (n : number) : string :=
  match n with
  | NaN => "NaN"
  | Int z => NumberToString.ofInteger z
  end.

(** An instance of [Error]: the two fields [createErrorEvent2] reads. *)
Record ErrorObject := mkError {
  message : string;
  stack : option string   (* [None]: the engine captured no stack *)
}.

Inductive value :=
  | VUndefined
  | VNull
  | VBoolean (b : bool)
  | VNumber (n : number)
  | VString (s : string)
  | VObject (l : loc)        (* a plain object of the store *)
  | VError (e : ErrorObject).

(** What a [throw] carries: the two built-in errors the code can provoke, or
    a value thrown by a collaborator. *)
Inductive exn :=
  | TypeError
  | SyntaxError
  | Thrown (v : value).

Global Instance number_eq_dec : EqDecision number.
Proof. solve_decision. Defined.
Global Instance ErrorObject_eq_dec : EqDecision ErrorObject.
Proof. solve_decision. Defined.
Global Instance value_eq_dec : EqDecision value.
Proof. solve_decision. Defined.
Global Instance exn_eq_dec : EqDecision exn.
Proof. solve_decision. Defined.

(** [typeof v] *)
Definition typeof (v : value) : string :=
  match v with
  | VUndefined => "undefined"
  | VNull => "object"
  | VBoolean _ => "boolean"
  | VNumber _ => "number"
  | VString _ => "string"
  | VObject _ => "object"
  | VError _ => "object"
  end.

(** ToBoolean: the test of [c ? a : b], [a || b] and [!a]. *)
Definition truthy (v : value) : bool :=
  match v with
  | VUndefined | VNull => false
  | VBoolean b => b
  | VNumber NaN => false
  | VNumber (Int z) => negb (z =? 0)%Z
  | VString s => negb (String.eqb s "")
  | VObject _ | VError _ => true
  end.

(** [a ?? b] *)
Definition nullish (a b : value) : value :=
  match a with
  | VUndefined | VNull => b
  | _ => a
  end.

(** The lines the code writes with [console.error], by template. *)
Inductive consoleLine :=
  | ErrorSending (eventName : string) (e : exn)
      (* `Error sending ${eventName} event ${msg}` *)
  | ErrorInitializing (extensionId : string) (e : exn)
      (* `Error initializing TelemetryReporter for '${extensionId}'. ...` *)
  | InvalidConnectionInfo (ty : string)
      (* `... received invalid ConnectionInfo object of type ${typeof ...}` *)
  | InvalidServerInfo (ty : string).

(** One call of the transport's [sendTelemetryEvent]: the name and the
    contents, at the time of the call, of the two objects passed. *)
Record sendCall := mkCall {
  callName : string;
  callProperties : gmap string value;
  callMeasurements : gmap string value
}.

Record world := mkWorld {
  heap : gmap loc (gmap string value);
  sent : list sendCall;          (* oldest first *)
  console : list consoleLine     (* oldest first *)
}.

(** How a call ends. *)
Inductive completion (A : Type) :=
  | Normal (a : A)
  | Throw (e : exn).
Arguments Normal {A} a.
Arguments Throw {A} e.

Definition js (A : Type) : Type := world -> completion A * world.

Definition ret {A} (a : A) : js A := fun w => (Normal a, w).
Definition throw {A} (e : exn) : js A := fun w => (Throw e, w).

Definition bind {A B} (m : js A) (k : A -> js B) : js B :=
  fun w =>
    match m w with
    | (Normal a, w') => k a w'
    | (Throw e, w') => (Throw e, w')
    end.

(** [try { m } catch (e) { h e }] *)
Definition tryCatch {A} (m : js A) (h : exn -> js A) : js A :=
  fun w =>
    match m w with
    | (Throw e, w') => h e w'
    | r => r
    end.

Declare Scope js_scope.
Delimit Scope js_scope with js.
Notation "x <- m ;; k" := (bind m (fun x => k))
  (at level 100, m at next level, right associativity) : js_scope.
Notation "m ;;; k" := (bind m (fun _ => k))
  (at level 100, right associativity) : js_scope.

Definition console_error (l : consoleLine) : js unit :=
  fun w => (Normal tt, mkWorld (heap w) (sent w) (console w ++ [l])).

(** The own properties of the object at [l]. *)
Definition fields (h : gmap loc (gmap string value)) (l : loc) : gmap string value :=
  default ∅ (h !! l).

(** A location the store does not use: one past the largest in use. *)
Definition freshLoc (h : gmap loc (gmap string value)) : loc :=
  Pos.succ (foldr Pos.max 1%positive (map fst (map_to_list h))).

(** An object literal: a new object at a location the store does not use. *)
Definition alloc (o : gmap string value) : js loc :=
  fun w =>
    let l := freshLoc (heap w) in
    (Normal l, mkWorld (<[l := o]> (heap w)) (sent w) (console w)).

(** [Object.assign(target, source)] for a source whose own enumerable
    properties are [source]: each is written to [target], the other
    properties of [target] stay. *)
Definition Object_assign (target : loc) (source : gmap string value) : js unit :=
  fun w =>
    (Normal tt,
     mkWorld (<[target := source ∪ fields (heap w) target]> (heap w)) (sent w) (console w)).

(** [Object.assign(target, source)] for a source object of the store. *)
Definition Object_assign_from (target source : loc) : js unit :=
  fun w => Object_assign target (fields (heap w) source) w.

(** [o[k] = v] *)
Definition setProp (o : loc) (k : string) (v : value) : js unit :=
  Object_assign o {[k := v]}.

(** [v.k] for the keys the code reads: a missing property reads as
    [undefined] (none of these keys is a property of a primitive); reading
    from [null] or [undefined] throws a TypeError. *)
Definition getProp (v : value) (k : string) : js value :=
  fun w =>
    match v with
    | VUndefined | VNull => (Throw TypeError, w)
    | VObject l => (Normal (default VUndefined (fields (heap w) l !! k)), w)
    | VError e =>
        (Normal (if String.eqb k "message" then VString (message e)
                 else if String.eqb k "stack" then
                        match stack e with Some s => VString s | None => VUndefined end
                 else VUndefined), w)
    | VBoolean _ | VNumber _ | VString _ => (Normal VUndefined, w)
    end.

(** [v?.toString()]: nothing is called on [null] and [undefined]; a
    primitive has the method of its wrapper; a plain object has
    [Object.prototype.toString], unless it has a property "toString" of its
    own, and no value of the embedding is a function to call; an error has
    [Error.prototype.toString], with the name "Error". *)
Definition optToString (v : value) : js value :=
  fun w =>
    match v with
    | VUndefined | VNull => (Normal VUndefined, w)
    | VBoolean b => (Normal (VString (if b then "true" else "false")), w)
    | VNumber n => (Normal (VString (Number_toString n)), w)
    | VString s => (Normal (VString s), w)
    | VObject l =>
        match fields (heap w) l !! "toString" with
        | Some _ => (Throw TypeError, w)
        | None => (Normal (VString "[object Object]"), w)
        end
    | VError e =>
        (Normal (VString (if String.eqb (message e) "" then "Error"
                          else "Error: " ++ message e)), w)
    end.

End JS.

(** ** Regular expressions: [new RegExp(source, 'g')] and [String.prototype.replace]

    [createErrorEvent2] hands the error's message to [new RegExp] as a
    pattern.  The embedding covers the patterns made of
    - pattern characters, which stand for themselves;
    - [.], any character but a line terminator;
    - a backslash followed by a syntax character, which stands for that
      character;
    - the assertions [^] and [$] (no [m] flag: start and end of the input);
    - the greedy quantifiers [*], [+] and [?] after [.], a pattern character
      or an escaped character.
    Groups, alternatives, character classes, braces, lazy quantifiers and the
    other escapes are [Unsupported]: such a source is left to the engine of
    the environment ([engine_RegExp] below).  A string of the embedding is a
    JavaScript string whose code units are all below 256, one [ascii] for
    each code unit; matching is by code unit, case-sensitive, as without the
    [i] and [u] flags. *)
Module RegExp.

Local Open Scope char_scope.

Definition isSyntaxCharacter (c : ascii) : bool :=
  existsb (Ascii.eqb c)
    ["^"; "$"; "\"; "."; "*"; "+"; "?"; "("; ")"; "["; "]"; "{"; "}"; "|"].

Definition isLineTerminator (c : ascii) : bool :=
  Ascii.eqb c "010" || Ascii.eqb c "013".

Inductive atom :=
  | Char (c : ascii)
  | Dot.

Inductive quantifier :=
  | One
  | ZeroOrOne     (* ? *)
  | ZeroOrMore    (* * *)
  | OneOrMore.    (* + *)

Inductive term :=
  | Atom (a : atom) (q : quantifier)
  | AssertStart   (* ^ *)
  | AssertEnd.    (* $ *)

Inductive compiled :=
  | Pattern (ts : list term)
  | Invalid       (* the constructor throws a SyntaxError *)
  | Unsupported.  (* a source outside the patterns above *)

(** What stands to the left of the character being read. *)
Inductive pending :=
  | Nothing              (* start of the pattern, or an assertion *)
  | Bare (a : atom)      (* an atom that may still take a quantifier *)
  | Quantified.          (* an atom with its quantifier *)

Definition andThen (t : term) (c : compiled) : compiled :=
  match c with
  | Pattern ts => Pattern (t :: ts)
  | other => other
  end.

Definition flush (p : pending) (c : compiled) : compiled :=
  match p with
  | Bare a => andThen (Atom a One) c
  | Nothing | Quantified => c
  end.

Definition quantify (p : pending) (q : quantifier) (rest : compiled) : compiled :=
  match p with
  | Bare a => andThen (Atom a q) rest
  | Nothing => Invalid                  (* nothing to repeat *)
  | Quantified =>
      match q with
      | ZeroOrOne => Unsupported        (* a lazy quantifier *)
      | _ => Invalid                    (* nothing to repeat *)
      end
  end.

Fixpoint parse (p : pending) (s : list ascii) : compiled :=
  match s with
  | [] => flush p (Pattern [])
  | c :: r =>
      if Ascii.eqb c "*" then quantify p ZeroOrMore (parse Quantified r)
      else if Ascii.eqb c "+" then quantify p OneOrMore (parse Quantified r)
      else if Ascii.eqb c "?" then quantify p ZeroOrOne (parse Quantified r)
      else if Ascii.eqb c "^" then flush p (andThen AssertStart (parse Nothing r))
      else if Ascii.eqb c "$" then flush p (andThen AssertEnd (parse Nothing r))
      else if Ascii.eqb c "." then flush p (parse (Bare Dot) r)
      else if Ascii.eqb c "\" then
        match r with
        | [] => flush p Invalid         (* \ at end of pattern *)
        | e :: r' =>
            if isSyntaxCharacter e then flush p (parse (Bare (Char e)) r')
            else Unsupported
        end
      else if isSyntaxCharacter c then Unsupported
      else flush p (parse (Bare (Char c)) r)
  end.

Definition compile (source : list ascii) : compiled := parse Nothing source.

Definition atomMatches (a : atom) (c : ascii) : bool :=
  match a with
  | Char x => Ascii.eqb x c
  | Dot => negb (isLineTerminator c)
  end.

(** The greedy loop of [*]: as many characters as the atom takes, then one
    fewer each time the continuation [k] fails.  The result is the number of
    characters of the whole match. *)
Fixpoint repeatGreedy (a : atom) (k : bool -> list ascii -> option nat)
    (atStart : bool) (s : list ascii) : option nat :=
  match s with
  | c :: s' =>
      if atomMatches a c then
        match repeatGreedy a k false s' with
        | Some n => Some (S n)
        | None => k atStart s
        end
      else k atStart s
  | [] => k atStart s
  end.

(** The backtracking matcher at one position; [atStart] tells whether the
    position is index 0 of the input. *)
Fixpoint matchTerms (ts : list term) (atStart : bool) (s : list ascii) : option nat :=
  match ts with
  | [] => Some 0
  | AssertStart :: r => if atStart then matchTerms r atStart s else None
  | AssertEnd :: r =>
      match s with
      | [] => matchTerms r atStart s
      | _ :: _ => None
      end
  | Atom a One :: r =>
      match s with
      | c :: s' => if atomMatches a c then S <$> matchTerms r false s' else None
      | [] => None
      end
  | Atom a ZeroOrOne :: r =>
      match s with
      | c :: s' =>
          if atomMatches a c then
            match matchTerms r false s' with
            | Some n => Some (S n)
            | None => matchTerms r atStart s
            end
          else matchTerms r atStart s
      | [] => matchTerms r atStart s
      end
  | Atom a ZeroOrMore :: r => repeatGreedy a (matchTerms r) atStart s
  | Atom a OneOrMore :: r =>
      match s with
      | c :: s' =>
          if atomMatches a c then S <$> repeatGreedy a (matchTerms r) false s' else None
      | [] => None
      end
  end.

(** [s.replace(regex, replacement)] for a global [regex] and a replacement
    without [$]: the matches are taken from left to right, each search
    resuming where the previous match ended, one character further after an
    empty match.  [skip] counts the characters of the current match still to
    drop. *)
Fixpoint replaceFrom (ts : list term) (replacement : list ascii)
    (atStart : bool) (skip : nat) (s : list ascii) : list ascii :=
  match skip with
  | S n =>
      match s with
      | _ :: s' => replaceFrom ts replacement false n s'
      | [] => []
      end
  | O =>
      match matchTerms ts atStart s with
      | Some (S n) =>
          replacement ++
          match s with
          | _ :: s' => replaceFrom ts replacement false n s'
          | [] => []
          end
      | Some O =>
          replacement ++
          match s with
          | c :: s' => c :: replaceFrom ts replacement false 0 s'
          | [] => []
          end
      | None =>
          match s with
          | c :: s' => c :: replaceFrom ts replacement false 0 s'
          | [] => []
          end
      end
  end.

Definition replaceAll (ts : list term) (replacement s : list ascii) : list ascii :=
  replaceFrom ts replacement true 0 s.

(** The pattern that stands for the characters [cs] themselves. *)
Definition literal (cs : list ascii) : list term :=
  map (fun c => Atom (Char c) One) cs.

(** [s.startsWith(p)] *)
Fixpoint startsWith (p s : list ascii) : bool :=
  match p, s with
  | [], _ => true
  | c :: p', d :: s' => Ascii.eqb c d && startsWith p' s'
  | _ :: _, [] => false
  end.

End RegExp.

(** Strings of the program are [string]s; the matcher works on their
    characters. *)
Definition chars (s : string) : list ascii := list_ascii_of_string s.

(** [s.replace(regex, replacement)] for a pattern of the embedding *)
Definition replacePattern (s : string) (regex : list RegExp.term) (replacement : string) : string :=
  string_of_list_ascii (RegExp.replaceAll regex (chars replacement) (chars s)).

(** [s.toLowerCase()] on the characters A to Z. *)
Definition toLowerCase (s : string) : string :=
  string_of_list_ascii
    (List.map (fun c =>
       let n := nat_of_ascii c in
       if (65 <=? n)%nat && (n <=? 90)%nat then ascii_of_nat (n + 32) else c)
     (chars s)).

(** ** The collaborators *)

(** The transport object of [@vscode/extension-telemetry]: what it was
    constructed with. *)
Record VsCodeTelemetryReporter := mkTransport {
  extensionId : string;
  extensionVersion : string;
  aiKey : string
}.

(** What the module finds around it: the process environment, the [azdata]
    module, how the transport behaves ([Some e]: the call throws [e]), and
    the regular expressions of the JavaScript engine. *)
Record Env := mkEnv {
  USERDNSDOMAIN : option string;
    (* process.env['USERDNSDOMAIN'] *)
  azdata_version : option JS.value;
    (* [None]: require('azdata') throws; [Some v]: azdata?.version is [v] *)
  transport_new : string -> string -> string -> option JS.exn;
  transport_sendTelemetryEvent :
    string -> gmap string JS.value -> gmap string JS.value -> option JS.exn;
  transport_dispose : option JS.exn;
    (* [Some e]: the promise of dispose() is rejected with [e] *)
  engine_RegExp : string -> option (string -> string -> string)
    (* new RegExp(source, 'g') for a source that [RegExp.compile] leaves to
       the engine.  [None]: the constructor throws a SyntaxError;
       [Some f]: it returns a regular expression, and s.replace(regex, r)
       is [f s r] *)
}.

Import JS.
Local Open Scope js_scope.

(** A regular expression with the [g] flag: a pattern of the embedding, or
    an expression of the engine, known by what [s.replace] does with it. *)
Inductive RegExpObject :=
  | Embedded (pattern : list RegExp.term)
  | Native (f : string -> string -> string).

(** [new RegExp(source, 'g')] *)
Definition RegExp_new (env : Env) (source : string) : js RegExpObject :=
  match RegExp.compile (chars source) with
  | RegExp.Pattern ts => ret (Embedded ts)
  | RegExp.Invalid => throw SyntaxError
  | RegExp.Unsupported =>
      match engine_RegExp env source with
      | Some f => ret (Native f)
      | None => throw SyntaxError
      end
  end.

(** [s.replace(regex, replacement)] *)
Definition String_replace (s : string) (regex : RegExpObject) (replacement : string) : string :=
  match regex with
  | Embedded ts => replacePattern s ts replacement
  | Native f => f s replacement
  end.

(** ** telemetryReporter.ts *)

Section ModuleScope.
Context (env : Env).

Definition msftInternalDomains : list string :=
  [ "redmond.corp.microsoft.com";
    "northamerica.corp.microsoft.com";
    "fareast.corp.microsoft.com";
    "ntdev.corp.microsoft.com";
    "wingroup.corp.microsoft.com";
    "southpacific.corp.microsoft.com";
    "wingroup.windeploy.ntdev.microsoft.com";
    "ddnet.microsoft.com";
    "europe.corp.microsoft.com" ].

Definition isMsftInternal : bool :=
  match USERDNSDOMAIN env with
  | None => false
  | Some userDnsDomain =>
      if negb (truthy (VString userDnsDomain)) then false
      else
        let domain := toLowerCase userDnsDomain in
        existsb (fun msftDomain => String.eqb domain msftDomain) msftInternalDomains
  end.

Definition commonMeasurements : gmap string value :=
  {[ "common.msftInternal" := VNumber (Int (if isMsftInternal then 1 else 0)) ]}.

Definition commonProperties : gmap string value :=
  match azdata_version env with
  | Some v => {[ "common.adsversion" := v ]}
  | None => ∅
  end.

End ModuleScope.

(** *** class TelemetryEventImpl *)
Module TelemetryEventImpl.

Record t := mk {
  reporter : option VsCodeTelemetryReporter;
  eventName : string;
  properties : loc;
  measurements : loc
}.

Section Methods.
Context (env : Env).

(** The constructor.  [properties || {}]: an object passed in becomes the
    accumulator itself. *)
Definition new (reporter : option VsCodeTelemetryReporter) (eventName : string)
    (properties measurements : option loc) : js t :=
  p <- match properties with Some o => ret o | None => alloc ∅ end ;;
  Object_assign p (commonProperties env) ;;;
  m <- match measurements with Some o => ret o | None => alloc ∅ end ;;
  Object_assign m (commonMeasurements env) ;;;
  ret (mk reporter eventName p m).

(** [this.reporter?.sendTelemetryEvent(...)]: one call of the transport,
    which may throw. *)
Definition sendTelemetryEvent (this : t) : js unit :=
  match reporter this with
  | None => ret tt
  | Some _ =>
      fun w =>
        let props := fields (heap w) (properties this) in
        let meas := fields (heap w) (measurements this) in
        let w' := mkWorld (heap w) (sent w ++ [mkCall (eventName this) props meas]) (console w) in
        match transport_sendTelemetryEvent env (eventName this) props meas with
        | Some e => (Throw e, w')
        | None => (Normal tt, w')
        end
  end.

Definition send (this : t) : js unit :=
  tryCatch (sendTelemetryEvent this)
    (fun e => console_error (ErrorSending (eventName this) e)).

Definition withAdditionalProperties (this : t) (additionalProperties : loc) : js t :=
  Object_assign_from (properties this) additionalProperties ;;;
  ret this.

Definition withAdditionalMeasurements (this : t) (additionalMeasurements : loc) : js t :=
  Object_assign_from (measurements this) additionalMeasurements ;;;
  ret this.

Definition withConnectionInfo (this : t) (connectionInfo : value) : js t :=
  (if String.eqb (typeof connectionInfo) "object" then
     authenticationType <- getProp connectionInfo "authenticationType" ;;
     providerName <- getProp connectionInfo "providerName" ;;
     Object_assign (properties this)
       (<["authenticationType" := authenticationType]>
          (<["providerName" := providerName]> ∅))
   else
     console_error (InvalidConnectionInfo (typeof connectionInfo))) ;;;
  ret this.

Definition withServerInfo (this : t) (serverInfo : value) : js t :=
  (if String.eqb (typeof serverInfo) "object" then
     isCloud <- getProp serverInfo "isCloud" ;;
     serverVersion <- getProp serverInfo "serverVersion" ;;
     serverEdition <- getProp serverInfo "serverEdition" ;;
     engineEditionId <- getProp serverInfo "engineEditionId" ;;
     Object_assign (properties this)
       (<["connectionType" :=
            if decide (isCloud = VUndefined) then VString ""
            else if truthy isCloud then VString "Azure" else VString "Standalone"]>
          (<["serverVersion" := nullish serverVersion (VString "")]>
             (<["serverEdition" := nullish serverEdition (VString "")]>
                (<["serverEngineEdition" := nullish engineEditionId (VString "")]> ∅))))
   else
     console_error (InvalidServerInfo (typeof serverInfo))) ;;;
  ret this.

End Methods.
End TelemetryEventImpl.

(** *** class TelemetryReporter *)
Module TelemetryReporter.

Record t := mk {
  _telemetryReporter : option VsCodeTelemetryReporter
}.

Definition redactionMarker : string := "<REDACTED: error-message>".

Section Methods.
Context (env : Env).

(** The constructor: the transport, or none when its construction throws. *)
Definition new (extensionId extensionVersion key : string) : js t :=
  tryCatch
    (match transport_new env extensionId extensionVersion key with
     | Some e => throw e
     | None => ret (mk (Some (mkTransport extensionId extensionVersion key)))
     end)
    (fun e =>
       console_error (ErrorInitializing extensionId e) ;;;
       ret (mk None)).

Definition createViewEvent (this : t) (view : string) : js TelemetryEventImpl.t :=
  props <- alloc {[ "view" := VString view ]} ;;
  TelemetryEventImpl.new env (_telemetryReporter this) "view" (Some props) None.

Definition sendViewEvent (this : t) (view : string) : js unit :=
  ev <- createViewEvent this view ;;
  TelemetryEventImpl.send env ev.

(** The two object literals of [createActionEvent]. *)
Definition actionMeasures (durationInMs : option number) : gmap string value :=
  match durationInMs with
  | Some d =>
      if truthy (VNumber d) then {[ "durationInMs" := VNumber d ]} else ∅
  | None => ∅                   (* [undefined] is not truthy *)
  end.

Definition actionProps (view action target source : string) : gmap string value :=
  <["view" := VString view]>
    (<["action" := VString action]>
       (<["target" := VString target]>
          (<["source" := VString source]> ∅))).

(** [target] and [source] default to the empty string; [durationInMs] is
    optional. *)
Definition createActionEvent (this : t) (view action : string)
    (target source : option string) (durationInMs : option number)
    : js TelemetryEventImpl.t :=
  let target := default "" target in
  let source := default "" source in
  measures <- alloc (actionMeasures durationInMs) ;;
  props <- alloc (actionProps view action target source) ;;
  TelemetryEventImpl.new env (_telemetryReporter this) "action" (Some props) (Some measures).

Definition sendActionEvent (this : t) (view action : string)
    (target source : option string) (durationInMs : option number) : js unit :=
  ev <- createActionEvent this view action target source durationInMs ;;
  TelemetryEventImpl.send env ev.

Definition createMetricsEvent (this : t) (measurements : loc) (groupName : option string)
    : js TelemetryEventImpl.t :=
  props <- alloc {[ "groupName" := VString (default "" groupName) ]} ;;
  TelemetryEventImpl.new env (_telemetryReporter this) "metrics" (Some props) (Some measurements).

Definition sendMetricsEvent (this : t) (measurements : loc) (groupName : option string)
    : js unit :=
  ev <- createMetricsEvent this measurements groupName ;;
  TelemetryEventImpl.send env ev.

Definition errorProps (view name : string) (errorCode errorType : option string)
    : gmap string value :=
  <["view" := VString view]>
    (<["name" := VString name]>
       (<["errorCode" := VString (default "" errorCode)]>
          (<["errorType" := VString (default "" errorType)]> ∅))).

Definition createErrorEvent (this : t) (view name : string)
    (errorCode errorType : option string) : js TelemetryEventImpl.t :=
  props <- alloc (errorProps view name errorCode errorType) ;;
  TelemetryEventImpl.new env (_telemetryReporter this) "error" (Some props) None.

Definition sendErrorEvent (this : t) (view name : string)
    (errorCode errorType : option string) : js unit :=
  ev <- createErrorEvent this view name errorCode errorType ;;
  TelemetryEventImpl.send env ev.

(** [error] is any value ([undefined] by default), [includeMessage] defaults
    to false. *)
Definition createErrorEvent2 (this : t) (view name : string) (error : value)
    (includeMessage : option bool) (errorCode errorType : option string)
    : js TelemetryEventImpl.t :=
  let includeMessage := default false includeMessage in
  props <- alloc (errorProps view name errorCode errorType) ;;
  match error with
  | VError e =>
      setProp props "message" (VString (if includeMessage then message e else "")) ;;;
      let stack0 := default "" (stack e) in       (* error.stack || '' *)
      stack1 <- (if negb includeMessage && truthy (VString (message e)) then
                   regex <- RegExp_new env (message e) ;;
                   ret (String_replace stack0 regex redactionMarker)
                 else ret stack0) ;;
      setProp props "stack" (VString stack1)
  | _ =>
      message <- (if includeMessage then optToString error else ret (VString "")) ;;
      setProp props "message" message ;;;
      setProp props "stack" (VString "")
  end ;;;
  TelemetryEventImpl.new env (_telemetryReporter this) "error" (Some props) None.

Definition sendErrorEvent2 (this : t) (view name : string) (error : value)
    (includeMessage : option bool) (errorCode errorType : option string) : js unit :=
  ev <- createErrorEvent2 this view name error includeMessage errorCode errorType ;;
  TelemetryEventImpl.send env ev.

Definition createTelemetryEvent (this : t) (eventName : string)
    (properties measurements : option loc) : js TelemetryEventImpl.t :=
  TelemetryEventImpl.new env (_telemetryReporter this) eventName properties measurements.

Definition sendTelemetryEvent (this : t) (eventName : string)
    (properties measurements : option loc) : js unit :=
  ev <- createTelemetryEvent this eventName properties measurements ;;
  TelemetryEventImpl.send env ev.

(** The promise an [async] method returns. *)
Inductive promise :=
  | Fulfilled
  | Rejected (e : exn).

Definition dispose (this : t) : js promise :=
  match _telemetryReporter this with
  | None => ret Fulfilled
  | Some _ =>
      match transport_dispose env with
      | Some e => ret (Rejected e)
      | None => ret Fulfilled
      end
  end.

End Methods.
End TelemetryReporter.

(** ** timedAction.ts *)
Module TimedAction.

Record t := mk {
  reporter : TelemetryReporter.t;
  view : string;
  action : string;
  target : string;
  source : string;
  properties : loc;
  measures : loc;
  start : Z
}.

Section Methods.
Context (env : Env).

(** The constructor; [now] is what [Date.now()] returns at that moment. *)
Definition new (reporter : TelemetryReporter.t) (view action : string)
    (target source : option string) (now : Z) : js t :=
  properties <- alloc ∅ ;;
  measures <- alloc ∅ ;;
  ret (mk reporter view action (default "" target) (default "" source)
          properties measures now).

Definition withAdditionalProperties (this : t) (additionalProperties : loc) : js t :=
  Object_assign_from (properties this) additionalProperties ;;;
  ret this.

Definition withAdditionalMeasures (this : t) (additionalMeasurements : loc) : js t :=
  Object_assign_from (measures this) additionalMeasurements ;;;
  ret this.

(** [send()]; [now] is what [Date.now()] returns at that moment. *)
Definition send (this : t) (now : Z) : js unit :=
  ev <- TelemetryReporter.createActionEvent env (reporter this) (view this) (action this)
          (Some (source this)) (Some (target this)) (Some (Int (now - start this))) ;;
  ev <- TelemetryEventImpl.withAdditionalProperties ev (properties this) ;;
  ev <- TelemetryEventImpl.withAdditionalMeasurements ev (measures this) ;;
  TelemetryEventImpl.send env ev.

End Methods.
End TimedAction.

(** [TelemetryReporter.createTimedAction], stated after the class it
    constructs. *)
Definition createTimedAction (this : TelemetryReporter.t) (view action : string)
    (target source : option string) (now : Z) : js TimedAction.t :=
  TimedAction.new this view action target source now.

(** ** The factory methods, as data

    One constructor per [create*] method of [TelemetryReporter], with its
    arguments, so that a statement can range over "every factory method and
    every input". *)
Inductive factoryCall :=
  | CreateViewEvent (view : string)
  | CreateActionEvent (view action : string) (target source : option string)
      (durationInMs : option number)
  | CreateMetricsEvent (measurements : loc) (groupName : option string)
  | CreateErrorEvent (view name : string) (errorCode errorType : option string)
  | CreateErrorEvent2 (view name : string) (error : value) (includeMessage : option bool)
      (errorCode errorType : option string)
  | CreateTelemetryEvent (eventName : string) (properties measurements : option loc).

Definition create (env : Env) (this : TelemetryReporter.t) (c : factoryCall)
    : js TelemetryEventImpl.t :=
  match c with
  | CreateViewEvent view => TelemetryReporter.createViewEvent env this view
  | CreateActionEvent view action target source durationInMs =>
      TelemetryReporter.createActionEvent env this view action target source durationInMs
  | CreateMetricsEvent measurements groupName =>
      TelemetryReporter.createMetricsEvent env this measurements groupName
  | CreateErrorEvent view name errorCode errorType =>
      TelemetryReporter.createErrorEvent env this view name errorCode errorType
  | CreateErrorEvent2 view name error includeMessage errorCode errorType =>
      TelemetryReporter.createErrorEvent2 env this view name error includeMessage
        errorCode errorType
  | CreateTelemetryEvent eventName properties measurements =>
      TelemetryReporter.createTelemetryEvent env this eventName properties measurements
  end.

(** The caller's objects a factory method takes as the event's own
    accumulators ([this.properties = properties || {}]). *)
Definition adoptedProperties (c : factoryCall) : option loc :=
  match c with
  | CreateTelemetryEvent _ properties _ => properties
  | _ => None
  end.

Definition adoptedMeasurements (c : factoryCall) : option loc :=
  match c with
  | CreateTelemetryEvent _ _ measurements => measurements
  | CreateMetricsEvent measurements _ => Some measurements
  | _ => None
  end.

(** The enrichment methods of an event, as data. *)
Inductive enrichment :=
  | WithAdditionalProperties (additionalProperties : loc)
  | WithAdditionalMeasurements (additionalMeasurements : loc)
  | WithConnectionInfo (connectionInfo : value)
  | WithServerInfo (serverInfo : value).

Definition enrich (ev : TelemetryEventImpl.t) (op : enrichment) : js TelemetryEventImpl.t :=
  match op with
  | WithAdditionalProperties o => TelemetryEventImpl.withAdditionalProperties ev o
  | WithAdditionalMeasurements o => TelemetryEventImpl.withAdditionalMeasurements ev o
  | WithConnectionInfo v => TelemetryEventImpl.withConnectionInfo ev v
  | WithServerInfo v => TelemetryEventImpl.withServerInfo ev v
  end.

(** A chain [ev.with...(..).with...(..)]. *)
Fixpoint enrichAll (ev : TelemetryEventImpl.t) (ops : list enrichment)
    : js TelemetryEventImpl.t :=
  match ops with
  | [] => ret ev
  | op :: rest => ev' <- enrich ev op ;; enrichAll ev' rest
  end.

(** The two accumulating methods of a [TimedAction], as data, and a chain of
    them. *)
Inductive accumulation :=
  | WithProperties (additionalProperties : loc)
  | WithMeasures (additionalMeasurements : loc).

Definition accumulate (ta : TimedAction.t) (op : accumulation) : js TimedAction.t :=
  match op with
  | WithProperties o => TimedAction.withAdditionalProperties ta o
  | WithMeasures o => TimedAction.withAdditionalMeasures ta o
  end.

Fixpoint accumulateAll (ta : TimedAction.t) (ops : list accumulation) : js TimedAction.t :=
  match ops with
  | [] => ret ta
  | op :: rest => ta' <- accumulate ta op ;; accumulateAll ta' rest
  end.

(** The values [createErrorEvent2] stores under "message" and "stack", read
    off its two branches, for a call made in the world [w]; the lemma
    [createErrorEvent2_spec] relates the method to it. *)
Definition errorDetails (env : Env) (w : world) (error : value) (includeMessage : bool)
    : completion (value * value) :=
  match error with
  | VError e =>
      let stack0 := default "" (stack e) in
      let msg := VString (if includeMessage then message e else "") in
      if negb includeMessage && truthy (VString (message e)) then
        match fst (RegExp_new env (message e) w) with
        | Normal regex =>
            Normal (msg, VString (String_replace stack0 regex TelemetryReporter.redactionMarker))
        | Throw x => Throw x
        end
      else Normal (msg, VString stack0)
  | _ =>
      if includeMessage then
        match fst (optToString error w) with
        | Normal m => Normal (m, VString "")
        | Throw x => Throw x
        end
      else Normal (VString "", VString "")
  end.

(** What holds of an event [ev] and the world [w'] a factory call [c] ends
    in, started in [w]: the event belongs to the reporter's transport; nothing
    was sent or logged; each accumulator is the object the call adopted, or
    an object that did not exist in [w]; every other object of [w] is as it
    was; the common fields are in the accumulators, with their common
    values. *)
Definition created (env : Env) (this : TelemetryReporter.t) (c : factoryCall)
    (w : world) (ev : TelemetryEventImpl.t) (w' : world) : Prop :=
  TelemetryEventImpl.reporter ev = TelemetryReporter._telemetryReporter this ∧
  sent w' = sent w ∧
  console w' = console w ∧
  match adoptedProperties c with
  | Some o => TelemetryEventImpl.properties ev = o
  | None => heap w !! TelemetryEventImpl.properties ev = None
  end ∧
  match adoptedMeasurements c with
  | Some o => TelemetryEventImpl.measurements ev = o
  | None => heap w !! TelemetryEventImpl.measurements ev = None
  end ∧
  (∀ l, is_Some (heap w !! l) →
        l ≠ TelemetryEventImpl.properties ev → l ≠ TelemetryEventImpl.measurements ev →
        heap w' !! l = heap w !! l) ∧
  is_Some (heap w' !! TelemetryEventImpl.properties ev) ∧
  is_Some (heap w' !! TelemetryEventImpl.measurements ev) ∧
  (∀ k v, commonProperties env !! k = Some v →
          fields (heap w') (TelemetryEventImpl.properties ev) !! k = Some v) ∧
  (∀ k v, commonMeasurements env !! k = Some v →
          fields (heap w') (TelemetryEventImpl.measurements ev) !! k = Some v).

(** The two ways a factory call ends in a throw, both of
    [createErrorEvent2]: the message of an [Error] that is to be withheld is
    not a pattern [new RegExp] takes (a SyntaxError), or the message of an
    object that is to be included is asked of an object whose own "toString"
    is not a function (a TypeError). *)
Definition createThrows (env : Env) (w : world) (c : factoryCall) (e : exn) : Prop :=
  ∃ view name error includeMessage errorCode errorType,
    c = CreateErrorEvent2 view name error includeMessage errorCode errorType ∧
    match error with
    | VError err =>
        default false includeMessage = false ∧ message err ≠ "" ∧
        fst (RegExp_new env (message err) w) = Throw SyntaxError ∧ e = SyntaxError
    | VObject l =>
        default false includeMessage = true ∧
        is_Some (fields (heap w) l !! "toString") ∧ e = TypeError
    | _ => False
    end.

(** The keys an enrichment call assigns to the properties of its event, in
    the store [h]: the keys of the map passed, or the allow-listed keys when
    the info passes the [typeof] guard. *)
Definition assignsProperty (h : gmap loc (gmap string value)) (op : enrichment) (k : string)
    : Prop :=
  match op with
  | WithAdditionalProperties a => is_Some (fields h a !! k)
  | WithAdditionalMeasurements _ => False
  | WithConnectionInfo v =>
      typeof v = "object" ∧ k ∈ ["authenticationType"; "providerName"]
  | WithServerInfo v =>
      typeof v = "object" ∧
      k ∈ ["connectionType"; "serverVersion"; "serverEdition"; "serverEngineEdition"]
  end.

(** The keys it assigns to the measurements. *)
Definition assignsMeasurement (h : gmap loc (gmap string value)) (op : enrichment) (k : string)
    : Prop :=
  match op with
  | WithAdditionalMeasurements a => is_Some (fields h a !! k)
  | _ => False
  end.

(** Substrings: [p] occurs in [s]. *)
Definition occursIn (p s : list ascii) : Prop :=
  ∃ before after : list ascii, s = (before ++ p ++ after)%list.

(** [s.includes(p)]: true whenever [p] occurs in [s]. *)
Fixpoint includes (p s : list ascii) : bool :=
  RegExp.startsWith p s ||
  match s with
  | _ :: s' => includes p s'
  | [] => false
  end.

(** [first ++ sep ++ g1 ++ sep ++ g2 ...]: the pieces [first :: rest] joined
    by [sep]. *)
Definition joined (sep first : list ascii) (rest : list (list ascii)) : list ascii :=
  (first ++ flat_map (fun g => sep ++ g) rest)%list.

(** ** Concrete surroundings for the examples *)
Module Example.

(** ["s".replace(new RegExp(pattern, 'g'), "X")], when the pattern is one of
    the embedding. *)
Definition replaced (pattern s : string) : option string :=
  match RegExp.compile (chars pattern) with
  | RegExp.Pattern regex => Some (replacePattern s regex "X")
  | _ => None
  end.

(** An engine for the examples, whose patterns are all of the embedding:
    it takes no other source. *)
Definition embeddedOnly : string -> option (string -> string -> string) :=
  fun _ => None.

(** No [USERDNSDOMAIN]; [azdata] is there, at version 1.40.0; the transport
    never throws. *)
Definition env : Env :=
  mkEnv None (Some (VString "1.40.0")) (fun _ _ _ => None) (fun _ _ _ => None) None
    embeddedOnly.

(** The same, with a transport whose constructor throws. *)
Definition brokenEnv : Env :=
  mkEnv None (Some (VString "1.40.0"))
    (fun _ _ _ => Some (Thrown (VString "no transport"))) (fun _ _ _ => None) None
    embeddedOnly.

Definition emptyWorld : world := mkWorld ∅ [] [].

(** A reporter with its transport. *)
Definition active : TelemetryReporter.t :=
  TelemetryReporter.mk (Some (mkTransport "ext" "1.0.0" "key")).

(** A world where the caller holds one object, at location 1. *)
Definition callerWorld (o : gmap string value) : world :=
  mkWorld {[ 1%positive := o ]} [] [].

(** The stack of a thrown error, as an engine prints it. *)
Definition stackOf (message : string) : string :=
  "Error: " ++ message ++ String "010" "    at main (app.js:3:9)".



End Example.

(** ** Further surroundings: callers' maps *)
Module Scenario.

(** An event of a reporter with transport, accumulators at 2 and 3, and two
    maps of the caller at 4 and 5 that both hold the key "step". *)
Definition event : TelemetryEventImpl.t :=
  TelemetryEventImpl.mk (Some (mkTransport "ext" "1.0.0" "key")) "view" 2%positive 3%positive.

Definition world : JS.world :=
  mkWorld
    (<[2%positive := {[ "view" := VString "dialog" ]}]>
       (<[3%positive := ∅]>
          (<[4%positive := <["step" := VString "1"]> (<["user" := VString "a"]> ∅)]>
             (<[5%positive := {[ "step" := VString "2" ]}]> ∅))))
    [] [].

(** A timed action started at time 1000 whose accumulators are the objects
    at 2 and 3 of [world]. *)
Definition timedAction : TimedAction.t :=
  TimedAction.mk Example.active "dialog" "open" "button" "mouse" 2%positive 3%positive 1000.

(** A caller's measurements at location 1. *)
Definition metricsWorld : JS.world :=
  mkWorld {[ 1%positive := {[ "latencyMs" := VNumber (Int 42) ]} ]} [] [].

(** An engine that knows one source beyond the embedding: in "f(x) failed"
    the parentheses make a group, so the expression matches the text
    "fx failed". *)
Definition groupEngine : string -> option (string -> string -> string) :=
  fun source =>
    if String.eqb source "f(x) failed"
    then Some (fun s r => replacePattern s (RegExp.literal (chars "fx failed")) r)
    else None.

(** As [Example.env], with that engine. *)
Definition groupEnv : Env :=
  mkEnv None (Some (VString "1.40.0")) (fun _ _ _ => None) (fun _ _ _ => None) None
    groupEngine.

End Scenario.

(** ** What a [send()] adds to the calls of the transport *)

(** One call, carrying the accumulators as they are, when the event has a
    transport; none otherwise. *)
Definition callsOf (ev : TelemetryEventImpl.t) (w : world) : list sendCall :=
  match TelemetryEventImpl.reporter ev with
  | Some _ =>
      [mkCall (TelemetryEventImpl.eventName ev)
         (fields (heap w) (TelemetryEventImpl.properties ev))
         (fields (heap w) (TelemetryEventImpl.measurements ev))]
  | None => []
  end.

(** The call a reporter's transport receives for an event of the given
    contents; none when the reporter has no transport. *)
Definition callsFor (this : TelemetryReporter.t) (name : string)
    (properties measurements : gmap string value) : list sendCall :=
  match TelemetryReporter._telemetryReporter this with
  | Some _ => [mkCall name properties measurements]
  | None => []
  end.

(** The line [send()] logs: one when the event has a transport and the
    transport throws. *)
Definition linesOf (env : Env) (ev : TelemetryEventImpl.t) (w : world) : list consoleLine :=
  match TelemetryEventImpl.reporter ev with
  | Some _ =>
      match transport_sendTelemetryEvent env (TelemetryEventImpl.eventName ev)
              (fields (heap w) (TelemetryEventImpl.properties ev))
              (fields (heap w) (TelemetryEventImpl.measurements ev)) with
      | Some e => [ErrorSending (TelemetryEventImpl.eventName ev) e]
      | None => []
      end
  | None => []
  end.

(** ** Spellings of a domain name

    [u] spells [d] when it has the characters of [d], each as it is or as the
    capital letter of it. *)
Definition isCapital (c : ascii) : bool :=
  (65 <=? nat_of_ascii c)%nat && (nat_of_ascii c <=? 90)%nat.

Definition spells (u d : string) : Prop :=
  Forall2 (fun a b => isCapital b = false ∧
                      (a = b ∨ (isCapital a = true ∧ b = ascii_of_nat (nat_of_ascii a + 32))))
    (chars u) (chars d).

(** ** Properties *)

Local Open Scope list_scope.

Section StoreFacts.
Implicit Types (h : gmap loc (gmap string value)) (l : loc) (o : gmap string value).

Lemma fields_insert_eq h l o : fields (<[l := o]> h) l = o.
Proof. unfold fields. by rewrite lookup_insert_eq. Qed.

Lemma fields_insert_ne h l l' o : l ≠ l' → fields (<[l := o]> h) l' = fields h l'.
Proof. intros Hne. unfold fields. by rewrite lookup_insert_ne. Qed.

Lemma le_foldr_max (x : positive) (ls : list positive) :
  x ∈ ls → (x ≤ foldr Pos.max 1 ls)%positive.
Proof.
  induction ls as [| y ls IH]; intros Hx.
  - by apply elem_of_nil in Hx.
  - cbn [foldr]. apply elem_of_cons in Hx as [-> | Hx].
    + apply Pos.le_max_l.
    + etrans; [by apply IH | apply Pos.le_max_r].
Qed.

Lemma fresh_not_allocated h : h !! freshLoc h = None.
Proof.
  destruct (h !! freshLoc h) as [o |] eqn:E; [| done].
  apply elem_of_map_to_list in E.
  assert (Hin : freshLoc h ∈ map fst (map_to_list h)).
  { apply (list_elem_of_fmap_2 fst) in E. exact E. }
  apply le_foldr_max in Hin. unfold freshLoc in Hin at 1.
  apply Pos.le_succ_l in Hin. by apply Pos.lt_irrefl in Hin.
Qed.

End StoreFacts.

(** [withConnectionInfo] on an object of the store: what it completes with. *)
Lemma withConnectionInfo_object ev l w :
  TelemetryEventImpl.withConnectionInfo ev (VObject l) w =
  (Normal ev,
   mkWorld
     (<[TelemetryEventImpl.properties ev :=
          <["authenticationType" := default VUndefined (fields (heap w) l !! "authenticationType")]>
            (<["providerName" := default VUndefined (fields (heap w) l !! "providerName")]> ∅)
          ∪ fields (heap w) (TelemetryEventImpl.properties ev)]> (heap w))
     (sent w) (console w)).
Proof. reflexivity. Qed.

(** The properties of the event after [withConnectionInfo] on an object. *)
Lemma withConnectionInfo_object_props ev l w :
  ∃ w',
    TelemetryEventImpl.withConnectionInfo ev (VObject l) w = (Normal ev, w') ∧
    fields (heap w') (TelemetryEventImpl.properties ev) !! "authenticationType"
      = Some (default VUndefined (fields (heap w) l !! "authenticationType")) ∧
    fields (heap w') (TelemetryEventImpl.properties ev) !! "providerName"
      = Some (default VUndefined (fields (heap w) l !! "providerName")) ∧
    (∀ k, k ≠ "authenticationType" → k ≠ "providerName" →
       fields (heap w') (TelemetryEventImpl.properties ev) !! k
       = fields (heap w) (TelemetryEventImpl.properties ev) !! k).
Proof.
  eexists. split; [apply withConnectionInfo_object |].
  cbn [heap]. rewrite fields_insert_eq. repeat split.
  - apply lookup_union_Some_l. by rewrite lookup_insert_eq.
  - apply lookup_union_Some_l.
    rewrite lookup_insert_ne by done. by rewrite lookup_insert_eq.
  - intros k Ha Hp. rewrite lookup_union_r; [done |].
    rewrite !lookup_insert_ne by done. apply lookup_empty.
Qed.

(** C10: for an object [l] of the store, [withConnectionInfo] writes both
    allow-listed keys: each receives the input's value, or [undefined] when
    the input has no such field, whatever the event held under that key. *)
Theorem withConnectionInfo_always_writes ev l w :
  let info := fields (heap w) l in
  ∃ w',
    TelemetryEventImpl.withConnectionInfo ev (VObject l) w = (Normal ev, w') ∧
    fields (heap w') (TelemetryEventImpl.properties ev) !! "authenticationType"
      = Some (default VUndefined (info !! "authenticationType")) ∧
    fields (heap w') (TelemetryEventImpl.properties ev) !! "providerName"
      = Some (default VUndefined (info !! "providerName")) ∧
    (info !! "authenticationType" = None →
     fields (heap w') (TelemetryEventImpl.properties ev) !! "authenticationType"
       = Some VUndefined) ∧
    (info !! "providerName" = None →
     fields (heap w') (TelemetryEventImpl.properties ev) !! "providerName"
       = Some VUndefined).
Proof.
  intros info.
  destruct (withConnectionInfo_object_props ev l w) as (w' & Hrun & Ha & Hp & _).
  exists w'. fold info in Ha, Hp. repeat split; try done.
  - intros Hnone. by rewrite Ha, Hnone.
  - intros Hnone. by rewrite Hp, Hnone.
Qed.


(** C7 (the values the guard turns away, and [null], which it lets through):
    [undefined], booleans, numbers and strings leave the store and the
    transport untouched, write one console line and return the builder;
    [null] has [typeof] "object", and reading its first field throws. *)
Theorem withInfo_non_objects ev w :
  (∀ v, v = VUndefined ∨ (∃ b, v = VBoolean b) ∨ (∃ n, v = VNumber n) ∨ (∃ s, v = VString s) →
     TelemetryEventImpl.withConnectionInfo ev v w
       = (Normal ev, mkWorld (heap w) (sent w) (console w ++ [InvalidConnectionInfo (typeof v)])) ∧
     TelemetryEventImpl.withServerInfo ev v w
       = (Normal ev, mkWorld (heap w) (sent w) (console w ++ [InvalidServerInfo (typeof v)]))) ∧
  TelemetryEventImpl.withConnectionInfo ev VNull w = (Throw TypeError, w) ∧
  TelemetryEventImpl.withServerInfo ev VNull w = (Throw TypeError, w).
Proof.
  split; [| split; reflexivity].
  intros v [-> | [[b ->] | [[n ->] | [s ->]]]]; split; reflexivity.
Qed.

(** One half of the constructor of [TelemetryEventImpl]: take the object
    passed in, or a new one, and assign the common fields [c] to it. *)
Lemma stamp_spec {A} (o : option loc) (c : gmap string value) (k : loc → js A) w :
  ∃ l h1,
    (x <- match o with Some l => ret l | None => alloc ∅ end ;;
     Object_assign x c ;;; k x)%js w
      = k l (mkWorld h1 (sent w) (console w)) ∧
    match o with Some l' => l = l' | None => heap w !! l = None end ∧
    is_Some (h1 !! l) ∧
    fields h1 l = c ∪ fields (heap w) l ∧
    (∀ l', l' ≠ l → h1 !! l' = heap w !! l').
Proof.
  destruct w as [h snt con]. destruct o as [l |]; cbn.
  - exists l. eexists. split; [reflexivity |]. repeat split.
    + by rewrite lookup_insert_eq.
    + by rewrite fields_insert_eq.
    + intros l' Hne. by rewrite lookup_insert_ne.
  - exists (freshLoc h). eexists. split; [reflexivity |].
    pose proof (fresh_not_allocated h) as Hfresh. repeat split.
    + done.
    + by rewrite lookup_insert_eq.
    + rewrite !fields_insert_eq. unfold fields. by rewrite Hfresh.
    + intros l' Hne. by rewrite !lookup_insert_ne.
Qed.

(** What the constructor of [TelemetryEventImpl] leaves behind: the two
    accumulators are the objects passed in, or new ones; they hold the common
    fields on top of what they held; every other object is as it was. *)
Lemma TelemetryEventImpl_new_spec env rep name (properties measurements : option loc) w :
  ∃ lp lm h',
    TelemetryEventImpl.new env rep name properties measurements w
      = (Normal (TelemetryEventImpl.mk rep name lp lm), mkWorld h' (sent w) (console w)) ∧
    match properties with Some o => lp = o | None => heap w !! lp = None end ∧
    match measurements with Some o => lm = o | None => heap w !! lm = None ∧ lm ≠ lp end ∧
    (∀ l, l ≠ lp → l ≠ lm → h' !! l = heap w !! l) ∧
    (is_Some (h' !! lp) ∧ is_Some (h' !! lm)) ∧
    (lp ≠ lm →
       fields h' lp = commonProperties env ∪ fields (heap w) lp ∧
       fields h' lm = commonMeasurements env ∪ fields (heap w) lm) ∧
    (lp = lm →
       fields h' lp = commonMeasurements env ∪ (commonProperties env ∪ fields (heap w) lp)).
Proof.
  unfold TelemetryEventImpl.new.
  destruct (stamp_spec properties (commonProperties env)
              (fun p => m <- match measurements with Some o => ret o | None => alloc ∅ end ;;
                        Object_assign m (commonMeasurements env) ;;;
                        ret (TelemetryEventImpl.mk rep name p m))%js w)
    as (lp & h1 & -> & Hlp & Hsome1 & Hf1 & Hframe1).
  destruct (stamp_spec measurements (commonMeasurements env)
              (fun m => ret (TelemetryEventImpl.mk rep name lp m))
              (mkWorld h1 (sent w) (console w)))
    as (lm & h2 & -> & Hlm & Hsome2 & Hf2 & Hframe2).
  cbn [heap sent console] in *.
  exists lp, lm, h2. split_and!.
  - reflexivity.
  - done.
  - destruct measurements as [m |]; [done |]. split.
    + destruct (decide (lm = lp)) as [-> | Hne].
      * rewrite Hlm in Hsome1. by destruct Hsome1.
      * by rewrite <- Hframe1.
    + intros ->. rewrite Hlm in Hsome1. by destruct Hsome1.
  - intros l H1 H2. by rewrite Hframe2, Hframe1.
  - destruct (decide (lp = lm)) as [-> | Hne]; [done |]. by rewrite Hframe2.
  - done.
  - intros Hne. split.
    + rewrite <- Hf1. unfold fields. by rewrite Hframe2.
    + rewrite Hf2. f_equal. unfold fields. by rewrite Hframe1.
  - intros ->. by rewrite Hf2, Hf1.
Qed.

Lemma commonProperties_key env k v :
  commonProperties env !! k = Some v → k = "common.adsversion".
Proof.
  unfold commonProperties. destruct (azdata_version env); [| by rewrite lookup_empty].
  intros H. apply lookup_singleton_Some in H. by destruct H.
Qed.

Lemma commonMeasurements_key env k v :
  commonMeasurements env !! k = Some v → k = "common.msftInternal".
Proof.
  unfold commonMeasurements. intros H. apply lookup_singleton_Some in H. by destruct H.
Qed.

Lemma commonProperties_other env k :
  k ≠ "common.adsversion" → commonProperties env !! k = None.
Proof.
  intros Hne. destruct (commonProperties env !! k) eqn:E; [| done].
  by apply commonProperties_key in E.
Qed.

Lemma commonMeasurements_other env k :
  k ≠ "common.msftInternal" → commonMeasurements env !! k = None.
Proof.
  intros Hne. destruct (commonMeasurements env !! k) eqn:E; [| done].
  by apply commonMeasurements_key in E.
Qed.

(** The constructor, key by key: common fields are there with their common
    values; the other keys are as they were in the object taken. *)
Lemma TelemetryEventImpl_new_lookup env rep name (properties measurements : option loc) w :
  ∃ ev w',
    TelemetryEventImpl.new env rep name properties measurements w = (Normal ev, w') ∧
    TelemetryEventImpl.reporter ev = rep ∧
    TelemetryEventImpl.eventName ev = name ∧
    sent w' = sent w ∧ console w' = console w ∧
    match properties with
    | Some o => TelemetryEventImpl.properties ev = o
    | None => heap w !! TelemetryEventImpl.properties ev = None
    end ∧
    match measurements with
    | Some o => TelemetryEventImpl.measurements ev = o
    | None => heap w !! TelemetryEventImpl.measurements ev = None
    end ∧
    (∀ l, l ≠ TelemetryEventImpl.properties ev → l ≠ TelemetryEventImpl.measurements ev →
          heap w' !! l = heap w !! l) ∧
    is_Some (heap w' !! TelemetryEventImpl.properties ev) ∧
    is_Some (heap w' !! TelemetryEventImpl.measurements ev) ∧
    (∀ k v, commonProperties env !! k = Some v →
            fields (heap w') (TelemetryEventImpl.properties ev) !! k = Some v) ∧
    (∀ k v, commonMeasurements env !! k = Some v →
            fields (heap w') (TelemetryEventImpl.measurements ev) !! k = Some v) ∧
    (∀ k, k ≠ "common.adsversion" → k ≠ "common.msftInternal" →
          fields (heap w') (TelemetryEventImpl.properties ev) !! k
            = fields (heap w) (TelemetryEventImpl.properties ev) !! k ∧
          fields (heap w') (TelemetryEventImpl.measurements ev) !! k
            = fields (heap w) (TelemetryEventImpl.measurements ev) !! k).
Proof.
  destruct (TelemetryEventImpl_new_spec env rep name properties measurements w)
    as (lp & lm & h' & Hrun & Hp & Hm & Hframe & [Hsp Hsm] & Hne & Heq).
  eexists _, _. split; [exact Hrun |]. cbn.
  split_and!; try done.
  - destruct measurements; [done | by destruct Hm].
  - intros k v Hk. destruct (decide (lp = lm)) as [-> | Hd].
    + rewrite Heq by done.
      pose proof (commonProperties_key _ _ _ Hk) as ->.
      rewrite lookup_union_r by (by apply commonMeasurements_other).
      by apply lookup_union_Some_l.
    + destruct (Hne Hd) as [-> _]. by apply lookup_union_Some_l.
  - intros k v Hk. destruct (decide (lp = lm)) as [-> | Hd].
    + rewrite Heq by done. by apply lookup_union_Some_l.
    + destruct (Hne Hd) as [_ ->]. by apply lookup_union_Some_l.
  - intros k Hk1 Hk2. destruct (decide (lp = lm)) as [<- | Hd].
    + rewrite Heq by done.
      rewrite lookup_union_r by (by apply commonMeasurements_other).
      rewrite lookup_union_r by (by apply commonProperties_other). done.
    + destruct (Hne Hd) as [-> ->].
      rewrite lookup_union_r by (by apply commonProperties_other).
      rewrite lookup_union_r by (by apply commonMeasurements_other). done.
Qed.

Lemma bind_alloc {A} (o : gmap string value) (k : loc → js A) w :
  (x <- alloc o ;; k x)%js w
  = k (freshLoc (heap w))
      (mkWorld (<[freshLoc (heap w) := o]> (heap w)) (sent w) (console w)).
Proof. reflexivity. Qed.

(** The tail of every factory method that builds its own literals: the
    constructor runs on a literal [props] made after [w0], in a world [w]
    that holds the objects of [w0] unchanged. *)
Lemma new_on_literal env this c name (props : loc) (meas : option loc) w0 w :
  adoptedProperties c = None →
  heap w0 !! props = None →
  (adoptedMeasurements c = meas ∨
   adoptedMeasurements c = None ∧ ∃ m, meas = Some m ∧ heap w0 !! m = None) →
  (∀ l, is_Some (heap w0 !! l) → heap w !! l = heap w0 !! l) →
  sent w = sent w0 → console w = console w0 →
  ∃ ev w',
    TelemetryEventImpl.new env (TelemetryReporter._telemetryReporter this) name
      (Some props) meas w = (Normal ev, w') ∧
    TelemetryEventImpl.eventName ev = name ∧
    TelemetryEventImpl.properties ev = props ∧
    match meas with
    | Some m => TelemetryEventImpl.measurements ev = m
    | None => heap w !! TelemetryEventImpl.measurements ev = None
    end ∧
    (∀ k, k ≠ "common.adsversion" → k ≠ "common.msftInternal" →
          fields (heap w') props !! k = fields (heap w) props !! k) ∧
    (∀ k, k ≠ "common.adsversion" → k ≠ "common.msftInternal" →
          fields (heap w') (TelemetryEventImpl.measurements ev) !! k
          = fields (heap w) (TelemetryEventImpl.measurements ev) !! k) ∧
    created env this c w0 ev w'.
Proof.
  intros Hap Hfresh Ham Hext Hsent Hcon.
  destruct (TelemetryEventImpl_new_lookup env (TelemetryReporter._telemetryReporter this)
              name (Some props) meas w)
    as (ev & w' & Hrun & Hrep & Hname & Hs & Hc & Hp & Hm & Hframe & Hsp & Hsm & Hcp & Hcm & Hother).
  assert (Hnone : ∀ l, heap w !! l = None → heap w0 !! l = None).
  { intros l Hl. destruct (heap w0 !! l) eqn:E; [| done].
    rewrite Hext in Hl by (by rewrite E). congruence. }
  exists ev, w'. split; [exact Hrun |]. split; [exact Hname |]. split; [exact Hp |].
  split; [exact Hm |].
  split; [intros k H1 H2; rewrite <- Hp; by apply Hother |].
  split; [intros k H1 H2; by apply Hother |].
  unfold created. rewrite Hap. split_and!; try done; try congruence.
  - destruct Ham as [<- | (-> & m & -> & Hmf)].
    + destruct (adoptedMeasurements c); [done | by apply Hnone].
    + by rewrite Hm.
  - intros l Hl H1 H2. rewrite Hframe by done. by apply Hext.
Qed.

Lemma insert_fresh_allocated (h : gmap loc (gmap string value)) o l :
  is_Some (h !! l) → <[freshLoc h := o]> h !! l = h !! l.
Proof.
  intros Hl. rewrite lookup_insert_ne; [done |].
  intros <-. rewrite fresh_not_allocated in Hl. by destruct Hl.
Qed.

Lemma createActionEvent_spec env this view action target source d w :
  ∃ ev w',
    TelemetryReporter.createActionEvent env this view action target source d w
      = (Normal ev, w') ∧
    TelemetryEventImpl.eventName ev = "action" ∧
    TelemetryEventImpl.properties ev ≠ TelemetryEventImpl.measurements ev ∧
    (∀ k, k ≠ "common.adsversion" → k ≠ "common.msftInternal" →
       fields (heap w') (TelemetryEventImpl.properties ev) !! k
       = TelemetryReporter.actionProps view action (default "" target) (default "" source)
           !! k) ∧
    (∀ k, k ≠ "common.adsversion" → k ≠ "common.msftInternal" →
       fields (heap w') (TelemetryEventImpl.measurements ev) !! k
       = TelemetryReporter.actionMeasures d !! k) ∧
    created env this (CreateActionEvent view action target source d) w ev w'.
Proof.
  unfold TelemetryReporter.createActionEvent.
  rewrite bind_alloc, bind_alloc. cbn [heap sent console].
  set (lm := freshLoc (heap w)).
  set (h1 := <[lm := TelemetryReporter.actionMeasures d]> (heap w)).
  set (lp := freshLoc h1).
  assert (Hlm : heap w !! lm = None) by apply fresh_not_allocated.
  assert (Hlp1 : h1 !! lp = None) by apply fresh_not_allocated.
  assert (Hne : lp ≠ lm).
  { intros E. rewrite E in Hlp1. unfold h1 in Hlp1. by rewrite lookup_insert_eq in Hlp1. }
  assert (Hlp : heap w !! lp = None).
  { unfold h1 in Hlp1. by rewrite lookup_insert_ne in Hlp1. }
  edestruct (new_on_literal env this (CreateActionEvent view action target source d)
               "action" lp (Some lm) w) as (ev & w' & Hrun & Hname & Hp & Hm & Hpk & Hmk & Hc);
    [ done | exact Hlp | right; split; [done | by exists lm] | | | | ].
  4: { exists ev, w'. split; [exact Hrun |]. split; [exact Hname |].
       cbn [heap] in Hpk, Hmk. rewrite Hp, Hm. split; [exact Hne |].
       split; [| split; [| exact Hc]].
       - intros k H1 H2. rewrite Hpk by done. by rewrite fields_insert_eq.
       - intros k H1 H2. rewrite Hm in Hmk. rewrite Hmk by done.
         rewrite fields_insert_ne by done. unfold h1. by rewrite fields_insert_eq. }
  - cbn [heap]. intros l Hl. rewrite lookup_insert_ne by (intros <-; rewrite Hlp in Hl; by destruct Hl).
    unfold h1. rewrite lookup_insert_ne by (intros <-; rewrite Hlm in Hl; by destruct Hl). done.
  - done.
  - done.
Qed.

(** The end of [createErrorEvent2]: the literal holds the four fixed
    properties, then "message" and "stack"; the constructor runs. *)
Lemma createErrorEvent2_tail env this view name error im ec et (m st : value) w :
  let lp := freshLoc (heap w) in
  ∃ ev w',
    TelemetryEventImpl.new env (TelemetryReporter._telemetryReporter this) "error" (Some lp) None
      (mkWorld
         (<[lp := {["stack" := st]} ∪
                  ({["message" := m]} ∪ TelemetryReporter.errorProps view name ec et)]> (heap w))
         (sent w) (console w))
      = (Normal ev, w') ∧
    TelemetryEventImpl.eventName ev = "error" ∧
    fields (heap w') (TelemetryEventImpl.properties ev) !! "message" = Some m ∧
    fields (heap w') (TelemetryEventImpl.properties ev) !! "stack" = Some st ∧
    created env this (CreateErrorEvent2 view name error im ec et) w ev w'.
Proof.
  intros lp.
  edestruct (new_on_literal env this (CreateErrorEvent2 view name error im ec et) "error" lp None w)
    as (ev & w' & Hrun & Hname & Hp & _ & Hpk & _ & Hc);
    [ done | apply fresh_not_allocated | by left | | | | ].
  4: { exists ev, w'. split; [exact Hrun |]. split; [exact Hname |].
       rewrite Hp. cbn [heap] in Hpk. rewrite !Hpk by done. rewrite fields_insert_eq.
       split_and!; [| | exact Hc].
       - rewrite lookup_union_r by done. apply lookup_union_Some_l. by rewrite lookup_singleton_eq.
       - apply lookup_union_Some_l. by rewrite lookup_singleton_eq. }
  - cbn [heap]. intros l Hl. by apply insert_fresh_allocated.
  - done.
  - done.
Qed.

(** [v?.toString()] reads the store and writes nothing; the literal
    [createErrorEvent2] has just made has no "toString". *)
Lemma optToString_after_alloc v o w :
  o !! "toString" = None →
  let w1 := mkWorld (<[freshLoc (heap w) := o]> (heap w)) (sent w) (console w) in
  optToString v w1 = (fst (optToString v w), w1).
Proof.
  intros Ho w1. destruct v as [| | b | n | str | l | err]; try reflexivity.
  unfold optToString. cbn [heap w1].
  destruct (decide (freshLoc (heap w) = l)) as [<- | Hne].
  - rewrite fields_insert_eq, Ho. unfold fields at 1.
    rewrite fresh_not_allocated. cbn [default]. by rewrite lookup_empty.
  - rewrite fields_insert_ne by done.
    by destruct (fields (heap w) l !! "toString").
Qed.

Lemma errorProps_toString view name ec et :
  TelemetryReporter.errorProps view name ec et !! "toString" = None.
Proof. unfold TelemetryReporter.errorProps. by rewrite !lookup_insert_ne. Qed.

(** [createErrorEvent2], case by case of [errorDetails]. *)
Lemma createErrorEvent2_spec env this view name error im ec et w :
  match errorDetails env w error (default false im) with
  | Normal (m, st) =>
      ∃ ev w',
        TelemetryReporter.createErrorEvent2 env this view name error im ec et w
          = (Normal ev, w') ∧
        TelemetryEventImpl.eventName ev = "error" ∧
        fields (heap w') (TelemetryEventImpl.properties ev) !! "message" = Some m ∧
        fields (heap w') (TelemetryEventImpl.properties ev) !! "stack" = Some st ∧
        created env this (CreateErrorEvent2 view name error im ec et) w ev w'
  | Throw e =>
      ∃ w',
        TelemetryReporter.createErrorEvent2 env this view name error im ec et w
          = (Throw e, w') ∧
        sent w' = sent w ∧ console w' = console w ∧
        (∀ l, is_Some (heap w !! l) → heap w' !! l = heap w !! l)
  end.
Proof.
  pose proof (createErrorEvent2_tail env this view name error im ec et) as Htail.
  assert (Hnorm : ∀ m st (h : gmap loc (gmap string value)) l o,
            <[l := {["stack" := st]} ∪ fields (<[l := {["message" := m]} ∪ fields (<[l := o]> h) l]>
                                                 (<[l := o]> h)) l]>
              (<[l := {["message" := m]} ∪ fields (<[l := o]> h) l]> (<[l := o]> h))
            = <[l := {["stack" := st]} ∪ ({["message" := m]} ∪ o)]> h).
  { intros. by rewrite !fields_insert_eq, !insert_insert_eq. }
  assert (Hthrow : ∀ x o,
            ∃ w', (Throw x : completion TelemetryEventImpl.t,
                   mkWorld (<[freshLoc (heap w) := o]> (heap w)) (sent w) (console w))
                  = (Throw x, w') ∧
                  sent w' = sent w ∧ console w' = console w ∧
                  (∀ l, is_Some (heap w !! l) → heap w' !! l = heap w !! l)).
  { intros x o. eexists. split; [reflexivity |]. cbn. split_and!; try done.
    intros l Hl. by apply insert_fresh_allocated. }
  assert (Hthrow' : ∀ x o o',
            ∃ w', (Throw x : completion TelemetryEventImpl.t,
                   mkWorld (<[freshLoc (heap w) := o']> (<[freshLoc (heap w) := o]> (heap w)))
                     (sent w) (console w))
                  = (Throw x, w') ∧
                  sent w' = sent w ∧ console w' = console w ∧
                  (∀ l, is_Some (heap w !! l) → heap w' !! l = heap w !! l)).
  { intros x o o'. rewrite insert_insert_eq. apply Hthrow. }
  assert (Hother : (∀ err, error ≠ VError err) →
            match (if default false im
                   then match fst (optToString error w) with
                        | Normal m => Normal (m, VString "")
                        | Throw x => Throw x
                        end
                   else Normal (VString "", VString "")) with
            | Normal (m, st) =>
                ∃ ev w',
                  ((message <- (if default false im then optToString error
                                else ret (VString "")) ;;
                    setProp (freshLoc (heap w)) "message" message ;;;
                    setProp (freshLoc (heap w)) "stack" (VString "")) ;;;
                   TelemetryEventImpl.new env (TelemetryReporter._telemetryReporter this)
                     "error" (Some (freshLoc (heap w))) None)%js
                    (mkWorld (<[freshLoc (heap w) :=
                                  TelemetryReporter.errorProps view name ec et]> (heap w))
                       (sent w) (console w))
                    = (Normal ev, w') ∧
                  TelemetryEventImpl.eventName ev = "error" ∧
                  fields (heap w') (TelemetryEventImpl.properties ev) !! "message" = Some m ∧
                  fields (heap w') (TelemetryEventImpl.properties ev) !! "stack" = Some st ∧
                  created env this (CreateErrorEvent2 view name error im ec et) w ev w'
            | Throw e =>
                ∃ w',
                  ((message <- (if default false im then optToString error
                                else ret (VString "")) ;;
                    setProp (freshLoc (heap w)) "message" message ;;;
                    setProp (freshLoc (heap w)) "stack" (VString "")) ;;;
                   TelemetryEventImpl.new env (TelemetryReporter._telemetryReporter this)
                     "error" (Some (freshLoc (heap w))) None)%js
                    (mkWorld (<[freshLoc (heap w) :=
                                  TelemetryReporter.errorProps view name ec et]> (heap w))
                       (sent w) (console w))
                    = (Throw e, w') ∧
                  sent w' = sent w ∧ console w' = console w ∧
                  (∀ l, is_Some (heap w !! l) → heap w' !! l = heap w !! l)
            end).
  { intros _. destruct (default false im).
    - pose proof (optToString_after_alloc error _ w (errorProps_toString view name ec et)) as E.
      cbv zeta in E.
      destruct (fst (optToString error w)) as [m | x]; unfold bind; rewrite E.
      + cbn [setProp Object_assign ret heap sent console]. rewrite Hnorm. apply Htail.
      + apply Hthrow.
    - cbn [bind setProp Object_assign ret heap sent console]. rewrite Hnorm. apply Htail. }
  unfold TelemetryReporter.createErrorEvent2, errorDetails. rewrite bind_alloc.
  destruct error as [| | b | n | str | l | err];
    [by apply Hother .. |].
  clear Hother.
  destruct (negb (default false im) && truthy (VString (message err))) eqn:Hred.
  - unfold RegExp_new. destruct (RegExp.compile (chars (message err))) as [regex | |].
    + cbn [bind setProp Object_assign ret heap sent console fst]; rewrite Hnorm; apply Htail.
    + apply Hthrow'.
    + destruct (engine_RegExp env (message err)) as [f |].
      * cbn [bind setProp Object_assign ret heap sent console fst]; rewrite Hnorm; apply Htail.
      * apply Hthrow'.
  - cbn [bind setProp Object_assign ret heap sent console]; rewrite Hnorm; apply Htail.
Qed.

(** Every factory method, on every input: it returns an event as [created]
    describes, or it is [createErrorEvent2] throwing as [createThrows]
    describes, before anything is sent or written to an object there was. *)
Lemma create_spec env this c w :
  match create env this c w with
  | (Normal ev, w') => created env this c w ev w'
  | (Throw e, w') =>
      createThrows env w c e ∧
      sent w' = sent w ∧ console w' = console w ∧
      (∀ l, is_Some (heap w !! l) → heap w' !! l = heap w !! l)
  end.
Proof.
  destruct c as [view | view action target source d | m g | view name ec et
                | view name error im ec et | name props meas]; cbn [create].
  - unfold TelemetryReporter.createViewEvent. rewrite bind_alloc.
    edestruct (new_on_literal env this (CreateViewEvent view) "view") as (ev & w' & -> & H);
      [ | | left | | | | apply H]; try done.
    + apply fresh_not_allocated.
    + cbn. intros l Hl. by apply insert_fresh_allocated.
  - destruct (createActionEvent_spec env this view action target source d w)
      as (ev & w' & -> & H). apply H.
  - unfold TelemetryReporter.createMetricsEvent. rewrite bind_alloc.
    edestruct (new_on_literal env this (CreateMetricsEvent m g) "metrics") as (ev & w' & -> & H);
      [ | | left | | | | apply H]; try done.
    + apply fresh_not_allocated.
    + cbn. intros l Hl. by apply insert_fresh_allocated.
  - unfold TelemetryReporter.createErrorEvent. rewrite bind_alloc.
    edestruct (new_on_literal env this (CreateErrorEvent view name ec et) "error") as (ev & w' & -> & H);
      [ | | left | | | | apply H]; try done.
    + apply fresh_not_allocated.
    + cbn. intros l Hl. by apply insert_fresh_allocated.
  - pose proof (createErrorEvent2_spec env this view name error im ec et w) as H.
    destruct (errorDetails env w error (default false im)) as [[m st] | x] eqn:Hd.
    + destruct H as (ev & w' & -> & _ & _ & _ & H); exact H.
    + destruct H as (w' & -> & Hs & Hc & Hf). split; [| done].
      exists view, name, error, im, ec, et. split; [done |].
      unfold errorDetails in Hd.
      destruct error as [| | b | n | str | l | err];
        try (by destruct (default false im)).
      * destruct (default false im); [| done]. cbn in Hd.
        destruct (fields (heap w) l !! "toString") eqn:Ht; [| done].
        injection Hd as <-. by split_and!.
      * destruct (default false im); cbn [negb andb] in Hd; [done |].
        destruct (truthy (VString (message err))) eqn:Htr; [| done].
        assert (Hmsg : message err ≠ "").
        { intros E. rewrite E in Htr. done. }
        unfold RegExp_new in Hd |- *.
        destruct (RegExp.compile (chars (message err))); [done | |].
        -- injection Hd as <-. by split_and!.
        -- destruct (engine_RegExp env (message err)); [done |].
           injection Hd as <-. by split_and!.
  - unfold TelemetryReporter.createTelemetryEvent.
    destruct (TelemetryEventImpl_new_lookup env (TelemetryReporter._telemetryReporter this)
                name props meas w)
      as (ev & w' & -> & Hrep & _ & Hs & Hc & Hp & Hm & Hframe & Hsp & Hsm & Hcp & Hcm & _).
    unfold created. cbn [adoptedProperties adoptedMeasurements].
    split_and!; try done. intros l _ H1 H2. by apply Hframe.
Qed.

(** A message outside the patterns of the embedding goes to the engine:
    where the engine makes a regular expression of it, the "stack" is what
    the engine's replacement gives; where it does not, [createErrorEvent2]
    throws the SyntaxError. *)
Lemma createErrorEvent2_engine env this view name err ec et w :
  message err ≠ "" →
  RegExp.compile (chars (message err)) = RegExp.Unsupported →
  match engine_RegExp env (message err) with
  | Some f =>
      ∃ ev w',
        TelemetryReporter.createErrorEvent2 env this view name (VError err) None ec et w
          = (Normal ev, w') ∧
        fields (heap w') (TelemetryEventImpl.properties ev) !! "message" = Some (VString "") ∧
        fields (heap w') (TelemetryEventImpl.properties ev) !! "stack"
          = Some (VString (f (default "" (stack err)) TelemetryReporter.redactionMarker))
  | None =>
      fst (TelemetryReporter.createErrorEvent2 env this view name (VError err) None ec et w)
        = Throw SyntaxError
  end.
Proof.
  intros Hmsg Hc.
  pose proof (createErrorEvent2_spec env this view name (VError err) None ec et w) as H.
  unfold errorDetails, RegExp_new in H. cbn [default negb andb truthy] in H.
  apply String.eqb_neq in Hmsg. rewrite Hmsg, Hc in H. cbn [negb] in H.
  destruct (engine_RegExp env (message err)) as [f |]; cbn [fst String_replace] in H.
  - destruct H as (ev & w' & Hrun & _ & Hm & Hs & _). by exists ev, w'.
  - destruct H as (w' & -> & _). reflexivity.
Qed.

(** So for the message "f(x) failed": the event is made and sent, with the
    common fields, and the message is still in its stack. *)
Lemma message_with_a_group_stays_in_the_stack :
  let e := mkError "f(x) failed" (Some (Example.stackOf "f(x) failed")) in
  let run := TelemetryReporter.sendErrorEvent2 Scenario.groupEnv Example.active
               "dialog" "failed" (VError e) None None None Example.emptyWorld in
  fst run = Normal tt ∧
  callName <$> sent (snd run) = ["error"] ∧
  (λ call, callProperties call !! "message") <$> sent (snd run) = [Some (VString "")] ∧
  (λ call, callProperties call !! "stack") <$> sent (snd run)
    = [Some (VString (Example.stackOf "f(x) failed"))] ∧
  (λ call, callProperties call !! "common.adsversion") <$> sent (snd run)
    = [Some (VString "1.40.0")].
Proof. cbv zeta. split_and!; vm_compute; reflexivity. Qed.

(** A message of the embedding does not reach the engine. *)
Lemma RegExp_new_embedded env env' source w :
  RegExp.compile (chars source) ≠ RegExp.Unsupported →
  RegExp_new env source w = RegExp_new env' source w.
Proof. unfold RegExp_new. by destruct (RegExp.compile (chars source)). Qed.

(** [send()] of an event without transport does nothing. *)
Lemma send_without_transport env ev w :
  TelemetryEventImpl.reporter ev = None →
  TelemetryEventImpl.send env ev w = (Normal tt, w).
Proof.
  intros H. unfold TelemetryEventImpl.send, TelemetryEventImpl.sendTelemetryEvent, tryCatch.
  by rewrite H.
Qed.

(** [send()] of an event with a transport: one call, carrying the two
    accumulators as they are; a throw of the transport ends as a console
    line. *)
Lemma send_with_transport env ev w t :
  TelemetryEventImpl.reporter ev = Some t →
  ∃ w',
    TelemetryEventImpl.send env ev w = (Normal tt, w') ∧
    heap w' = heap w ∧
    sent w' = sent w ++
      [mkCall (TelemetryEventImpl.eventName ev)
         (fields (heap w) (TelemetryEventImpl.properties ev))
         (fields (heap w) (TelemetryEventImpl.measurements ev))] ∧
    match transport_sendTelemetryEvent env (TelemetryEventImpl.eventName ev)
            (fields (heap w) (TelemetryEventImpl.properties ev))
            (fields (heap w) (TelemetryEventImpl.measurements ev)) with
    | Some e => console w' = console w ++ [ErrorSending (TelemetryEventImpl.eventName ev) e]
    | None => console w' = console w
    end.
Proof.
  intros H. unfold TelemetryEventImpl.send, TelemetryEventImpl.sendTelemetryEvent, tryCatch.
  rewrite H.
  destruct (transport_sendTelemetryEvent env _ _ _); eexists; split_and!; reflexivity.
Qed.

Lemma union_lookup_is_Some (a m : gmap string value) k :
  is_Some (m !! k) → is_Some ((a ∪ m) !! k).
Proof. intros H. apply lookup_union_is_Some. by right. Qed.

(** [Object.assign] on the store: the target keeps its keys, the other
    objects are as they were. *)
Lemma assign_keeps (h : gmap loc (gmap string value)) (target : loc) (a : gmap string value) :
  (∀ l, l ≠ target → <[target := a ∪ fields h target]> h !! l = h !! l) ∧
  (∀ l, is_Some (h !! l) → is_Some (<[target := a ∪ fields h target]> h !! l)) ∧
  (∀ l k, is_Some (fields h l !! k) →
          is_Some (fields (<[target := a ∪ fields h target]> h) l !! k)).
Proof.
  split_and!.
  - intros l Hne. by rewrite lookup_insert_ne.
  - intros l Hl. destruct (decide (target = l)) as [-> | Hne].
    + by rewrite lookup_insert_eq.
    + by rewrite lookup_insert_ne.
  - intros l k Hk. destruct (decide (target = l)) as [-> | Hne].
    + rewrite fields_insert_eq. by apply union_lookup_is_Some.
    + by rewrite fields_insert_ne.
Qed.

(** One enrichment call: it returns the same builder, sends nothing, writes
    to the event's accumulators only and removes no key; the only throw is
    the TypeError of a [null] argument. *)
Lemma enrich_spec ev op w :
  match enrich ev op w with
  | (Normal ev', w') =>
      ev' = ev ∧ sent w' = sent w ∧
      (∀ l, l ≠ TelemetryEventImpl.properties ev → l ≠ TelemetryEventImpl.measurements ev →
            heap w' !! l = heap w !! l) ∧
      (∀ l, is_Some (heap w !! l) → is_Some (heap w' !! l)) ∧
      (∀ l k, is_Some (fields (heap w) l !! k) → is_Some (fields (heap w') l !! k))
  | (Throw e, w') =>
      e = TypeError ∧ w' = w ∧
      (op = WithConnectionInfo VNull ∨ op = WithServerInfo VNull)
  end.
Proof.
  assert (Hassign : ∀ target a,
            target = TelemetryEventImpl.properties ev ∨ target = TelemetryEventImpl.measurements ev →
            ev = ev ∧ sent w = sent w ∧
            (∀ l, l ≠ TelemetryEventImpl.properties ev → l ≠ TelemetryEventImpl.measurements ev →
                  <[target := a ∪ fields (heap w) target]> (heap w) !! l = heap w !! l) ∧
            (∀ l, is_Some (heap w !! l) →
                  is_Some (<[target := a ∪ fields (heap w) target]> (heap w) !! l)) ∧
            (∀ l k, is_Some (fields (heap w) l !! k) →
                    is_Some (fields (<[target := a ∪ fields (heap w) target]> (heap w)) l !! k))).
  { intros target a Ht. destruct (assign_keeps (heap w) target a) as (H1 & H2 & H3).
    split_and!; try done. intros l Hp Hm. apply H1. destruct Ht; congruence. }
  assert (Hsame : ∀ c, ev = ev ∧ sent w = sent w ∧
            (∀ l, l ≠ TelemetryEventImpl.properties ev → l ≠ TelemetryEventImpl.measurements ev →
                  heap (mkWorld (heap w) (sent w) c) !! l = heap w !! l) ∧
            (∀ l, is_Some (heap w !! l) → is_Some (heap (mkWorld (heap w) (sent w) c) !! l)) ∧
            (∀ l k, is_Some (fields (heap w) l !! k) →
                    is_Some (fields (heap (mkWorld (heap w) (sent w) c)) l !! k))).
  { intros c. by split_and!. }
  destruct op as [o | o | v | v]; cbn [enrich].
  - apply Hassign. by left.
  - apply Hassign. by right.
  - destruct v; try apply Hsame.
    + split_and!; [done | done | by left].
    + apply Hassign. by left.
    + apply Hassign. by left.
  - destruct v; try apply Hsame.
    + split_and!; [done | done | by right].
    + apply Hassign. by left.
    + apply Hassign. by left.
Qed.

(** The keys a call assigns are in the accumulator when it returns. *)
Lemma enrich_assigns ev op w :
  match enrich ev op w with
  | (Normal _, w') =>
      ∀ k,
        (assignsProperty (heap w) op k →
         is_Some (fields (heap w') (TelemetryEventImpl.properties ev) !! k)) ∧
        (assignsMeasurement (heap w) op k →
         is_Some (fields (heap w') (TelemetryEventImpl.measurements ev) !! k))
  | (Throw _, _) => True
  end.
Proof.
  assert (Hin : ∀ (a : gmap string value) target k,
            is_Some (a !! k) →
            is_Some (fields (<[target := a ∪ fields (heap w) target]> (heap w)) target !! k)).
  { intros a target k Hk. rewrite fields_insert_eq. apply lookup_union_is_Some. by left. }
  assert (Hlist : ∀ (a : gmap string value) (ks : list string) k,
            k ∈ ks → Forall (λ k, is_Some (a !! k)) ks → is_Some (a !! k)).
  { intros a ks k Hk Hall. rewrite Forall_forall in Hall. by apply Hall. }
  destruct op as [o | o | v | v]; cbn [enrich].
  - intros k. split; [| done]. apply Hin.
  - intros k. split; [done |]. apply Hin.
  - destruct v as [| | b | n | str | l | err]; [| done | ..]; intros k; (split; [| done]);
      intros [Hty Hk]; try discriminate Hty;
      apply Hin; (eapply Hlist; [exact Hk |]); repeat constructor.
    all: try (by rewrite lookup_insert_eq).
    all: rewrite lookup_insert_ne by done; by rewrite lookup_insert_eq.
  - destruct v as [| | b | n | str | l | err]; [| done | ..]; intros k; (split; [| done]);
      intros [Hty Hk]; try discriminate Hty;
      apply Hin; (eapply Hlist; [exact Hk |]); repeat constructor.
    all: try (by rewrite lookup_insert_eq).
    all: try (rewrite lookup_insert_ne by done; by rewrite lookup_insert_eq).
    all: rewrite !lookup_insert_ne by done; by rewrite lookup_insert_eq.
Qed.

(** A chain of enrichment calls: as one call.  When it throws, everything
    before the call that throws has happened. *)
Lemma enrichAll_spec ev ops w :
  match enrichAll ev ops w with
  | (Normal ev', w') =>
      ev' = ev ∧ sent w' = sent w ∧
      (∀ l, l ≠ TelemetryEventImpl.properties ev → l ≠ TelemetryEventImpl.measurements ev →
            heap w' !! l = heap w !! l) ∧
      (∀ l, is_Some (heap w !! l) → is_Some (heap w' !! l)) ∧
      (∀ l k, is_Some (fields (heap w) l !! k) → is_Some (fields (heap w') l !! k))
  | (Throw e, w') =>
      e = TypeError ∧ sent w' = sent w ∧
      (∀ l, l ≠ TelemetryEventImpl.properties ev → l ≠ TelemetryEventImpl.measurements ev →
            heap w' !! l = heap w !! l)
  end.
Proof.
  revert w. induction ops as [| op rest IH]; intros w.
  - cbn. by split_and!.
  - cbn [enrichAll]. unfold bind. pose proof (enrich_spec ev op w) as H1.
    destruct (enrich ev op w) as [[ev1 | e] w1].
    + destruct H1 as (-> & Hs1 & Hf1 & Ha1 & Hk1).
      pose proof (IH w1) as H2.
      destruct (enrichAll ev rest w1) as [[ev2 | e] w2].
      * destruct H2 as (-> & Hs2 & Hf2 & Ha2 & Hk2).
        split_and!; try done; try congruence.
        -- intros l Hp Hm. by rewrite Hf2, Hf1.
        -- intros l Hl. by apply Ha2, Ha1.
        -- intros l k Hk. by apply Hk2, Hk1.
      * destruct H2 as (-> & Hs2 & Hf2). split_and!; try done; try congruence.
        intros l Hp Hm. by rewrite Hf2, Hf1.
    + destruct H1 as (-> & -> & _). by split_and!.
Qed.

(** A chain that returns has assigned, to the accumulators of its event,
    the keys of each of its calls, as the maps passed were when the chain
    began. *)
Lemma enrichAll_assigns ev ops w :
  match enrichAll ev ops w with
  | (Normal _, w') =>
      ∀ op k, op ∈ ops →
        (assignsProperty (heap w) op k →
         is_Some (fields (heap w') (TelemetryEventImpl.properties ev) !! k)) ∧
        (assignsMeasurement (heap w) op k →
         is_Some (fields (heap w') (TelemetryEventImpl.measurements ev) !! k))
  | (Throw _, _) => True
  end.
Proof.
  assert (Hmono : ∀ (h h' : gmap loc (gmap string value)) op k,
            (∀ l k, is_Some (fields h l !! k) → is_Some (fields h' l !! k)) →
            (assignsProperty h op k → assignsProperty h' op k) ∧
            (assignsMeasurement h op k → assignsMeasurement h' op k)).
  { intros h h' op k Hk. destruct op; cbn; split; try done; apply Hk. }
  revert w. induction ops as [| op rest IH]; intros w.
  - cbn. intros op k Hop. by apply elem_of_nil in Hop.
  - cbn [enrichAll]. unfold bind.
    pose proof (enrich_spec ev op w) as H1. pose proof (enrich_assigns ev op w) as A1.
    destruct (enrich ev op w) as [[ev1 | e] w1]; [| done].
    destruct H1 as (-> & _ & _ & _ & Hk1).
    pose proof (IH w1) as A2. pose proof (enrichAll_spec ev rest w1) as H2.
    destruct (enrichAll ev rest w1) as [[ev2 | e] w2]; [| done].
    destruct H2 as (_ & _ & _ & _ & Hk2).
    intros op' k Hop. apply elem_of_cons in Hop as [-> | Hop].
    + destruct (A1 k) as [Ap Am]. split; intros Hk; apply Hk2; auto.
    + destruct (Hmono (heap w) (heap w1) op' k Hk1) as [Mp Mm].
      destruct (A2 op' k Hop) as [Ap Am]. split; intros Hk; auto.
Qed.

(** C2, as the code has it: whatever the factory method and its input, the
    event it returns, sent at once, reaches the transport with every common
    field at its common value, so a key passed at creation that is also a
    common field arrives with the common value; after any chain of enrichment
    calls the common keys are still there.  This holds whatever the engine
    makes of a message as a regular expression.  No event is returned only
    when [createErrorEvent2] throws, as [createThrows] describes; a chain of
    enrichment calls that does not return throws a TypeError. *)
Theorem common_fields_win env this c w :
  match create env this c w with
  | (Normal ev, w1) =>
      (∀ t, TelemetryReporter._telemetryReporter this = Some t →
         ∃ w2 call,
           TelemetryEventImpl.send env ev w1 = (Normal tt, w2) ∧
           sent w2 = sent w ++ [call] ∧
           (∀ k v, commonProperties env !! k = Some v → callProperties call !! k = Some v) ∧
           (∀ k v, commonMeasurements env !! k = Some v →
                   callMeasurements call !! k = Some v)) ∧
      (∀ ops,
         match enrichAll ev ops w1 with
         | (Normal ev', w2) =>
             ∀ t, TelemetryReporter._telemetryReporter this = Some t →
               ∃ w3 call,
                 TelemetryEventImpl.send env ev' w2 = (Normal tt, w3) ∧
                 sent w3 = sent w ++ [call] ∧
                 (∀ k, is_Some (commonProperties env !! k) →
                       is_Some (callProperties call !! k)) ∧
                 (∀ k, is_Some (commonMeasurements env !! k) →
                       is_Some (callMeasurements call !! k))
         | (Throw e, _) => e = TypeError
         end)
  | (Throw e, _) => createThrows env w c e
  end.
Proof.
  pose proof (create_spec env this c w) as Hc.
  destruct (create env this c w) as [[ev | e] w1]; [| by destruct Hc].
  destruct Hc as (Hrep & Hs & Hcon & _ & _ & _ & _ & _ & Hcp & Hcm).
  split.
  - intros t Ht.
    destruct (send_with_transport env ev w1 t) as (w2 & Hsend & _ & Hsent & _); [congruence |].
    eexists w2, _. split; [exact Hsend |]. split; [by rewrite Hsent, Hs |]. by split.
  - intros ops. pose proof (enrichAll_spec ev ops w1) as He.
    destruct (enrichAll ev ops w1) as [[ev' | e] w2]; [| by destruct He].
    destruct He as (-> & Hs2 & _ & _ & Hk).
    intros t Ht.
    destruct (send_with_transport env ev w2 t) as (w3 & Hsend & _ & Hsent & _); [congruence |].
    eexists w3, _. split; [exact Hsend |]. split; [by rewrite Hsent, Hs2, Hs |].
    cbn [callProperties callMeasurements]. split.
    + intros k [v Hv]. apply Hk. rewrite (Hcp k v Hv). by eexists.
    + intros k [v Hv]. apply Hk. rewrite (Hcm k v Hv). by eexists.
Qed.

(** C2, the claim as stated fails: a caller passes "common.adsversion" to
    [createTelemetryEvent]; the transport receives the common value, not the
    caller's. *)
Lemma per_call_common_key_is_overwritten :
  let w := Example.callerWorld {[ "common.adsversion" := VString "mine" ]} in
  let run := TelemetryReporter.sendTelemetryEvent Example.env Example.active
               "custom" (Some 1%positive) None w in
  fields (heap w) 1%positive !! "common.adsversion" = Some (VString "mine") ∧
  commonProperties Example.env !! "common.adsversion" = Some (VString "1.40.0") ∧
  fst run = Normal tt ∧
  (λ call, callProperties call !! "common.adsversion") <$> sent (snd run)
    = [Some (VString "1.40.0")].
Proof. cbv zeta. split_and!; vm_compute; reflexivity. Qed.

(** [send()] never touches the store and always returns. *)
Lemma send_returns env ev w :
  ∃ w', TelemetryEventImpl.send env ev w = (Normal tt, w') ∧ heap w' = heap w.
Proof.
  destruct (TelemetryEventImpl.reporter ev) as [t |] eqn:Hr.
  - destruct (send_with_transport env ev w t Hr) as (w' & H1 & H2 & _). by exists w'.
  - exists w. by rewrite send_without_transport.
Qed.

(** An accumulating call of a [TimedAction] returns the same object and
    writes to its own two accumulators only. *)
Lemma accumulate_spec ta op w :
  ∃ w',
    accumulate ta op w = (Normal ta, w') ∧
    sent w' = sent w ∧ console w' = console w ∧
    (∀ l, l ≠ TimedAction.properties ta → l ≠ TimedAction.measures ta →
          heap w' !! l = heap w !! l) ∧
    (∀ l, is_Some (heap w !! l) → is_Some (heap w' !! l)).
Proof.
  destruct op as [o | o]; cbn; eexists; (split; [reflexivity |]); cbn [heap sent console].
  - destruct (assign_keeps (heap w) (TimedAction.properties ta) (fields (heap w) o))
      as (H1 & H2 & _).
    split_and!; try done. intros l Hp _. by apply H1.
  - destruct (assign_keeps (heap w) (TimedAction.measures ta) (fields (heap w) o))
      as (H1 & H2 & _).
    split_and!; try done. intros l _ Hm. by apply H1.
Qed.

Lemma accumulateAll_spec ta ops w :
  ∃ w',
    accumulateAll ta ops w = (Normal ta, w') ∧
    sent w' = sent w ∧ console w' = console w ∧
    (∀ l, l ≠ TimedAction.properties ta → l ≠ TimedAction.measures ta →
          heap w' !! l = heap w !! l) ∧
    (∀ l, is_Some (heap w !! l) → is_Some (heap w' !! l)).
Proof.
  revert w. induction ops as [| op rest IH]; intros w.
  - exists w. by split_and!.
  - destruct (accumulate_spec ta op w) as (w1 & Hrun1 & Hs1 & Hc1 & Hf1 & Ha1).
    destruct (IH w1) as (w2 & Hrun2 & Hs2 & Hc2 & Hf2 & Ha2).
    exists w2. cbn [accumulateAll]. unfold bind. rewrite Hrun1, Hrun2.
    split_and!; try done; try congruence.
    + intros l Hp Hm. by rewrite Hf2, Hf1.
    + intros l Hl. by apply Ha2, Ha1.
Qed.

(** The constructor of [TimedAction]: two new, empty accumulators. *)
Lemma createTimedAction_spec this view action target source t0 w :
  ∃ ta w',
    createTimedAction this view action target source t0 w = (Normal ta, w') ∧
    TimedAction.reporter ta = this ∧
    TimedAction.view ta = view ∧ TimedAction.action ta = action ∧
    TimedAction.target ta = default "" target ∧ TimedAction.source ta = default "" source ∧
    TimedAction.start ta = t0 ∧
    sent w' = sent w ∧ console w' = console w ∧
    heap w !! TimedAction.properties ta = None ∧
    heap w !! TimedAction.measures ta = None ∧
    TimedAction.properties ta ≠ TimedAction.measures ta ∧
    fields (heap w') (TimedAction.properties ta) = ∅ ∧
    fields (heap w') (TimedAction.measures ta) = ∅ ∧
    is_Some (heap w' !! TimedAction.properties ta) ∧
    is_Some (heap w' !! TimedAction.measures ta) ∧
    (∀ l, is_Some (heap w !! l) → heap w' !! l = heap w !! l).
Proof.
  unfold createTimedAction, TimedAction.new. rewrite bind_alloc, bind_alloc.
  cbn [heap sent console ret].
  set (tp := freshLoc (heap w)).
  set (h1 := <[tp := ∅]> (heap w)).
  set (tm := freshLoc h1).
  assert (Htp : heap w !! tp = None) by apply fresh_not_allocated.
  assert (Htm1 : h1 !! tm = None) by apply fresh_not_allocated.
  assert (Hne : tp ≠ tm).
  { intros E. rewrite <- E in Htm1. unfold h1 in Htm1. by rewrite lookup_insert_eq in Htm1. }
  assert (Htm : heap w !! tm = None).
  { unfold h1 in Htm1. by rewrite lookup_insert_ne in Htm1. }
  eexists _, _. split; [reflexivity |]. cbn. split_and!; try done.
  - rewrite fields_insert_ne by done. unfold h1. by rewrite fields_insert_eq.
  - by rewrite fields_insert_eq.
  - rewrite lookup_insert_ne by done. unfold h1. by rewrite lookup_insert_eq.
  - by rewrite lookup_insert_eq.
  - intros l Hl.
    rewrite lookup_insert_ne by (intros <-; rewrite Htm in Hl; by destruct Hl).
    unfold h1. rewrite lookup_insert_ne by (intros <-; rewrite Htp in Hl; by destruct Hl). done.
Qed.

(** [TimedAction.send] in two steps: the action event [createActionEvent]
    returns, with source and target in the order the method passes them, and
    the [send()] of that event after the two accumulators were assigned to
    it. *)
Lemma TimedAction_send_unfold env ta now w :
  ∃ ev w1,
    TelemetryReporter.createActionEvent env (TimedAction.reporter ta)
      (TimedAction.view ta) (TimedAction.action ta)
      (Some (TimedAction.source ta)) (Some (TimedAction.target ta))
      (Some (Int (now - TimedAction.start ta))) w = (Normal ev, w1) ∧
    let h1 := heap w1 in
    let h2 := <[TelemetryEventImpl.properties ev :=
                  fields h1 (TimedAction.properties ta)
                  ∪ fields h1 (TelemetryEventImpl.properties ev)]> h1 in
    let h3 := <[TelemetryEventImpl.measurements ev :=
                  fields h2 (TimedAction.measures ta)
                  ∪ fields h2 (TelemetryEventImpl.measurements ev)]> h2 in
    TimedAction.send env ta now w
      = TelemetryEventImpl.send env ev (mkWorld h3 (sent w1) (console w1)).
Proof.
  destruct (createActionEvent_spec env (TimedAction.reporter ta) (TimedAction.view ta)
              (TimedAction.action ta) (Some (TimedAction.source ta))
              (Some (TimedAction.target ta)) (Some (Int (now - TimedAction.start ta))) w)
    as (ev & w1 & Hrun & _).
  exists ev, w1. split; [exact Hrun |].
  unfold TimedAction.send, bind. rewrite Hrun. reflexivity.
Qed.

(** C3: when the constructor of the transport throws, the reporter is built
    all the same, without transport, and the failure is logged once; from
    then on nothing reaches the transport: [send()] of every event of that
    reporter, whatever factory method and enrichment calls made it and
    whatever the engine makes of an error's message, returns normally and
    leaves the world as it was; where the factory method or an enrichment
    call throws there is no event to send, and nothing was sent; [send()] of
    its timed actions returns normally and sends and logs nothing. *)
Theorem degraded_reporter_sends_nothing env extensionId extensionVersion key e w :
  transport_new env extensionId extensionVersion key = Some e →
  ∃ this,
    TelemetryReporter.new env extensionId extensionVersion key w
      = (Normal this,
         mkWorld (heap w) (sent w) (console w ++ [ErrorInitializing extensionId e])) ∧
    TelemetryReporter._telemetryReporter this = None ∧
    (∀ c ops w1,
       match (ev <- create env this c ;; enrichAll ev ops)%js w1 with
       | (Normal ev, w2) =>
           sent w2 = sent w1 ∧ TelemetryEventImpl.send env ev w2 = (Normal tt, w2)
       | (Throw _, w2) => sent w2 = sent w1
       end) ∧
    (∀ view action target source t0 accs now w1,
       ∃ ta w2 w3,
         (ta <- createTimedAction this view action target source t0 ;;
          accumulateAll ta accs)%js w1 = (Normal ta, w2) ∧
         TimedAction.send env ta now w2 = (Normal tt, w3) ∧
         sent w3 = sent w1 ∧ console w3 = console w1).
Proof.
  intros Hnew. exists (TelemetryReporter.mk None). split_and!.
  - unfold TelemetryReporter.new, tryCatch. by rewrite Hnew.
  - done.
  - intros c ops w1. unfold bind.
    pose proof (create_spec env (TelemetryReporter.mk None) c w1) as Hc.
    destruct (create env (TelemetryReporter.mk None) c w1) as [[ev | x] w2];
      [| by destruct Hc as (_ & ? & _)].
    destruct Hc as (Hrep & Hs & _).
    pose proof (enrichAll_spec ev ops w2) as He.
    destruct (enrichAll ev ops w2) as [[ev' | x] w3].
    + destruct He as (-> & Hs3 & _). split; [congruence |]. by apply send_without_transport.
    + destruct He as (_ & Hs3 & _). congruence.
  - intros view action target source t0 accs now w1. unfold bind.
    destruct (createTimedAction_spec (TelemetryReporter.mk None) view action target source t0 w1)
      as (ta & w2 & -> & Hrep & _ & _ & _ & _ & _ & Hs2 & Hc2 & _).
    destruct (accumulateAll_spec ta accs w2) as (w3 & -> & Hs3 & Hc3 & _).
    destruct (TimedAction_send_unfold env ta now w3) as (ev & w4 & Hcreate & Hsend).
    cbv zeta in Hsend.
    pose proof (create_spec env (TimedAction.reporter ta)
                  (CreateActionEvent (TimedAction.view ta) (TimedAction.action ta)
                     (Some (TimedAction.source ta)) (Some (TimedAction.target ta))
                     (Some (Int (now - TimedAction.start ta)))) w3) as Hc.
    cbn [create] in Hc. rewrite Hcreate in Hc. destruct Hc as (Hr & Hs & Hcon & _).
    eexists ta, w3, _. split; [reflexivity |]. rewrite Hsend.
    rewrite send_without_transport by (by rewrite Hr, Hrep).
    split; [reflexivity |]. cbn [sent console]. split; congruence.
Qed.

Lemma degraded_reporter_sends_nothing_witness :
  transport_new Example.brokenEnv "ext" "1.0.0" "key" = Some (Thrown (VString "no transport")) ∧
  ∃ this,
    TelemetryReporter.new Example.brokenEnv "ext" "1.0.0" "key" Example.emptyWorld
      = (Normal this,
         mkWorld ∅ [] [ErrorInitializing "ext" (Thrown (VString "no transport"))]) ∧
    TelemetryReporter._telemetryReporter this = None.
Proof.
  split; [reflexivity |].
  destruct (degraded_reporter_sends_nothing Example.brokenEnv "ext" "1.0.0" "key"
              (Thrown (VString "no transport")) Example.emptyWorld eq_refl)
    as (this & Hnew & Hnone & _).
  exists this. split; [exact Hnew | exact Hnone].
Defined.

(** C4, the claim as stated fails: the map a caller passes to
    [createMetricsEvent] is the event's measurements object itself and
    receives the common measurement. *)
Lemma createMetricsEvent_writes_to_the_callers_map :
  let w := Example.callerWorld {[ "latencyMs" := VNumber (Int 42) ]} in
  let run := create Example.env Example.active
               (CreateMetricsEvent 1%positive (Some "Dialog")) w in
  map_to_list (fields (heap w) 1%positive) = [("latencyMs", VNumber (Int 42))] ∧
  match fst run with
  | Normal ev => TelemetryEventImpl.measurements ev = 1%positive
  | _ => False
  end ∧
  fields (heap (snd run)) 1%positive !! "latencyMs" = Some (VNumber (Int 42)) ∧
  fields (heap (snd run)) 1%positive !! "common.msftInternal" = Some (VNumber (Int 0)).
Proof. cbv zeta. split_and!; vm_compute; reflexivity. Qed.

(** C4, as the code has it.  Through a factory call, any chain of enrichment
    calls and [send()], however the run ends and whatever the engine makes of
    an error's message, every object the caller owned before is as it was,
    except the objects the factory call adopted (the [properties] and
    [measurements] of [createTelemetryEvent], the [measurements] of
    [createMetricsEvent]); in particular the maps passed to the [with...]
    methods are only read.  The objects adopted are the accumulators of the
    event returned: they hold the common fields, and after the chain they
    hold every key its calls assign; [send()] then writes to no object.
    A timed action, through its construction, any chain of accumulating
    calls and [send()], changes no object the caller owned before. *)
Theorem only_adopted_objects_are_written env this c ops w :
  (∀ l, is_Some (heap w !! l) →
        adoptedProperties c ≠ Some l → adoptedMeasurements c ≠ Some l →
        heap (snd ((ev <- create env this c ;; ev' <- enrichAll ev ops ;;
                    TelemetryEventImpl.send env ev')%js w)) !! l = heap w !! l) ∧
  match create env this c w with
  | (Normal ev, w1) =>
      (∀ o, adoptedProperties c = Some o → TelemetryEventImpl.properties ev = o) ∧
      (∀ o, adoptedMeasurements c = Some o → TelemetryEventImpl.measurements ev = o) ∧
      (∀ k v, commonProperties env !! k = Some v →
              fields (heap w1) (TelemetryEventImpl.properties ev) !! k = Some v) ∧
      (∀ k v, commonMeasurements env !! k = Some v →
              fields (heap w1) (TelemetryEventImpl.measurements ev) !! k = Some v) ∧
      match enrichAll ev ops w1 with
      | (Normal ev', w2) =>
          ev' = ev ∧
          (∀ op k, op ∈ ops →
             (assignsProperty (heap w1) op k →
              is_Some (fields (heap w2) (TelemetryEventImpl.properties ev) !! k)) ∧
             (assignsMeasurement (heap w1) op k →
              is_Some (fields (heap w2) (TelemetryEventImpl.measurements ev) !! k))) ∧
          ∃ w3, TelemetryEventImpl.send env ev w2 = (Normal tt, w3) ∧ heap w3 = heap w2
      | (Throw e, _) => e = TypeError
      end
  | (Throw e, _) => createThrows env w c e
  end ∧
  ∀ view action target source t0 accs now,
    ∃ ta w1 w2,
      (ta <- createTimedAction this view action target source t0 ;;
       accumulateAll ta accs)%js w = (Normal ta, w1) ∧
      TimedAction.send env ta now w1 = (Normal tt, w2) ∧
      ∀ l, is_Some (heap w !! l) → heap w2 !! l = heap w !! l.
Proof.
  assert (Hfresh : ∀ (w0 : world) (a : option loc) (x l : loc),
            match a with Some o => x = o | None => heap w0 !! x = None end →
            is_Some (heap w0 !! l) → a ≠ Some l → l ≠ x).
  { intros w0 a x l Ha Hl Hna ->. destruct a as [o |].
    - by subst.
    - rewrite Ha in Hl. by destruct Hl. }
  pose proof (create_spec env this c w) as Hc.
  split_and!.
  - unfold bind. destruct (create env this c w) as [[ev | x] w1].
    + destruct Hc as (_ & _ & _ & Hp & Hm & Hframe & _).
      pose proof (enrichAll_spec ev ops w1) as He.
      intros l Hl Hap Ham.
      assert (l ≠ TelemetryEventImpl.properties ev) by (by eapply Hfresh).
      assert (l ≠ TelemetryEventImpl.measurements ev) by (by eapply Hfresh).
      destruct (enrichAll ev ops w1) as [[ev' | x] w2].
      * destruct He as (-> & _ & Hf2 & _).
        destruct (send_returns env ev w2) as (w3 & -> & Hh). cbn [snd].
        rewrite Hh, Hf2 by done. by apply Hframe.
      * destruct He as (_ & _ & Hf2). cbn [snd]. rewrite Hf2 by done. by apply Hframe.
    + destruct Hc as (_ & _ & _ & Hframe). intros l Hl _ _. by apply Hframe.
  - destruct (create env this c w) as [[ev | x] w1]; [| by destruct Hc].
    destruct Hc as (_ & _ & _ & Hp & Hm & _ & _ & _ & Hcp & Hcm).
    split_and!.
    + intros o Ho. by rewrite Ho in Hp.
    + intros o Ho. by rewrite Ho in Hm.
    + exact Hcp.
    + exact Hcm.
    + pose proof (enrichAll_spec ev ops w1) as He.
      pose proof (enrichAll_assigns ev ops w1) as Ha.
      destruct (enrichAll ev ops w1) as [[ev' | x] w2]; [| by destruct He].
      destruct He as (-> & _). split; [done |]. split; [exact Ha |].
      apply send_returns.
  - intros view action target source t0 accs now. unfold bind.
    destruct (createTimedAction_spec this view action target source t0 w)
      as (ta & w1 & -> & _ & _ & _ & _ & _ & _ & _ & _ & Htp & Htm & _ & _ & _ & _ & _ & Hext).
    destruct (accumulateAll_spec ta accs w1) as (w2 & -> & _ & _ & Hf2 & Ha2).
    destruct (TimedAction_send_unfold env ta now w2) as (ev & w3 & Hcreate & Hsend).
    cbv zeta in Hsend.
    pose proof (create_spec env (TimedAction.reporter ta)
                  (CreateActionEvent (TimedAction.view ta) (TimedAction.action ta)
                     (Some (TimedAction.source ta)) (Some (TimedAction.target ta))
                     (Some (Int (now - TimedAction.start ta)))) w2) as Hc'.
    cbn [create] in Hc'. rewrite Hcreate in Hc'.
    destruct Hc' as (_ & _ & _ & Hp & Hm & Hframe & _).
    cbn [adoptedProperties adoptedMeasurements] in Hp, Hm.
    match type of Hsend with _ = TelemetryEventImpl.send env ev ?x =>
      destruct (send_returns env ev x) as (w4 & Hs4 & Hh) end.
    exists ta, w2, w4. split; [reflexivity |]. split; [by rewrite Hsend |].
    intros l Hl. rewrite Hh. cbn [heap].
    assert (Hl1 : is_Some (heap w1 !! l)) by (by rewrite Hext).
    assert (Hl2 : is_Some (heap w2 !! l)) by (by apply Ha2).
    assert (l ≠ TelemetryEventImpl.properties ev).
    { intros ->. rewrite Hp in Hl2. by destruct Hl2. }
    assert (l ≠ TelemetryEventImpl.measurements ev).
    { intros ->. rewrite Hm in Hl2. by destruct Hl2. }
    rewrite !lookup_insert_ne by done.
    rewrite Hframe by done.
    rewrite Hf2.
    + by apply Hext.
    + intros ->. rewrite Htp in Hl. by destruct Hl.
    + intros ->. rewrite Htm in Hl. by destruct Hl.
Qed.

(** The "durationInMs" entry [createActionEvent] produces for its optional
    argument. *)
Lemma actionMeasures_duration d :
  TelemetryReporter.actionMeasures d !! "durationInMs"
  = match d with
    | Some (Int z) => if decide (z = 0%Z) then None else Some (VNumber (Int z))
    | Some NaN | None => None
    end.
Proof.
  destruct d as [[| z] |]; cbn; try done.
  destruct (decide (z = 0%Z)) as [-> | Hz]; [done |].
  apply Z.eqb_neq in Hz. rewrite Hz. cbn. by rewrite lookup_singleton_eq.
Qed.

(** C8, the claim as stated fails: a supplied duration of 0 is left out. *)
Lemma zero_duration_is_omitted :
  let run := TelemetryReporter.sendActionEvent Example.env Example.active
               "dialog" "click" None None (Some (Int 0)) Example.emptyWorld in
  fst run = Normal tt ∧
  callName <$> sent (snd run) = ["action"] ∧
  (λ call, callMeasurements call !! "durationInMs") <$> sent (snd run) = [None].
Proof. cbv zeta. split_and!; vm_compute; reflexivity. Qed.

(** C8, as the code has it: without a duration, and with a duration of 0 or
    NaN, the event has no "durationInMs" measurement; with any other number
    it has that number; and [sendActionEvent] hands the same to the
    transport. *)
Theorem durationInMs_measurement env this view action target source d w :
  let expected :=
    match d with
    | Some (Int z) => if decide (z = 0%Z) then None else Some (VNumber (Int z))
    | Some NaN | None => None
    end in
  ∃ ev w1,
    TelemetryReporter.createActionEvent env this view action target source d w
      = (Normal ev, w1) ∧
    fields (heap w1) (TelemetryEventImpl.measurements ev) !! "durationInMs" = expected ∧
    ∀ t, TelemetryReporter._telemetryReporter this = Some t →
      ∃ w2 call,
        TelemetryReporter.sendActionEvent env this view action target source d w
          = (Normal tt, w2) ∧
        sent w2 = sent w ++ [call] ∧
        callName call = "action" ∧
        callMeasurements call !! "durationInMs" = expected.
Proof.
  intros expected.
  destruct (createActionEvent_spec env this view action target source d w)
    as (ev & w1 & Hrun & Hname & _ & _ & Hm & Hc).
  assert (Hd : fields (heap w1) (TelemetryEventImpl.measurements ev) !! "durationInMs"
               = expected).
  { rewrite Hm by done. apply actionMeasures_duration. }
  exists ev, w1. split; [exact Hrun |]. split; [exact Hd |].
  intros t Ht. destruct Hc as (Hrep & Hs & _).
  destruct (send_with_transport env ev w1 t) as (w2 & Hsend & _ & Hsent & _); [congruence |].
  eexists w2, _. unfold TelemetryReporter.sendActionEvent, bind. rewrite Hrun.
  split; [exact Hsend |]. split; [by rewrite Hsent, Hs |]. by split.
Qed.

(** What [TimedAction.send] hands to the transport of an active reporter:
    the contents of the two accumulators of the timed action, on top of the
    action event [createActionEvent] makes from the arguments it is given,
    the source in the place of the target and the target in the place of the
    source. *)
Lemma TimedAction_send_call env ta now w t :
  TelemetryReporter._telemetryReporter (TimedAction.reporter ta) = Some t →
  is_Some (heap w !! TimedAction.properties ta) →
  is_Some (heap w !! TimedAction.measures ta) →
  ∃ w' call,
    TimedAction.send env ta now w = (Normal tt, w') ∧
    sent w' = sent w ++ [call] ∧
    callName call = "action" ∧
    (∀ k v, fields (heap w) (TimedAction.properties ta) !! k = Some v →
            callProperties call !! k = Some v) ∧
    (∀ k v, fields (heap w) (TimedAction.measures ta) !! k = Some v →
            callMeasurements call !! k = Some v) ∧
    (∀ k, k ≠ "common.adsversion" → k ≠ "common.msftInternal" →
          fields (heap w) (TimedAction.properties ta) !! k = None →
          callProperties call !! k
          = TelemetryReporter.actionProps (TimedAction.view ta) (TimedAction.action ta)
              (TimedAction.source ta) (TimedAction.target ta) !! k) ∧
    (∀ k, k ≠ "common.adsversion" → k ≠ "common.msftInternal" →
          fields (heap w) (TimedAction.measures ta) !! k = None →
          callMeasurements call !! k
          = TelemetryReporter.actionMeasures (Some (Int (now - TimedAction.start ta))) !! k).
Proof.
  intros Ht Hap Ham.
  destruct (TimedAction_send_unfold env ta now w) as (ev & w1 & Hcreate & Hsend).
  cbv zeta in Hsend.
  destruct (createActionEvent_spec env (TimedAction.reporter ta) (TimedAction.view ta)
              (TimedAction.action ta) (Some (TimedAction.source ta))
              (Some (TimedAction.target ta)) (Some (Int (now - TimedAction.start ta))) w)
    as (ev0 & w0 & Hrun & Hname & Hne & Hpk & Hmk & Hc).
  rewrite Hcreate in Hrun. injection Hrun as <- <-.
  destruct Hc as (Hrep & Hs & Hcon & Hp & Hm & Hframe & _).
  cbn [adoptedProperties adoptedMeasurements] in Hp, Hm.
  set (lp := TelemetryEventImpl.properties ev) in *.
  set (lm := TelemetryEventImpl.measurements ev) in *.
  assert (Hp' : TimedAction.properties ta ≠ lp) by (intros E; rewrite E, Hp in Hap; by destruct Hap).
  assert (Hp'' : TimedAction.properties ta ≠ lm) by (intros E; rewrite E, Hm in Hap; by destruct Hap).
  assert (Hm' : TimedAction.measures ta ≠ lp) by (intros E; rewrite E, Hp in Ham; by destruct Ham).
  assert (Hm'' : TimedAction.measures ta ≠ lm) by (intros E; rewrite E, Hm in Ham; by destruct Ham).
  assert (HP : fields (heap w1) (TimedAction.properties ta)
               = fields (heap w) (TimedAction.properties ta)).
  { unfold fields. by rewrite Hframe. }
  assert (HM : fields (heap w1) (TimedAction.measures ta)
               = fields (heap w) (TimedAction.measures ta)).
  { unfold fields. by rewrite Hframe. }
  rewrite Hsend.
  match goal with |- context [TelemetryEventImpl.send env ev ?x] =>
    destruct (send_with_transport env ev x t) as (w' & Hsnd & _ & Hsent & _);
      [congruence |] end.
  cbn [heap sent console] in Hsent. fold lp lm in Hsent.
  rewrite fields_insert_ne in Hsent by done.
  rewrite (fields_insert_ne _ lp lm) in Hsent by done.
  rewrite (fields_insert_ne _ lp (TimedAction.measures ta)) in Hsent by done.
  rewrite !fields_insert_eq in Hsent. rewrite HP, HM in Hsent.
  eexists w', _. split; [exact Hsnd |]. split; [by rewrite Hsent, Hs |].
  cbn [callName callProperties callMeasurements]. split; [exact Hname |]. split_and!.
  - intros k v Hk. by apply lookup_union_Some_l.
  - intros k v Hk. by apply lookup_union_Some_l.
  - intros k H1 H2 Hk. rewrite lookup_union_r by done. by apply Hpk.
  - intros k H1 H2 Hk. rewrite lookup_union_r by done. by apply Hmk.
Qed.

(** C5, the claim as stated fails: a timed action sent in the millisecond of
    its construction yields an action event without "durationInMs", where
    the claim wants the measurement [now - start = 0]. *)
Lemma timed_action_sent_at_once_has_no_duration :
  let run := (ta <- createTimedAction Example.active "dialog" "open" None None 1000 ;;
              TimedAction.send Example.env ta 1000)%js Example.emptyWorld in
  fst run = Normal tt ∧
  callName <$> sent (snd run) = ["action"] ∧
  (λ call, callMeasurements call !! "durationInMs") <$> sent (snd run) = [None].
Proof. cbv zeta. split_and!; vm_compute; reflexivity. Qed.

(** C5, as the code has it: on a reporter with its transport, a timed action
    made by [createTimedAction] at time [t0], after any chain of accumulating
    calls, sends at time [now] exactly one event, named "action"; the event
    holds every property and measure accumulated; unless an accumulated
    property has that key, "view" and "action" are those of the
    construction; unless an accumulated measure has that key, "durationInMs"
    is [now - t0] when that is not 0, and is left out when it is 0. *)
Theorem timed_action_send env this view action target source t0 accs now w0 t :
  TelemetryReporter._telemetryReporter this = Some t →
  ∃ ta w,
    (ta <- createTimedAction this view action target source t0 ;;
     accumulateAll ta accs)%js w0 = (Normal ta, w) ∧
    TimedAction.start ta = t0 ∧
    ∃ w' call,
      TimedAction.send env ta now w = (Normal tt, w') ∧
      sent w' = sent w0 ++ [call] ∧
      callName call = "action" ∧
      (∀ k v, fields (heap w) (TimedAction.properties ta) !! k = Some v →
              callProperties call !! k = Some v) ∧
      (∀ k v, fields (heap w) (TimedAction.measures ta) !! k = Some v →
              callMeasurements call !! k = Some v) ∧
      (fields (heap w) (TimedAction.properties ta) !! "view" = None →
       callProperties call !! "view" = Some (VString view)) ∧
      (fields (heap w) (TimedAction.properties ta) !! "action" = None →
       callProperties call !! "action" = Some (VString action)) ∧
      (fields (heap w) (TimedAction.measures ta) !! "durationInMs" = None →
       callMeasurements call !! "durationInMs"
       = if decide (now = t0) then None else Some (VNumber (Int (now - t0)))).
Proof.
  intros Ht. unfold bind.
  destruct (createTimedAction_spec this view action target source t0 w0)
    as (ta & w1 & -> & Hrep & Hview & Haction & _ & _ & Hstart & Hs1 & _ & _ & _ & _ & _ & _
        & Hap & Ham & _).
  destruct (accumulateAll_spec ta accs w1) as (w & -> & Hs2 & _ & _ & Hkeep).
  exists ta, w. split; [reflexivity |]. split; [exact Hstart |].
  destruct (TimedAction_send_call env ta now w t)
    as (w' & call & Hsend & Hsent & Hname & HP & HM & Hpk & Hmk);
    [by rewrite Hrep | by apply Hkeep | by apply Hkeep |].
  exists w', call. split; [exact Hsend |]. split; [by rewrite Hsent, Hs2, Hs1 |].
  split; [exact Hname |]. split; [exact HP |]. split; [exact HM |]. split_and!.
  - intros Hk. rewrite Hpk by done. by rewrite Hview.
  - intros Hk. rewrite Hpk by done. by rewrite Haction.
  - intros Hk. rewrite Hmk by done. rewrite actionMeasures_duration, Hstart.
    destruct (decide (now = t0)) as [-> | Hne].
    + rewrite Z.sub_diag. by destruct (decide (0 = 0)%Z).
    + destruct (decide (now - t0 = 0)%Z); [lia | done].
Qed.

Lemma timed_action_send_witness :
  TelemetryReporter._telemetryReporter Example.active = Some (mkTransport "ext" "1.0.0" "key") ∧
  ∃ ta w,
    (ta <- createTimedAction Example.active "dialog" "open" (Some "button") (Some "mouse") 1000 ;;
     accumulateAll ta [WithProperties 1%positive])%js
      (Example.callerWorld {[ "step" := VString "2" ]}) = (Normal ta, w) ∧
    TimedAction.start ta = 1000%Z ∧
    ∃ w' call,
      TimedAction.send Example.env ta 1500 w = (Normal tt, w') ∧
      sent w' = [] ++ [call] ∧
      callName call = "action".
Proof.
  split; [reflexivity |].
  destruct (timed_action_send Example.env Example.active "dialog" "open" (Some "button")
              (Some "mouse") 1000 [WithProperties 1%positive] 1500
              (Example.callerWorld {[ "step" := VString "2" ]}) _ eq_refl)
    as (ta & w & Hrun & Hstart & w' & call & Hsend & Hsent & Hname & _).
  exists ta, w. split; [exact Hrun |]. split; [exact Hstart |]. exists w', call.
  split; [exact Hsend |]. split; [exact Hsent | exact Hname].
Defined.

(** The slip in [timedAction.ts]: [send()] passes [this.source] where
    [createActionEvent] takes the target, and [this.target] where it takes
    the source, so the two properties arrive exchanged. *)
Lemma TimedAction_send_exchanges_target_and_source :
  let run := (ta <- createTimedAction Example.active "dialog" "open"
                      (Some "button") (Some "mouse") 1000 ;;
              TimedAction.send Example.env ta 1500)%js Example.emptyWorld in
  fst run = Normal tt ∧
  (λ call, callProperties call !! "target") <$> sent (snd run) = [Some (VString "mouse")] ∧
  (λ call, callProperties call !! "source") <$> sent (snd run) = [Some (VString "button")] ∧
  (λ call, callMeasurements call !! "durationInMs") <$> sent (snd run)
    = [Some (VNumber (Int 500))].
Proof. cbv zeta. split_and!; vm_compute; reflexivity. Qed.

(** *** The matcher on known replacements *)

Example replace_star_empty_matches : Example.replaced "a*" "baac" = Some "XbXXcX".
Proof. reflexivity. Qed.

Example replace_star_after_match : Example.replaced "a*" "aa" = Some "XX".
Proof. reflexivity. Qed.

Example replace_plus_is_not_literal : Example.replaced "a+b" "a+b aab" = Some "a+b X".
Proof. reflexivity. Qed.

Example replace_optional_backtracks : Example.replaced "a?a" "aa a" = Some "X X".
Proof. reflexivity. Qed.

Example replace_dot_stops_at_newline :
  Example.replaced "a.c" ("abc a.c a" ++ String "010" "c")
  = Some ("X X a" ++ String "010" "c")%string.
Proof. reflexivity. Qed.

Example replace_dollar_is_end_of_input : Example.replaced "cost $5" "cost $5" = Some "cost $5".
Proof. reflexivity. Qed.

Example replace_anchors :
  Example.replaced "^a" "aaa" = Some "Xaa" ∧ Example.replaced "a$" "aaa" = Some "aaX".
Proof. split; reflexivity. Qed.

Example replace_escaped_parentheses : Example.replaced "\(x\)" "f(x)" = Some "fX".
Proof. reflexivity. Qed.

Example compile_nothing_to_repeat :
  RegExp.compile (chars "+1") = RegExp.Invalid ∧
  RegExp.compile (chars "a**") = RegExp.Invalid ∧
  RegExp.compile (chars "^*") = RegExp.Invalid ∧
  RegExp.compile (chars "C++ exception") = RegExp.Invalid.
Proof. split_and!; reflexivity. Qed.

Example compile_outside_the_embedding :
  RegExp.compile (chars "f(x)") = RegExp.Unsupported ∧
  RegExp.compile (chars "a*?") = RegExp.Unsupported ∧
  RegExp.compile (chars "[ab]") = RegExp.Unsupported.
Proof. split_and!; reflexivity. Qed.

(** The slip in [createErrorEvent2]: the message goes to [new RegExp]
    unescaped, so a message with a syntax character is not searched for as
    it stands; "1+1=3" stays in the stack. *)
Lemma unescaped_message_stays_in_the_stack :
  let e := mkError "1+1=3" (Some (Example.stackOf "1+1=3")) in
  let run := create Example.env Example.active
               (CreateErrorEvent2 "dialog" "failed" (VError e) None None None)
               Example.emptyWorld in
  match fst run with
  | Normal ev =>
      fields (heap (snd run)) (TelemetryEventImpl.properties ev) !! "stack"
        = Some (VString (Example.stackOf "1+1=3"))
  | _ => False
  end.
Proof. vm_compute. reflexivity. Qed.

(** *** Redaction with a message that has no syntax character *)
Section LiteralPatterns.
Import RegExp.

Lemma not_syntax_character c :
  isSyntaxCharacter c = false →
  Ascii.eqb c "*" = false ∧ Ascii.eqb c "+" = false ∧ Ascii.eqb c "?" = false ∧
  Ascii.eqb c "^" = false ∧ Ascii.eqb c "$" = false ∧ Ascii.eqb c "." = false ∧
  Ascii.eqb c "\" = false.
Proof.
  unfold isSyntaxCharacter. cbn [existsb]. intros H.
  repeat (apply orb_false_elim in H as [? H]). by split_and!.
Qed.

(** A source without syntax characters compiles to itself. *)
Lemma parse_literal cs p :
  Forall (λ c, isSyntaxCharacter c = false) cs →
  parse p cs = flush p (Pattern (literal cs)).
Proof.
  intros Hcs. revert p. induction Hcs as [| c cs Hc Hcs IH]; intros p; [done |].
  destruct (not_syntax_character c Hc) as (H1 & H2 & H3 & H4 & H5 & H6 & H7).
  cbn [parse]. rewrite H1, H2, H3, H4, H5, H6, H7, Hc, IH. reflexivity.
Qed.

Lemma compile_literal cs :
  Forall (λ c, isSyntaxCharacter c = false) cs →
  compile cs = Pattern (literal cs).
Proof. intros H. unfold compile. by rewrite parse_literal. Qed.

(** [new RegExp] makes of it a pattern of the embedding, whatever the
    engine. *)
Lemma RegExp_new_literal env source w :
  Forall (λ c, isSyntaxCharacter c = false) (chars source) →
  RegExp_new env source w = (Normal (Embedded (literal (chars source))), w).
Proof. intros H. unfold RegExp_new. by rewrite (compile_literal _ H). Qed.

(** It matches at a position exactly when the input continues with it. *)
Lemma matchTerms_literal p b s :
  matchTerms (literal p) b s = if startsWith p s then Some (length p) else None.
Proof.
  revert b s. induction p as [| c p IH]; intros b s; [done |].
  cbn [literal map matchTerms startsWith atomMatches]. fold (literal p).
  destruct s as [| d s]; [done |].
  destruct (Ascii.eqb c d); [| done].
  rewrite IH. cbn [andb]. by destruct (startsWith p s).
Qed.

Lemma startsWith_app p s : startsWith p s = true → ∃ s', s = p ++ s'.
Proof.
  revert s. induction p as [| c p IH]; intros s H; [by exists s |].
  destruct s as [| d s]; [done |]. cbn in H.
  apply andb_true_iff in H as [Hc Hp]. apply Ascii.eqb_eq in Hc as ->.
  destruct (IH s Hp) as [s' ->]. by exists s'.
Qed.

Lemma startsWith_prefix p s' : startsWith p (p ++ s') = true.
Proof.
  induction p as [| c p IH]; [done |]. cbn. by rewrite Ascii.eqb_refl, IH.
Qed.

(** Dropping the rest of a match. *)
Lemma replaceFrom_skip p m b n s :
  p ≠ [] →
  replaceFrom (literal p) m b (S n) s = replaceFrom (literal p) m false 0 (drop (S n) s).
Proof.
  intros Hp. revert b s. induction n as [| n IH]; intros b s.
  - destruct s as [| c s]; cbn [replaceFrom drop]; [| done].
    rewrite matchTerms_literal. by destruct p.
  - destruct s as [| c s].
    + cbn [replaceFrom drop]. rewrite matchTerms_literal. by destruct p.
    + cbn [replaceFrom]. rewrite IH. done.
Qed.

(** One step of the replacement. *)
Lemma replaceFrom_literal p m b s :
  p ≠ [] →
  replaceFrom (literal p) m b 0 s
  = if startsWith p s then m ++ replaceFrom (literal p) m false 0 (drop (length p) s)
    else match s with
         | c :: s' => c :: replaceFrom (literal p) m false 0 s'
         | [] => []
         end.
Proof.
  intros Hp. destruct p as [| c p]; [done |].
  destruct s as [| d s]; cbn [replaceFrom]; rewrite matchTerms_literal; [done |].
  destruct (startsWith (c :: p) (d :: s)) eqn:Hs; [| done].
  cbn [length drop]. f_equal.
  destruct p as [| c' p]; [done |]. cbn [length]. by rewrite replaceFrom_skip.
Qed.

Lemma occursIn_cons p c g :
  occursIn p (c :: g) → startsWith p (c :: g) = true ∨ occursIn p g.
Proof.
  intros (before & after & H). destruct before as [| d before].
  - left. cbn in H. rewrite H. apply startsWith_prefix.
  - right. injection H as _ ->. by exists before, after.
Qed.

Lemma startsWith_app_r p g r : startsWith p g = true → startsWith p (g ++ r) = true.
Proof.
  intros H. destruct (startsWith_app p g H) as [s' ->].
  rewrite <- app_assoc. apply startsWith_prefix.
Qed.

Lemma joined_hit (sep first : list ascii) rest :
  sep ++ joined sep first rest = joined sep [] (first :: rest).
Proof. unfold joined. cbn [flat_map app]. by rewrite app_assoc. Qed.

Lemma joined_miss (sep first : list ascii) rest c :
  c :: joined sep first rest = joined sep (c :: first) rest.
Proof. reflexivity. Qed.

Lemma replaceFrom_literal_pieces p m n :
  p ≠ [] →
  ∀ s b, length s < n →
    ∃ first rest,
      s = joined p first rest ∧
      replaceFrom (literal p) m b 0 s = joined m first rest ∧
      Forall (λ g, ¬ occursIn p g) (first :: rest).
Proof.
  intros Hp. induction n as [| n IH]; intros s b Hlen; [lia |].
  rewrite replaceFrom_literal by done.
  destruct (startsWith p s) eqn:Hs.
  - destruct (startsWith_app p s Hs) as [s2 ->].
    rewrite drop_app_length.
    destruct (IH s2 false) as (first & rest & Hs2 & Hr & Hnone).
    { rewrite length_app in Hlen. destruct p; [done |]. cbn in Hlen. lia. }
    exists [], (first :: rest). rewrite Hr, <- !joined_hit, <- Hs2. split_and!; try done.
    constructor; [| done].
    intros (before & after & H). destruct before, p; done.
  - destruct s as [| c s].
    + exists [], []. split_and!; try done. constructor; [| done].
      intros (before & after & H). destruct before, p; done.
    + destruct (IH s false) as (first & rest & Hs2 & Hr & Hnone); [cbn in Hlen; lia |].
      exists (c :: first), rest. rewrite Hr, <- !joined_miss, <- Hs2. split_and!; try done.
      apply Forall_cons in Hnone as [Hfirst Hrest]. constructor; [| done].
      intros Hocc. apply occursIn_cons in Hocc as [Hstart | Hocc]; [| done].
      rewrite Hs2 in Hs. unfold joined in Hs.
      rewrite app_comm_cons in Hs. by rewrite (startsWith_app_r _ _ _ Hstart) in Hs.
Qed.

(** The replacement, as pieces: the input is pieces joined by the message,
    the output the same pieces joined by the replacement, and the message
    occurs in no piece. *)
Lemma replaceAll_literal_pieces p m s :
  p ≠ [] →
  ∃ first rest,
    s = joined p first rest ∧
    replaceAll (literal p) m s = joined m first rest ∧
    Forall (λ g, ¬ occursIn p g) (first :: rest).
Proof.
  intros Hp. unfold replaceAll.
  by apply (replaceFrom_literal_pieces p m (S (length s))); [| lia].
Qed.

(** An occurrence of [p] in [u ++ c :: v], when [c] is not in [p], lies in
    [u] or in [v]. *)
Lemma occursIn_around p c u v :
  c ∉ p → occursIn p (u ++ c :: v) → occursIn p u ∨ occursIn p v.
Proof.
  intros Hc (before & after & H).
  apply app_eq_app in H as [l [[-> H] | [-> H]]].
  - apply app_eq_app in H as [l' [[-> H] | [-> H]]].
    + destruct l' as [| d l'].
      * left. exists before, []. by rewrite !app_nil_r.
      * injection H as <- _. exfalso. apply Hc. apply elem_of_app. right. by left.
    + left. by exists before, l'.
  - destruct l as [| d l].
    + cbn in H. destruct p as [| d p].
      * left. exists u, []. by rewrite app_nil_r.
      * injection H as <- _. exfalso. apply Hc. by left.
    + injection H as _ ->. right. by exists l, after.
Qed.

(** After the replacement no occurrence of the message is left, when the
    message has neither of the two brackets of the marker and does not occur
    in the text between them. *)
Lemma no_occurrence_after_replacement p inner first rest :
  "<"%char ∉ p → ">"%char ∉ p →
  ¬ occursIn p inner →
  Forall (λ g, ¬ occursIn p g) (first :: rest) →
  ¬ occursIn p (joined ("<"%char :: inner ++ [">"%char]) first rest).
Proof.
  intros Hlt Hgt Hinner Hpieces. revert first Hpieces.
  induction rest as [| g rest IH]; intros first Hpieces.
  - unfold joined. cbn. rewrite app_nil_r. by apply Forall_cons in Hpieces as [? _].
  - apply Forall_cons in Hpieces as [Hfirst Hrest].
    assert (E : joined ("<"%char :: inner ++ [">"%char]) first (g :: rest)
                = first ++ "<"%char :: (inner ++ ">"%char :: joined ("<"%char :: inner ++ [">"%char]) g rest)).
    { unfold joined. cbn [flat_map app]. by rewrite <- !app_assoc. }
    rewrite E. intros Hocc. apply occursIn_around in Hocc as [Hocc | Hocc]; [done | | done].
    apply occursIn_around in Hocc as [Hocc | Hocc]; [done | | done].
    by apply (IH g).
Qed.

End LiteralPatterns.

Lemma chars_replacePattern s regex replacement :
  chars (replacePattern s regex replacement)
  = RegExp.replaceAll regex (chars replacement) (chars s).
Proof. unfold replacePattern, chars. apply list_ascii_of_string_of_list_ascii. Qed.

(** C1, the claim as stated fails: the message "error" is withheld, and
    every occurrence in the stack is replaced, yet the stack property
    contains "error": the marker itself does. *)
Lemma redaction_marker_contains_the_message :
  let e := mkError "error" (Some (Example.stackOf "error")) in
  let run := create Example.env Example.active
               (CreateErrorEvent2 "dialog" "failed" (VError e) (Some false) None None)
               Example.emptyWorld in
  match fst run with
  | Normal ev =>
      fields (heap (snd run)) (TelemetryEventImpl.properties ev) !! "message"
        = Some (VString "") ∧
      fields (heap (snd run)) (TelemetryEventImpl.properties ev) !! "stack"
        = Some (VString (Example.stackOf "<REDACTED: error-message>"))
  | _ => False
  end ∧
  Example.stackOf "<REDACTED: error-message>" ≠ "" ∧
  occursIn (chars (message e)) (chars (Example.stackOf "<REDACTED: error-message>")).
Proof.
  cbv zeta. split_and!.
  - vm_compute. split; reflexivity.
  - discriminate.
  - exists (chars "Error: <REDACTED: "), (chars ("-message>" ++ String "010" "    at main (app.js:3:9)")).
    reflexivity.
Qed.

(** C1, as the code has it, for an error whose message is not empty and has
    no syntax character of regular expressions, with [includeMessage] false
    or left out: [createErrorEvent2] returns an event named "error"; its
    "message" property is the empty string; the "stack"
    property is the stack with occurrences of the message replaced by the
    marker, in that the stack is pieces joined by the message, the property
    the same pieces joined by the marker, and no piece contains the message;
    and when the message has neither "<" nor ">" and does not occur in the
    marker, the "stack" property has no occurrence of the message. *)
Theorem createErrorEvent2_redacts_literal_message
    env this view name msg stk includeMessage errorCode errorType w :
  default false includeMessage = false →
  msg ≠ "" →
  Forall (λ c, RegExp.isSyntaxCharacter c = false) (chars msg) →
  ∃ ev w' redacted,
    TelemetryReporter.createErrorEvent2 env this view name (VError (mkError msg stk))
      includeMessage errorCode errorType w = (Normal ev, w') ∧
    TelemetryEventImpl.eventName ev = "error" ∧
    fields (heap w') (TelemetryEventImpl.properties ev) !! "message" = Some (VString "") ∧
    fields (heap w') (TelemetryEventImpl.properties ev) !! "stack" = Some (VString redacted) ∧
    (∃ first rest,
       chars (default "" stk) = joined (chars msg) first rest ∧
       chars redacted = joined (chars TelemetryReporter.redactionMarker) first rest ∧
       Forall (λ g, ¬ occursIn (chars msg) g) (first :: rest)) ∧
    ("<"%char ∉ chars msg → ">"%char ∉ chars msg →
     ¬ occursIn (chars msg) (chars TelemetryReporter.redactionMarker) →
     ¬ occursIn (chars msg) (chars redacted)).
Proof.
  intros Hinc Hmsg Hlit.
  assert (Hp : chars msg ≠ []) by (by destruct msg).
  pose proof (createErrorEvent2_spec env this view name (VError (mkError msg stk))
                includeMessage errorCode errorType w) as H.
  unfold errorDetails in H. rewrite Hinc in H. cbn [message stack negb andb truthy] in H.
  apply String.eqb_neq in Hmsg. rewrite Hmsg in H. cbn [negb] in H.
  rewrite (RegExp_new_literal _ _ _ Hlit) in H. cbn [fst String_replace] in H.
  destruct H as (ev & w' & Hrun & Hname & Hm & Hs & _).
  exists ev, w'. eexists. split; [exact Hrun |]. split; [exact Hname |].
  split; [exact Hm |]. split; [exact Hs |].
  rewrite chars_replacePattern.
  destruct (replaceAll_literal_pieces (chars msg) (chars TelemetryReporter.redactionMarker)
              (chars (default "" stk)) Hp) as (first & rest & Hin & Hout & Hnone).
  rewrite Hout. split.
  - by exists first, rest.
  - intros Hlt Hgt Hmarker.
    apply (no_occurrence_after_replacement (chars msg) (chars "REDACTED: error-message"));
      try done.
    intros (before & after & E). apply Hmarker.
    exists ("<"%char :: before), (after ++ [">"%char]).
    change (chars TelemetryReporter.redactionMarker)
      with ("<"%char :: chars "REDACTED: error-message" ++ [">"%char]).
    rewrite E. by rewrite <- !app_assoc.
Qed.

Lemma occursIn_includes p s : occursIn p s → includes p s = true.
Proof.
  intros (before & after & ->). induction before as [| c before IH].
  - cbn [app]. destruct (p ++ after) eqn:E; cbn [includes];
      rewrite <- E, startsWith_prefix; done.
  - cbn [app includes]. rewrite IH. apply orb_true_r.
Qed.

Lemma not_occursIn p s : includes p s = false → ¬ occursIn p s.
Proof. intros H Hocc. apply occursIn_includes in Hocc. congruence. Qed.

Lemma createErrorEvent2_redacts_literal_message_witness :
  default false None = false ∧
  "secret-value" ≠ "" ∧
  Forall (λ c, RegExp.isSyntaxCharacter c = false) (chars "secret-value") ∧
  ∃ ev w' redacted,
    TelemetryReporter.createErrorEvent2 Example.env Example.active "dialog" "failed"
      (VError (mkError "secret-value" (Some (Example.stackOf "secret-value"))))
      None None None Example.emptyWorld = (Normal ev, w') ∧
    TelemetryEventImpl.eventName ev = "error" ∧
    fields (heap w') (TelemetryEventImpl.properties ev) !! "message" = Some (VString "") ∧
    fields (heap w') (TelemetryEventImpl.properties ev) !! "stack" = Some (VString redacted) ∧
    ¬ occursIn (chars "secret-value") (chars redacted).
Proof.
  assert (Hlit : Forall (λ c, RegExp.isSyntaxCharacter c = false) (chars "secret-value")).
  { vm_compute. repeat constructor. }
  assert (Hne : "secret-value" ≠ "") by discriminate.
  split; [reflexivity |]. split; [exact Hne |]. split; [exact Hlit |].
  destruct (createErrorEvent2_redacts_literal_message Example.env Example.active
              "dialog" "failed" "secret-value" (Some (Example.stackOf "secret-value"))
              None None None Example.emptyWorld eq_refl Hne Hlit)
    as (ev & w' & redacted & Hrun & Hname & Hm & Hs & _ & Hclean).
  exists ev, w', redacted. split; [exact Hrun |]. split; [exact Hname |].
  split; [exact Hm |]. split; [exact Hs |].
  apply Hclean.
  - intros H. apply list_elem_of_In in H. vm_compute in H. intuition discriminate.
  - intros H. apply list_elem_of_In in H. vm_compute in H. intuition discriminate.
  - apply not_occursIn. vm_compute. reflexivity.
Defined.


(** Apart from an [Error] or an object handed to [createErrorEvent2] and
    [null] handed to [withConnectionInfo] or [withServerInfo], every public
    operation returns normally. *)
Lemma public_operations_that_return env :
  (∀ extensionId extensionVersion key w,
     ∃ this w', TelemetryReporter.new env extensionId extensionVersion key w
                = (Normal this, w')) ∧
  (∀ this c w,
     (∀ view name err im ec et, c ≠ CreateErrorEvent2 view name (VError err) im ec et) →
     (∀ view name l im ec et, c ≠ CreateErrorEvent2 view name (VObject l) im ec et) →
     ∃ ev w', create env this c w = (Normal ev, w')) ∧
  (∀ ev op w,
     op ≠ WithConnectionInfo VNull → op ≠ WithServerInfo VNull →
     ∃ w', enrich ev op w = (Normal ev, w')) ∧
  (∀ ev w, ∃ w', TelemetryEventImpl.send env ev w = (Normal tt, w')) ∧
  (∀ this w, ∃ p, TelemetryReporter.dispose env this w = (Normal p, w)) ∧
  (∀ this view action target source t0 w,
     ∃ ta w', createTimedAction this view action target source t0 w = (Normal ta, w')) ∧
  (∀ ta op w, ∃ w', accumulate ta op w = (Normal ta, w')) ∧
  (∀ ta now w, ∃ w', TimedAction.send env ta now w = (Normal tt, w')).
Proof.
  split_and!.
  - intros extensionId extensionVersion key w. unfold TelemetryReporter.new, tryCatch.
    destruct (transport_new env extensionId extensionVersion key); by eexists _, _.
  - intros this c w Hc Ho. pose proof (create_spec env this c w) as H.
    destruct (create env this c w) as [[ev | e] w'].
    + by exists ev, w'.
    + destruct H as ((view & name & error & im & ec & et & -> & H) & _).
      destruct error as [| | b | n | str | l | err]; try done.
      * by destruct (Ho view name l im ec et).
      * by destruct (Hc view name err im ec et).
  - intros ev op w H1 H2. pose proof (enrich_spec ev op w) as H.
    destruct (enrich ev op w) as [[ev' | e] w'].
    + destruct H as (-> & _). by exists w'.
    + by destruct H as (_ & _ & [-> | ->]).
  - intros ev w. destruct (send_returns env ev w) as (w' & H & _). by exists w'.
  - intros this w. unfold TelemetryReporter.dispose.
    destruct (TelemetryReporter._telemetryReporter this); [| by eexists].
    destruct (transport_dispose env); by eexists.
  - intros this view action target source t0 w.
    destruct (createTimedAction_spec this view action target source t0 w) as (ta & w' & H & _).
    by exists ta, w'.
  - intros ta op w. destruct (accumulate_spec ta op w) as (w' & H & _). by exists w'.
  - intros ta now w. destruct (TimedAction_send_unfold env ta now w) as (ev & w1 & _ & H).
    cbv zeta in H. rewrite H.
    match goal with |- context [TelemetryEventImpl.send env ev ?x] =>
      destruct (send_returns env ev x) as (w' & -> & _) end.
    by exists w'.
Qed.

(** C9, inputs on which a public operation throws to its caller: an error
    whose message is not a valid pattern ("C++ exception": the second [+]
    has nothing to repeat) makes [createErrorEvent2] and [sendErrorEvent2]
    throw a SyntaxError, whatever the reporter and the world; [null] makes
    [withConnectionInfo] and [withServerInfo] throw a TypeError on a fresh
    view event. *)
Theorem public_operations_that_throw env this view name stk errorCode errorType w :
  fst (TelemetryReporter.createErrorEvent2 env this view name
         (VError (mkError "C++ exception" stk)) None errorCode errorType w)
    = Throw SyntaxError ∧
  fst (TelemetryReporter.sendErrorEvent2 env this view name
         (VError (mkError "C++ exception" stk)) None errorCode errorType w)
    = Throw SyntaxError ∧
  fst ((ev <- TelemetryReporter.createViewEvent env this view ;;
        ev' <- TelemetryEventImpl.withConnectionInfo ev VNull ;;
        TelemetryEventImpl.send env ev')%js w) = Throw TypeError ∧
  fst ((ev <- TelemetryReporter.createViewEvent env this view ;;
        ev' <- TelemetryEventImpl.withServerInfo ev VNull ;;
        TelemetryEventImpl.send env ev')%js w) = Throw TypeError.
Proof.
  assert (Hcreate : fst (TelemetryReporter.createErrorEvent2 env this view name
                           (VError (mkError "C++ exception" stk)) None errorCode errorType w)
                    = Throw SyntaxError).
  { pose proof (createErrorEvent2_spec env this view name
                  (VError (mkError "C++ exception" stk)) None errorCode errorType w) as H.
    assert (E : errorDetails env w (VError (mkError "C++ exception" stk)) (default false None)
                = Throw SyntaxError) by reflexivity.
    rewrite E in H. destruct H as (w' & -> & _). reflexivity. }
  split; [exact Hcreate |]. split.
  - unfold TelemetryReporter.sendErrorEvent2, bind.
    destruct (TelemetryReporter.createErrorEvent2 _ _ _ _ _ _ _ _ _) as [r w1].
    cbn in Hcreate. by subst r.
  - pose proof (create_spec env this (CreateViewEvent view) w) as Hc. cbn [create] in Hc.
    unfold bind.
    destruct (TelemetryReporter.createViewEvent env this view w) as [[ev | e] w1];
      [| by destruct Hc as ((? & ? & ? & ? & ? & ? & ? & _) & _)].
    split; reflexivity.
Qed.

(** ** Further properties of the event builder *)

(** [send()], in one equation. *)
Lemma send_completes env ev w :
  TelemetryEventImpl.send env ev w
  = (Normal tt,
     mkWorld (heap w) (sent w ++ callsOf ev w) (console w ++ linesOf env ev w)).
Proof.
  unfold TelemetryEventImpl.send, TelemetryEventImpl.sendTelemetryEvent, tryCatch,
    callsOf, linesOf.
  destruct (TelemetryEventImpl.reporter ev) as [t |].
  - destruct (transport_sendTelemetryEvent env _ _ _); cbn; by rewrite ?app_nil_r.
  - destruct w. cbn. by rewrite !app_nil_r.
Qed.

(** X1: [send()] always returns normally and never writes to the store; with
    a transport it calls it exactly once, with the accumulators as they are,
    and when that call throws, the exception ends as one console line;
    without a transport it calls and logs nothing. *)
Theorem send_never_fails env ev w :
  ∃ w',
    TelemetryEventImpl.send env ev w = (Normal tt, w') ∧
    heap w' = heap w ∧
    sent w' = sent w ++
      match TelemetryEventImpl.reporter ev with
      | Some _ =>
          [mkCall (TelemetryEventImpl.eventName ev)
             (fields (heap w) (TelemetryEventImpl.properties ev))
             (fields (heap w) (TelemetryEventImpl.measurements ev))]
      | None => []
      end ∧
    console w' = console w ++
      match TelemetryEventImpl.reporter ev with
      | Some _ =>
          match transport_sendTelemetryEvent env (TelemetryEventImpl.eventName ev)
                  (fields (heap w) (TelemetryEventImpl.properties ev))
                  (fields (heap w) (TelemetryEventImpl.measurements ev)) with
          | Some e => [ErrorSending (TelemetryEventImpl.eventName ev) e]
          | None => []
          end
      | None => []
      end.
Proof. rewrite send_completes. by eexists. Qed.

(** X2: [send()] clears nothing: a second [send()] hands the transport the
    same name, properties and measurements again. *)
Theorem send_twice_sends_the_same env ev w :
  ∃ w',
    (TelemetryEventImpl.send env ev ;;; TelemetryEventImpl.send env ev)%js w
      = (Normal tt, w') ∧
    heap w' = heap w ∧
    sent w' = sent w ++ callsOf ev w ++ callsOf ev w.
Proof.
  unfold bind. rewrite send_completes.
  set (w1 := mkWorld (heap w) (sent w ++ callsOf ev w) (console w ++ linesOf env ev w)).
  rewrite send_completes. eexists. split; [reflexivity |]. cbn.
  split; [done |]. by rewrite <- app_assoc.
Qed.

(** The value [Object.assign] leaves under a key. *)
Lemma lookup_assigned (source target : gmap string value) k :
  (source ∪ target) !! k
  = match source !! k with
    | Some v => Some v
    | None => target !! k
    end.
Proof.
  rewrite lookup_union. destruct (source !! k), (target !! k); done.
Qed.

(** X3: [withAdditionalProperties] and [withAdditionalMeasurements] merge:
    a key of the argument takes the argument's value, every other key of the
    accumulator keeps its own; no other object changes, nothing is sent. *)
Theorem withAdditional_merges ev o w :
  (∃ w',
     TelemetryEventImpl.withAdditionalProperties ev o w = (Normal ev, w') ∧
     sent w' = sent w ∧ console w' = console w ∧
     (∀ k, fields (heap w') (TelemetryEventImpl.properties ev) !! k
           = match fields (heap w) o !! k with
             | Some v => Some v
             | None => fields (heap w) (TelemetryEventImpl.properties ev) !! k
             end) ∧
     (∀ l, l ≠ TelemetryEventImpl.properties ev → heap w' !! l = heap w !! l)) ∧
  (∃ w',
     TelemetryEventImpl.withAdditionalMeasurements ev o w = (Normal ev, w') ∧
     sent w' = sent w ∧ console w' = console w ∧
     (∀ k, fields (heap w') (TelemetryEventImpl.measurements ev) !! k
           = match fields (heap w) o !! k with
             | Some v => Some v
             | None => fields (heap w) (TelemetryEventImpl.measurements ev) !! k
             end) ∧
     (∀ l, l ≠ TelemetryEventImpl.measurements ev → heap w' !! l = heap w !! l)).
Proof.
  split; (eexists; split; [reflexivity |]; cbn; split_and!; try done).
  - intros k. rewrite fields_insert_eq. apply lookup_assigned.
  - intros l Hl. by rewrite lookup_insert_ne.
  - intros k. rewrite fields_insert_eq. apply lookup_assigned.
  - intros l Hl. by rewrite lookup_insert_ne.
Qed.

(** X4: two [withAdditionalProperties] calls in a row, the second with a map
    that is not the event's own accumulator: on a key both maps hold the
    later map wins; a key of the earlier map alone keeps the earlier value;
    the other keys keep the event's. *)
Theorem withAdditionalProperties_later_wins ev a b w :
  b ≠ TelemetryEventImpl.properties ev →
  ∃ w',
    (ev1 <- TelemetryEventImpl.withAdditionalProperties ev a ;;
     TelemetryEventImpl.withAdditionalProperties ev1 b)%js w = (Normal ev, w') ∧
    ∀ k, fields (heap w') (TelemetryEventImpl.properties ev) !! k
         = match fields (heap w) b !! k with
           | Some v => Some v
           | None =>
               match fields (heap w) a !! k with
               | Some v => Some v
               | None => fields (heap w) (TelemetryEventImpl.properties ev) !! k
               end
           end.
Proof.
  intros Hb. eexists. split; [reflexivity |]. intros k. cbn.
  rewrite fields_insert_eq, (fields_insert_ne _ _ b) by done. rewrite fields_insert_eq.
  by rewrite !lookup_assigned.
Qed.

Lemma withAdditionalProperties_later_wins_witness :
  4%positive ≠ TelemetryEventImpl.properties Scenario.event ∧
  5%positive ≠ TelemetryEventImpl.properties Scenario.event ∧
  ∃ w',
    (ev1 <- TelemetryEventImpl.withAdditionalProperties Scenario.event 4%positive ;;
     TelemetryEventImpl.withAdditionalProperties ev1 5%positive)%js Scenario.world
      = (Normal Scenario.event, w') ∧
    fields (heap w') (TelemetryEventImpl.properties Scenario.event) !! "step"
      = Some (VString "2") ∧
    fields (heap w') (TelemetryEventImpl.properties Scenario.event) !! "user"
      = Some (VString "a") ∧
    fields (heap w') (TelemetryEventImpl.properties Scenario.event) !! "view"
      = Some (VString "dialog").
Proof.
  assert (H5 : 5%positive ≠ TelemetryEventImpl.properties Scenario.event) by discriminate.
  split; [discriminate |]. split; [exact H5 |].
  destruct (withAdditionalProperties_later_wins Scenario.event 4%positive 5%positive
              Scenario.world H5) as (w' & Hrun & Hk).
  exists w'. split; [exact Hrun |].
  rewrite !Hk. split_and!; vm_compute; reflexivity.
Defined.

(** [withServerInfo] on an object of the store: what it completes with. *)
Lemma withServerInfo_object ev l w :
  let info := fields (heap w) l in
  let isCloud := default VUndefined (info !! "isCloud") in
  TelemetryEventImpl.withServerInfo ev (VObject l) w =
  (Normal ev,
   mkWorld
     (<[TelemetryEventImpl.properties ev :=
          <["connectionType" :=
              if decide (isCloud = VUndefined) then VString ""
              else if truthy isCloud then VString "Azure" else VString "Standalone"]>
            (<["serverVersion" :=
                 nullish (default VUndefined (info !! "serverVersion")) (VString "")]>
               (<["serverEdition" :=
                    nullish (default VUndefined (info !! "serverEdition")) (VString "")]>
                  (<["serverEngineEdition" :=
                       nullish (default VUndefined (info !! "engineEditionId")) (VString "")]>
                     ∅)))
          ∪ fields (heap w) (TelemetryEventImpl.properties ev)]> (heap w))
     (sent w) (console w)).
Proof. reflexivity. Qed.

(** X5: [withServerInfo] on an object writes four keys and no other:
    "connectionType" is "Azure" for a truthy [isCloud], "Standalone" for one
    that is there and not truthy ([false], [null], 0), and empty when
    [isCloud] is missing or [undefined]; "serverVersion", "serverEdition" and
    "serverEngineEdition" take the input's field, the empty string standing
    in for a missing, [undefined] or [null] one.  So none of the four ends
    as [undefined] or [null]. *)
Theorem withServerInfo_writes_four_keys ev l w :
  let info := fields (heap w) l in
  ∃ w',
    TelemetryEventImpl.withServerInfo ev (VObject l) w = (Normal ev, w') ∧
    sent w' = sent w ∧ console w' = console w ∧
    fields (heap w') (TelemetryEventImpl.properties ev) !! "connectionType"
      = Some (VString match info !! "isCloud" with
                      | None | Some VUndefined => ""
                      | Some v => if truthy v then "Azure" else "Standalone"
                      end) ∧
    fields (heap w') (TelemetryEventImpl.properties ev) !! "serverVersion"
      = Some match info !! "serverVersion" with
             | None | Some VUndefined | Some VNull => VString ""
             | Some v => v
             end ∧
    fields (heap w') (TelemetryEventImpl.properties ev) !! "serverEdition"
      = Some match info !! "serverEdition" with
             | None | Some VUndefined | Some VNull => VString ""
             | Some v => v
             end ∧
    fields (heap w') (TelemetryEventImpl.properties ev) !! "serverEngineEdition"
      = Some match info !! "engineEditionId" with
             | None | Some VUndefined | Some VNull => VString ""
             | Some v => v
             end ∧
    (∀ k, k ∈ ["connectionType"; "serverVersion"; "serverEdition"; "serverEngineEdition"] →
          ∃ v, fields (heap w') (TelemetryEventImpl.properties ev) !! k = Some v ∧
               v ≠ VUndefined ∧ v ≠ VNull) ∧
    (∀ k, k ∉ ["connectionType"; "serverVersion"; "serverEdition"; "serverEngineEdition"] →
          fields (heap w') (TelemetryEventImpl.properties ev) !! k
          = fields (heap w) (TelemetryEventImpl.properties ev) !! k) ∧
    (∀ l', l' ≠ TelemetryEventImpl.properties ev → heap w' !! l' = heap w !! l').
Proof.
  intros info. eexists. split; [apply withServerInfo_object |]. cbn [heap sent console].
  rewrite fields_insert_eq. fold info.
  set (P := fields (heap w) (TelemetryEventImpl.properties ev)).
  assert (Hc : ∀ a b c d : value,
            (<["connectionType" := a]> (<["serverVersion" := b]> (<["serverEdition" := c]>
               (<["serverEngineEdition" := d]> ∅))) ∪ P) !! "connectionType" = Some a).
  { intros. rewrite lookup_assigned. by rewrite lookup_insert_eq. }
  assert (Hv : ∀ a b c d : value,
            (<["connectionType" := a]> (<["serverVersion" := b]> (<["serverEdition" := c]>
               (<["serverEngineEdition" := d]> ∅))) ∪ P) !! "serverVersion" = Some b).
  { intros. rewrite lookup_assigned. rewrite lookup_insert_ne by done.
    by rewrite lookup_insert_eq. }
  assert (He : ∀ a b c d : value,
            (<["connectionType" := a]> (<["serverVersion" := b]> (<["serverEdition" := c]>
               (<["serverEngineEdition" := d]> ∅))) ∪ P) !! "serverEdition" = Some c).
  { intros. rewrite lookup_assigned. rewrite !lookup_insert_ne by done.
    by rewrite lookup_insert_eq. }
  assert (Hg : ∀ a b c d : value,
            (<["connectionType" := a]> (<["serverVersion" := b]> (<["serverEdition" := c]>
               (<["serverEngineEdition" := d]> ∅))) ∪ P) !! "serverEngineEdition" = Some d).
  { intros. rewrite lookup_assigned. rewrite !lookup_insert_ne by done.
    by rewrite lookup_insert_eq. }
  assert (Hnullish : ∀ o : option value,
            nullish (default VUndefined o) (VString "")
            = match o with
              | None | Some VUndefined | Some VNull => VString ""
              | Some v => v
              end).
  { by intros [[] |]. }
  assert (Hcloud : ∀ o : option value,
            (if decide (default VUndefined o = VUndefined) then VString ""
             else if truthy (default VUndefined o) then VString "Azure"
                  else VString "Standalone")
            = VString match o with
                      | None | Some VUndefined => ""
                      | Some v => if truthy v then "Azure" else "Standalone"
                      end).
  { intros [v |]; [| done]. cbn [default].
    destruct (decide (v = VUndefined)) as [-> | Hne]; [done |].
    destruct v; try done; by destruct (truthy _). }
  rewrite Hc, Hv, He, Hg, !Hnullish.
  split_and!; try done.
  - f_equal. apply Hcloud.
  - intros k Hk.
    assert (Hnn : ∀ o : option value,
              match o with
              | None | Some VUndefined | Some VNull => VString ""
              | Some v => v
              end ≠ VUndefined ∧
              match o with
              | None | Some VUndefined | Some VNull => VString ""
              | Some v => v
              end ≠ VNull).
    { by intros [[] |]. }
    repeat (apply elem_of_cons in Hk as [-> | Hk]); [| | | | by apply elem_of_nil in Hk].
    + eexists. split; [apply Hc |]. pose proof (Hcloud (info !! "isCloud")) as E.
      split; intros E'; rewrite E' in E; discriminate E.
    + eexists. split; [apply Hv |]. apply Hnn.
    + eexists. split; [apply He |]. apply Hnn.
    + eexists. split; [apply Hg |]. apply Hnn.
  - intros k Hk. rewrite lookup_assigned.
    rewrite !lookup_insert_ne, lookup_empty; [done | ..];
      intros <-; apply Hk; repeat ((by left) || right).
  - intros l' Hl'. by rewrite lookup_insert_ne.
Qed.

(** ** Further properties of the reporter *)

(** The constructor on a literal, followed by [send()]: what the transport
    receives. *)
Lemma new_then_send env this name lp (meas : option loc) w :
  match meas with Some m => m ≠ lp | None => True end →
  ∃ w',
    (ev <- TelemetryEventImpl.new env (TelemetryReporter._telemetryReporter this) name
             (Some lp) meas ;;
     TelemetryEventImpl.send env ev)%js w = (Normal tt, w') ∧
    sent w' = sent w ++
      callsFor this name
        (commonProperties env ∪ fields (heap w) lp)
        (commonMeasurements env ∪
           match meas with Some m => fields (heap w) m | None => ∅ end) ∧
    (∀ l, l ≠ lp →
          match meas with Some m => l ≠ m | None => is_Some (heap w !! l) end →
          heap w' !! l = heap w !! l).
Proof.
  intros Hne.
  destruct (TelemetryEventImpl_new_spec env (TelemetryReporter._telemetryReporter this)
              name (Some lp) meas w)
    as (lp' & lm & h' & Hrun & -> & Hm & Hframe & _ & Hfields & _).
  unfold bind. rewrite Hrun, send_completes. eexists. split; [reflexivity |].
  cbn [heap sent console]. unfold callsOf, callsFor. cbn.
  assert (Hd : lp ≠ lm).
  { destruct meas as [m |]; [by subst | by destruct Hm as [_ ?]]. }
  destruct (Hfields Hd) as [-> Hlm]. rewrite Hlm. split.
  - destruct meas as [m |].
    + by subst.
    + destruct Hm as [Hnone _]. unfold fields at 2. by rewrite Hnone.
  - intros l Hl Hl'. apply Hframe; [done |].
    destruct meas as [m |]; [by subst |].
    destruct Hm as [Hnone _]. intros ->. rewrite Hnone in Hl'. by destruct Hl'.
Qed.

(** X6: [sendViewEvent] hands the transport, when there is one, exactly one
    call: the name "view", the properties "view" and the common properties,
    the common measurements; without transport it sends nothing.  Either way
    it returns normally and leaves the caller's objects as they were. *)
Theorem sendViewEvent_call env this view w :
  ∃ w',
    TelemetryReporter.sendViewEvent env this view w = (Normal tt, w') ∧
    sent w' = sent w ++
      callsFor this "view" (commonProperties env ∪ {[ "view" := VString view ]})
        (commonMeasurements env) ∧
    (∀ l, is_Some (heap w !! l) → heap w' !! l = heap w !! l).
Proof.
  set (w1 := mkWorld (<[freshLoc (heap w) := {[ "view" := VString view ]}]> (heap w))
               (sent w) (console w)).
  destruct (new_then_send env this "view" (freshLoc (heap w)) None w1 I)
    as (w' & Hrun & Hsent & Hframe).
  exists w'. split; [exact Hrun |]. split.
  - rewrite Hsent. cbn [w1 heap sent]. rewrite fields_insert_eq.
    by rewrite (right_id_L ∅ (∪)).
  - intros l Hl. rewrite Hframe.
    + by apply insert_fresh_allocated.
    + intros ->. rewrite fresh_not_allocated in Hl. by destruct Hl.
    + cbn. by rewrite insert_fresh_allocated.
Qed.

(** X7: [sendErrorEvent] (the deprecated one) hands the transport exactly
    one call named "error" whose properties are "view", "name", "errorCode"
    and "errorType", the last two empty when left out, with the common
    properties; the measurements are the common ones. *)
Theorem sendErrorEvent_call env this view name errorCode errorType w :
  ∃ w',
    TelemetryReporter.sendErrorEvent env this view name errorCode errorType w
      = (Normal tt, w') ∧
    sent w' = sent w ++
      callsFor this "error"
        (commonProperties env ∪
           <["view" := VString view]>
             (<["name" := VString name]>
                (<["errorCode" := VString (default "" errorCode)]>
                   (<["errorType" := VString (default "" errorType)]> ∅))))
        (commonMeasurements env) ∧
    (∀ l, is_Some (heap w !! l) → heap w' !! l = heap w !! l).
Proof.
  set (w1 := mkWorld (<[freshLoc (heap w) :=
                          TelemetryReporter.errorProps view name errorCode errorType]> (heap w))
               (sent w) (console w)).
  destruct (new_then_send env this "error" (freshLoc (heap w)) None w1 I)
    as (w' & Hrun & Hsent & Hframe).
  exists w'. split; [exact Hrun |]. split.
  - rewrite Hsent. cbn [w1 heap sent]. rewrite fields_insert_eq.
    by rewrite (right_id_L ∅ (∪)).
  - intros l Hl. rewrite Hframe.
    + by apply insert_fresh_allocated.
    + intros ->. rewrite fresh_not_allocated in Hl. by destruct Hl.
    + cbn. by rewrite insert_fresh_allocated.
Qed.

(** X8: [sendActionEvent] hands the transport exactly one call named
    "action": the properties are "view", "action", "target" and "source",
    the last two empty when left out, with the common properties; the
    measurements are the common ones and, for a duration that is neither
    missing, 0 nor NaN, "durationInMs". *)
Theorem sendActionEvent_call env this view action target source durationInMs w :
  ∃ w',
    TelemetryReporter.sendActionEvent env this view action target source durationInMs w
      = (Normal tt, w') ∧
    sent w' = sent w ++
      callsFor this "action"
        (commonProperties env ∪
           <["view" := VString view]>
             (<["action" := VString action]>
                (<["target" := VString (default "" target)]>
                   (<["source" := VString (default "" source)]> ∅))))
        (commonMeasurements env ∪
           match durationInMs with
           | Some (Int z) =>
               if decide (z = 0%Z) then ∅ else {[ "durationInMs" := VNumber (Int z) ]}
           | Some NaN | None => ∅
           end) ∧
    (∀ l, is_Some (heap w !! l) → heap w' !! l = heap w !! l).
Proof.
  set (lm := freshLoc (heap w)).
  set (h1 := <[lm := TelemetryReporter.actionMeasures durationInMs]> (heap w)).
  set (lp := freshLoc h1).
  set (w2 := mkWorld
               (<[lp := TelemetryReporter.actionProps view action (default "" target)
                          (default "" source)]> h1)
               (sent w) (console w)).
  assert (Hlm : heap w !! lm = None) by apply fresh_not_allocated.
  assert (Hlp1 : h1 !! lp = None) by apply fresh_not_allocated.
  assert (Hne : lm ≠ lp).
  { intros E. rewrite <- E in Hlp1. unfold h1 in Hlp1. by rewrite lookup_insert_eq in Hlp1. }
  assert (Hlp : heap w !! lp = None).
  { unfold h1 in Hlp1. by rewrite lookup_insert_ne in Hlp1. }
  destruct (new_then_send env this "action" lp (Some lm) w2 Hne)
    as (w' & Hrun & Hsent & Hframe).
  exists w'. split; [exact Hrun |]. split.
  - rewrite Hsent. cbn [w2 heap sent]. rewrite fields_insert_eq.
    rewrite fields_insert_ne by done. unfold h1. rewrite fields_insert_eq.
    do 2 f_equal. destruct durationInMs as [[| z] |]; try done. cbn.
    destruct (decide (z = 0%Z)) as [-> | Hz]; [done |].
    apply Z.eqb_neq in Hz. by rewrite Hz.
  - intros l Hl.
    assert (l ≠ lp) by (intros ->; rewrite Hlp in Hl; by destruct Hl).
    assert (l ≠ lm) by (intros ->; rewrite Hlm in Hl; by destruct Hl).
    rewrite Hframe by done. cbn [w2 heap]. rewrite lookup_insert_ne by done.
    unfold h1. by rewrite lookup_insert_ne.
Qed.

(** X9: [sendMetricsEvent] on a map of the caller hands the transport
    exactly one call named "metrics": the property "groupName", empty when
    left out, with the common properties; the caller's measurements with the
    common measurement on top.  The caller's map itself ends with the common
    measurement in it. *)
Theorem sendMetricsEvent_call env this measurements groupName w :
  is_Some (heap w !! measurements) →
  ∃ w',
    TelemetryReporter.sendMetricsEvent env this measurements groupName w = (Normal tt, w') ∧
    sent w' = sent w ++
      callsFor this "metrics"
        (commonProperties env ∪ {[ "groupName" := VString (default "" groupName) ]})
        (commonMeasurements env ∪ fields (heap w) measurements) ∧
    fields (heap w') measurements = commonMeasurements env ∪ fields (heap w) measurements ∧
    (∀ l, is_Some (heap w !! l) → l ≠ measurements → heap w' !! l = heap w !! l).
Proof.
  intros Hm.
  set (lp := freshLoc (heap w)).
  set (w1 := mkWorld (<[lp := {[ "groupName" := VString (default "" groupName) ]}]> (heap w))
               (sent w) (console w)).
  assert (Hlp : heap w !! lp = None) by apply fresh_not_allocated.
  assert (Hne : measurements ≠ lp) by (intros ->; rewrite Hlp in Hm; by destruct Hm).
  pose proof (TelemetryEventImpl_new_spec env (TelemetryReporter._telemetryReporter this)
                "metrics" (Some lp) (Some measurements) w1) as Hspec.
  destruct Hspec as (lp' & lm & h' & Hrun & -> & -> & Hframe & _ & Hfields & _).
  destruct (Hfields (not_eq_sym Hne)) as [Hp Hmeas].
  assert (Hsend : TelemetryReporter.sendMetricsEvent env this measurements groupName w
                  = TelemetryEventImpl.send env
                      (TelemetryEventImpl.mk (TelemetryReporter._telemetryReporter this)
                         "metrics" lp measurements)
                      (mkWorld h' (sent w1) (console w1))).
  { unfold TelemetryReporter.sendMetricsEvent, TelemetryReporter.createMetricsEvent.
    unfold bind at 1. rewrite bind_alloc. fold lp w1. by rewrite Hrun. }
  rewrite Hsend, send_completes. eexists. split; [reflexivity |].
  cbn [heap sent console w1] in *. unfold callsOf, callsFor. cbn.
  rewrite Hp, Hmeas, fields_insert_eq, fields_insert_ne by done.
  split_and!; try done.
  intros l Hl Hl'. rewrite Hframe; [| | done].
  - by apply insert_fresh_allocated.
  - intros ->. rewrite Hlp in Hl. by destruct Hl.
Qed.

Lemma sendMetricsEvent_call_witness :
  is_Some (heap Scenario.metricsWorld !! 1%positive) ∧
  ∃ w',
    TelemetryReporter.sendMetricsEvent Example.env Example.active 1%positive (Some "Dialog")
      Scenario.metricsWorld = (Normal tt, w') ∧
    sent w' = [] ++
      callsFor Example.active "metrics"
        (commonProperties Example.env ∪ {[ "groupName" := VString "Dialog" ]})
        (commonMeasurements Example.env ∪ fields (heap Scenario.metricsWorld) 1%positive).
Proof.
  assert (H : is_Some (heap Scenario.metricsWorld !! 1%positive)) by (by eexists).
  split; [exact H |].
  destruct (sendMetricsEvent_call Example.env Example.active 1%positive (Some "Dialog")
              Scenario.metricsWorld H) as (w' & Hrun & Hsent & _).
  exists w'. split; [exact Hrun | exact Hsent].
Defined.

(** X10: [sendTelemetryEvent] with maps of the caller ([None]: left out)
    hands the transport exactly one call under the given name.  With
    distinct maps, or one or both left out, the properties are the common
    properties on top of the caller's, the measurements the common
    measurements on top of the caller's.  With one and the same map for
    both, the transport receives that map twice, holding the common
    properties and the common measurements together. *)
Theorem sendTelemetryEvent_call env this name (properties measurements : option loc) w :
  (∀ o, properties = Some o → is_Some (heap w !! o)) →
  (∀ o, measurements = Some o → is_Some (heap w !! o)) →
  let P := match properties with Some o => fields (heap w) o | None => ∅ end in
  let M := match measurements with Some o => fields (heap w) o | None => ∅ end in
  let shared := match properties, measurements with
                | Some a, Some b => bool_decide (a = b)
                | _, _ => false
                end in
  ∃ w',
    TelemetryReporter.sendTelemetryEvent env this name properties measurements w
      = (Normal tt, w') ∧
    sent w' = sent w ++
      callsFor this name
        (if shared then commonMeasurements env ∪ (commonProperties env ∪ P)
         else commonProperties env ∪ P)
        (if shared then commonMeasurements env ∪ (commonProperties env ∪ P)
         else commonMeasurements env ∪ M).
Proof.
  intros Hp Hm P M shared.
  destruct (TelemetryEventImpl_new_spec env (TelemetryReporter._telemetryReporter this)
              name properties measurements w)
    as (lp & lm & h' & Hrun & Hlp & Hlm & _ & _ & Hne & Heq).
  unfold TelemetryReporter.sendTelemetryEvent, TelemetryReporter.createTelemetryEvent, bind.
  rewrite Hrun, send_completes. eexists. split; [reflexivity |].
  cbn [heap sent console]. unfold callsOf, callsFor. cbn.
  assert (HP : lp ≠ lm → fields (heap w) lp = P ∧ fields (heap w) lm = M ∧ shared = false).
  { intros Hd. subst P M shared.
    destruct properties as [p |], measurements as [m |]; subst; split_and!; try done.
    - by apply bool_decide_eq_false.
    - destruct Hlm as [Hnone _]. unfold fields. by rewrite Hnone.
    - unfold fields. by rewrite Hlp.
    - unfold fields. by rewrite Hlp.
    - destruct Hlm as [Hnone _]. unfold fields. by rewrite Hnone. }
  assert (HS : lp = lm → fields (heap w) lp = P ∧ shared = true).
  { intros Hd. subst P shared.
    destruct properties as [p |], measurements as [m |]; subst.
    - split; [done | by apply bool_decide_eq_true].
    - by destruct Hlm as [_ ?].
    - destruct (Hm _ eq_refl) as [x Hx]. congruence.
    - by destruct Hlm as [_ ?]. }
  destruct (decide (lp = lm)) as [Hd | Hd].
  - destruct (HS Hd) as (<- & ->). rewrite <- Hd, (Heq Hd). done.
  - destruct (HP Hd) as (<- & <- & ->). destruct (Hne Hd) as [-> ->]. done.
Qed.

Lemma sendTelemetryEvent_call_witness :
  (∀ o, Some 1%positive = Some o → is_Some (heap Scenario.metricsWorld !! o)) ∧
  (∀ o, Some 1%positive = Some o → is_Some (heap Scenario.metricsWorld !! o)) ∧
  ∃ w',
    TelemetryReporter.sendTelemetryEvent Example.env Example.active "custom"
      (Some 1%positive) (Some 1%positive) Scenario.metricsWorld = (Normal tt, w') ∧
    sent w' = [] ++
      callsFor Example.active "custom"
        (commonMeasurements Example.env ∪
           (commonProperties Example.env ∪ fields (heap Scenario.metricsWorld) 1%positive))
        (commonMeasurements Example.env ∪
           (commonProperties Example.env ∪ fields (heap Scenario.metricsWorld) 1%positive)).
Proof.
  assert (H : ∀ o, Some 1%positive = Some o → is_Some (heap Scenario.metricsWorld !! o)).
  { intros o [= <-]. by eexists. }
  split; [exact H |]. split; [exact H |].
  destruct (sendTelemetryEvent_call Example.env Example.active "custom"
              (Some 1%positive) (Some 1%positive) Scenario.metricsWorld H H)
    as (w' & Hrun & Hsent).
  exists w'. split; [exact Hrun | exact Hsent].
Defined.

(** X11: with [includeMessage] true, and also for an error with an empty
    message, [createErrorEvent2] builds no regular expression: it returns an
    "error" event whose "stack" is the error's stack as it is (empty when
    there is none) and whose "message" is the error's message when
    [includeMessage] is true, empty otherwise; whatever the message, it does
    not throw. *)
Theorem createErrorEvent2_without_redaction
    env this view name e includeMessage errorCode errorType w :
  default false includeMessage = true ∨ message e = "" →
  ∃ ev w',
    TelemetryReporter.createErrorEvent2 env this view name (VError e)
      includeMessage errorCode errorType w = (Normal ev, w') ∧
    TelemetryEventImpl.eventName ev = "error" ∧
    fields (heap w') (TelemetryEventImpl.properties ev) !! "message"
      = Some (VString (if default false includeMessage then message e else "")) ∧
    fields (heap w') (TelemetryEventImpl.properties ev) !! "stack"
      = Some (VString (default "" (stack e))).
Proof.
  intros Hcase.
  pose proof (createErrorEvent2_spec env this view name (VError e)
                includeMessage errorCode errorType w) as H.
  unfold errorDetails in H.
  assert (Hguard : negb (default false includeMessage) && truthy (VString (message e)) = false).
  { destruct Hcase as [-> | ->]; [done |]. cbn. apply andb_false_r. }
  rewrite Hguard in H. destruct H as (ev & w' & Hrun & Hname & Hm & Hs & _).
  by exists ev, w'.
Qed.

Lemma createErrorEvent2_without_redaction_witness :
  (default false (Some true) = true ∨ message (mkError "C++ exception" None) = "") ∧
  ∃ ev w',
    TelemetryReporter.createErrorEvent2 Example.env Example.active "dialog" "failed"
      (VError (mkError "C++ exception" None)) (Some true) None None Example.emptyWorld
      = (Normal ev, w') ∧
    fields (heap w') (TelemetryEventImpl.properties ev) !! "message"
      = Some (VString "C++ exception") ∧
    fields (heap w') (TelemetryEventImpl.properties ev) !! "stack" = Some (VString "").
Proof.
  assert (H : default false (Some true) = true ∨ message (mkError "C++ exception" None) = "")
    by (left; reflexivity).
  split; [exact H |].
  destruct (createErrorEvent2_without_redaction Example.env Example.active "dialog" "failed"
              (mkError "C++ exception" None) (Some true) None None Example.emptyWorld H)
    as (ev & w' & Hrun & _ & Hm & Hs).
  exists ev, w'. split; [exact Hrun |]. split; [exact Hm | exact Hs].
Defined.

(** [Number.prototype.toString] on integers, at values whose printed form
    is well known: exact up to 2^53, the shortest digits that read back as
    the same double beyond, the exponent form from 1e21 on. *)
Example Number_toString_of_integers :
  Number_toString (Int 0) = "0" ∧
  Number_toString (Int 404) = "404" ∧
  Number_toString (Int (-17)) = "-17" ∧
  Number_toString (Int (2 ^ 53 - 1)) = "9007199254740991" ∧
  Number_toString (Int (2 ^ 53 + 1)) = "9007199254740992" ∧
  Number_toString (Int (2 ^ 64)) = "18446744073709552000" ∧
  Number_toString (Int 1000000000000000128) = "1000000000000000100" ∧
  Number_toString (Int (10 ^ 21)) = "1e+21" ∧
  Number_toString (Int (10 ^ 23)) = "1e+23" ∧
  Number_toString (Int (2 ^ 70)) = "1.1805916207174113e+21" ∧
  Number_toString (Int 123456789012345678901234567890) = "1.2345678901234568e+29" ∧
  Number_toString (Int ((2 ^ 53 - 1) * 2 ^ 971)) = "1.7976931348623157e+308" ∧
  Number_toString NaN = "NaN".
Proof. split_and!; vm_compute; reflexivity. Qed.

(** X12: for an [error] that is not an instance of [Error] (a string, a
    number, a plain object, [null], [undefined], which is also the default),
    [createErrorEvent2] stores an empty "stack", and an empty "message"
    unless [includeMessage] is true.  With [includeMessage] true the
    "message" is [error?.toString()]: [undefined] for [null] and
    [undefined], "true" or "false", the number as JavaScript prints it, the
    string itself, "[object Object]" for a plain object; for an object with
    a property "toString" of its own, which is no function, the call throws
    a TypeError and no event is returned. *)
Theorem createErrorEvent2_of_a_non_error
    env this view name error includeMessage errorCode errorType w :
  (∀ e, error ≠ VError e) →
  let run := TelemetryReporter.createErrorEvent2 env this view name error
               includeMessage errorCode errorType w in
  let returns (m : value) :=
    ∃ ev w',
      run = (Normal ev, w') ∧
      TelemetryEventImpl.eventName ev = "error" ∧
      fields (heap w') (TelemetryEventImpl.properties ev) !! "message" = Some m ∧
      fields (heap w') (TelemetryEventImpl.properties ev) !! "stack" = Some (VString "") in
  if default false includeMessage then
    match error with
    | VUndefined | VNull => returns VUndefined
    | VBoolean b => returns (VString (if b then "true" else "false"))
    | VNumber n => returns (VString (Number_toString n))
    | VString s => returns (VString s)
    | VObject l =>
        match fields (heap w) l !! "toString" with
        | None => returns (VString "[object Object]")
        | Some _ => fst run = Throw TypeError
        end
    | VError _ => False
    end
  else returns (VString "").
Proof.
  intros Hne run returns.
  pose proof (createErrorEvent2_spec env this view name error
                includeMessage errorCode errorType w) as H.
  fold run in H. unfold errorDetails in H.
  assert (Hret : ∀ m,
            (∃ ev w',
               run = (Normal ev, w') ∧
               TelemetryEventImpl.eventName ev = "error" ∧
               fields (heap w') (TelemetryEventImpl.properties ev) !! "message" = Some m ∧
               fields (heap w') (TelemetryEventImpl.properties ev) !! "stack"
                 = Some (VString "") ∧
               created env this (CreateErrorEvent2 view name error includeMessage
                                   errorCode errorType) w ev w') →
            returns m).
  { intros m (ev & w' & ? & ? & ? & ? & _). by exists ev, w'. }
  destruct error as [| | b | n | s | l | e]; [.. | by destruct (Hne e)];
    (destruct (default false includeMessage); [| by apply Hret]).
  - by apply Hret.
  - by apply Hret.
  - by apply Hret.
  - by apply Hret.
  - by apply Hret.
  - unfold optToString in H. cbn [fst] in H.
    destruct (fields (heap w) l !! "toString").
    + cbn [fst] in H. destruct H as (w' & -> & _). reflexivity.
    + cbn [fst] in H. by apply Hret.
Qed.

Lemma createErrorEvent2_of_a_non_error_witness :
  (∀ e, VNumber (Int (10 ^ 21)) ≠ VError e) ∧
  (∃ ev w',
     TelemetryReporter.createErrorEvent2 Example.env Example.active "dialog" "failed"
       (VNumber (Int (10 ^ 21))) (Some true) None None Example.emptyWorld = (Normal ev, w') ∧
     fields (heap w') (TelemetryEventImpl.properties ev) !! "message"
       = Some (VString (Number_toString (Int (10 ^ 21))))) ∧
  Number_toString (Int (10 ^ 21)) = "1e+21".
Proof.
  assert (H : ∀ e, VNumber (Int (10 ^ 21)) ≠ VError e) by discriminate.
  split; [exact H |]. split; [| vm_compute; reflexivity].
  destruct (createErrorEvent2_of_a_non_error Example.env Example.active "dialog" "failed"
              (VNumber (Int (10 ^ 21))) (Some true) None None Example.emptyWorld H)
    as (ev & w' & Hrun & _ & Hm & _).
  exists ev, w'. split; [exact Hrun | exact Hm].
Defined.

(** X13: a stack in which the withheld message does not occur is stored as
    it is (the message not empty and without syntax characters,
    [includeMessage] false or left out). *)
Theorem createErrorEvent2_keeps_a_stack_without_the_message
    env this view name msg stk includeMessage errorCode errorType w :
  default false includeMessage = false →
  msg ≠ "" →
  Forall (λ c, RegExp.isSyntaxCharacter c = false) (chars msg) →
  ¬ occursIn (chars msg) (chars (default "" stk)) →
  ∃ ev w',
    TelemetryReporter.createErrorEvent2 env this view name (VError (mkError msg stk))
      includeMessage errorCode errorType w = (Normal ev, w') ∧
    fields (heap w') (TelemetryEventImpl.properties ev) !! "message" = Some (VString "") ∧
    fields (heap w') (TelemetryEventImpl.properties ev) !! "stack"
      = Some (VString (default "" stk)).
Proof.
  intros Hinc Hmsg Hlit Hnone.
  assert (Hp : chars msg ≠ []) by (by destruct msg).
  pose proof (createErrorEvent2_spec env this view name (VError (mkError msg stk))
                includeMessage errorCode errorType w) as H.
  unfold errorDetails in H. rewrite Hinc in H. cbn [message stack negb andb truthy] in H.
  apply String.eqb_neq in Hmsg. rewrite Hmsg in H. cbn [negb] in H.
  rewrite (RegExp_new_literal _ _ _ Hlit) in H. cbn [fst String_replace] in H.
  destruct H as (ev & w' & Hrun & _ & Hm & Hs & _).
  exists ev, w'. split; [exact Hrun |]. split; [exact Hm |]. rewrite Hs. do 2 f_equal.
  destruct (replaceAll_literal_pieces (chars msg) (chars TelemetryReporter.redactionMarker)
              (chars (default "" stk)) Hp) as (first & rest & Hin & Hout & _).
  destruct rest as [| g rest].
  - unfold replacePattern. rewrite Hout.
    unfold joined in Hin, Hout |- *. cbn in Hin |- *. rewrite app_nil_r in Hin |- *.
    rewrite <- Hin. apply string_of_list_ascii_of_string.
  - exfalso. apply Hnone. rewrite Hin. unfold joined. cbn [flat_map].
    exists first, (g ++ flat_map (λ g0, chars msg ++ g0) rest). by rewrite <- app_assoc.
Qed.

Lemma createErrorEvent2_keeps_a_stack_without_the_message_witness :
  default false None = false ∧
  "disk full" ≠ "" ∧
  Forall (λ c, RegExp.isSyntaxCharacter c = false) (chars "disk full") ∧
  ¬ occursIn (chars "disk full") (chars (default "" (Some (Example.stackOf "write failed")))) ∧
  ∃ ev w',
    TelemetryReporter.createErrorEvent2 Example.env Example.active "dialog" "failed"
      (VError (mkError "disk full" (Some (Example.stackOf "write failed"))))
      None None None Example.emptyWorld = (Normal ev, w') ∧
    fields (heap w') (TelemetryEventImpl.properties ev) !! "stack"
      = Some (VString (default "" (Some (Example.stackOf "write failed")))).
Proof.
  assert (Hlit : Forall (λ c, RegExp.isSyntaxCharacter c = false) (chars "disk full")).
  { vm_compute. repeat constructor. }
  assert (Hne : "disk full" ≠ "") by discriminate.
  assert (Hnone : ¬ occursIn (chars "disk full")
                      (chars (default "" (Some (Example.stackOf "write failed"))))).
  { apply not_occursIn. vm_compute. reflexivity. }
  split; [reflexivity |]. split; [exact Hne |]. split; [exact Hlit |]. split; [exact Hnone |].
  destruct (createErrorEvent2_keeps_a_stack_without_the_message Example.env Example.active
              "dialog" "failed" "disk full" (Some (Example.stackOf "write failed"))
              None None None Example.emptyWorld eq_refl Hne Hlit Hnone)
    as (ev & w' & Hrun & _ & Hs).
  exists ev, w'. split; [exact Hrun | exact Hs].
Defined.


(** ** Further properties of the timed action *)

(** [TimedAction.send] returns normally and leaves every object of the store
    as it was: the event it builds has accumulators of its own. *)
Lemma TimedAction_send_frame env ta now w :
  ∃ w',
    TimedAction.send env ta now w = (Normal tt, w') ∧
    ∀ l, is_Some (heap w !! l) → heap w' !! l = heap w !! l.
Proof.
  destruct (TimedAction_send_unfold env ta now w) as (ev & w1 & Hcreate & Hsend).
  cbv zeta in Hsend. rewrite Hsend.
  pose proof (create_spec env (TimedAction.reporter ta)
                (CreateActionEvent (TimedAction.view ta) (TimedAction.action ta)
                   (Some (TimedAction.source ta)) (Some (TimedAction.target ta))
                   (Some (Int (now - TimedAction.start ta)))) w) as Hc.
  cbn [create] in Hc. rewrite Hcreate in Hc.
  destruct Hc as (_ & _ & _ & Hp & Hm & Hframe & _).
  cbn [adoptedProperties adoptedMeasurements] in Hp, Hm.
  rewrite send_completes. eexists. split; [reflexivity |]. cbn [heap].
  intros l Hl.
  assert (l ≠ TelemetryEventImpl.properties ev) by (intros ->; rewrite Hp in Hl; by destruct Hl).
  assert (l ≠ TelemetryEventImpl.measurements ev) by (intros ->; rewrite Hm in Hl; by destruct Hl).
  rewrite !lookup_insert_ne by done. by apply Hframe.
Qed.

(** X15: a timed action can be sent again: on a reporter with transport, two
    [send()] calls at times [t1] and [t2] hand the transport two "action"
    events; each holds everything accumulated, and, unless a measure was
    accumulated under that key, the first has the duration [t1 - start], the
    second [t2 - start] (each left out when 0); the accumulators of the
    timed action are not cleared. *)
Theorem timed_action_send_again env ta t1 t2 w t :
  TelemetryReporter._telemetryReporter (TimedAction.reporter ta) = Some t →
  is_Some (heap w !! TimedAction.properties ta) →
  is_Some (heap w !! TimedAction.measures ta) →
  let duration (now : Z) :=
    if decide (now = TimedAction.start ta) then None
    else Some (VNumber (Int (now - TimedAction.start ta))) in
  ∃ w' c1 c2,
    (TimedAction.send env ta t1 ;;; TimedAction.send env ta t2)%js w = (Normal tt, w') ∧
    sent w' = sent w ++ [c1; c2] ∧
    callName c1 = "action" ∧ callName c2 = "action" ∧
    (∀ k v, fields (heap w) (TimedAction.properties ta) !! k = Some v →
            callProperties c1 !! k = Some v ∧ callProperties c2 !! k = Some v) ∧
    (∀ k v, fields (heap w) (TimedAction.measures ta) !! k = Some v →
            callMeasurements c1 !! k = Some v ∧ callMeasurements c2 !! k = Some v) ∧
    (fields (heap w) (TimedAction.measures ta) !! "durationInMs" = None →
     callMeasurements c1 !! "durationInMs" = duration t1 ∧
     callMeasurements c2 !! "durationInMs" = duration t2) ∧
    fields (heap w') (TimedAction.properties ta) = fields (heap w) (TimedAction.properties ta) ∧
    fields (heap w') (TimedAction.measures ta) = fields (heap w) (TimedAction.measures ta).
Proof.
  intros Ht Hap Ham duration.
  destruct (TimedAction_send_call env ta t1 w t Ht Hap Ham)
    as (w1 & c1 & Hrun1 & Hsent1 & Hname1 & HP1 & HM1 & _ & Hmk1).
  destruct (TimedAction_send_frame env ta t1 w) as (w1' & Hrun1' & Hframe1).
  rewrite Hrun1 in Hrun1'. injection Hrun1' as <-.
  assert (HP : fields (heap w1) (TimedAction.properties ta)
               = fields (heap w) (TimedAction.properties ta)).
  { unfold fields. by rewrite Hframe1. }
  assert (HM : fields (heap w1) (TimedAction.measures ta)
               = fields (heap w) (TimedAction.measures ta)).
  { unfold fields. by rewrite Hframe1. }
  destruct (TimedAction_send_call env ta t2 w1 t Ht)
    as (w2 & c2 & Hrun2 & Hsent2 & Hname2 & HP2 & HM2 & _ & Hmk2);
    [by rewrite Hframe1 | by rewrite Hframe1 |].
  destruct (TimedAction_send_frame env ta t2 w1) as (w2' & Hrun2' & Hframe2).
  rewrite Hrun2 in Hrun2'. injection Hrun2' as <-.
  assert (Hdur : ∀ now,
            TelemetryReporter.actionMeasures (Some (Int (now - TimedAction.start ta)))
              !! "durationInMs" = duration now).
  { intros now. rewrite actionMeasures_duration. unfold duration.
    destruct (decide (now = TimedAction.start ta)) as [-> | Hne].
    - rewrite Z.sub_diag. by destruct (decide (0 = 0)%Z).
    - destruct (decide (now - TimedAction.start ta = 0)%Z); [lia | done]. }
  exists w2, c1, c2. unfold bind. rewrite Hrun1, Hrun2.
  split_and!; try done.
  - rewrite Hsent2, Hsent1. by rewrite <- app_assoc.
  - intros k v Hk. split; [by apply HP1 | apply HP2; by rewrite HP].
  - intros k v Hk. split; [by apply HM1 | apply HM2; by rewrite HM].
  - intros Hk. split.
    + rewrite Hmk1 by done. apply Hdur.
    + rewrite Hmk2 by (done || by rewrite HM). apply Hdur.
  - unfold fields. rewrite Hframe2, Hframe1; [done | done |]. by rewrite Hframe1.
  - unfold fields. rewrite Hframe2, Hframe1; [done | done |]. by rewrite Hframe1.
Qed.

Lemma timed_action_send_again_witness :
  TelemetryReporter._telemetryReporter (TimedAction.reporter Scenario.timedAction)
    = Some (mkTransport "ext" "1.0.0" "key") ∧
  is_Some (heap Scenario.world !! TimedAction.properties Scenario.timedAction) ∧
  is_Some (heap Scenario.world !! TimedAction.measures Scenario.timedAction) ∧
  ∃ w' c1 c2,
    (TimedAction.send Example.env Scenario.timedAction 1200 ;;;
     TimedAction.send Example.env Scenario.timedAction 1500)%js Scenario.world
      = (Normal tt, w') ∧
    sent w' = [] ++ [c1; c2] ∧
    callName c1 = "action" ∧ callName c2 = "action".
Proof.
  assert (Hp : is_Some (heap Scenario.world !! TimedAction.properties Scenario.timedAction))
    by (by eexists).
  assert (Hm : is_Some (heap Scenario.world !! TimedAction.measures Scenario.timedAction))
    by (by eexists).
  split; [reflexivity |]. split; [exact Hp |]. split; [exact Hm |].
  destruct (timed_action_send_again Example.env Scenario.timedAction 1200 1500 Scenario.world
              _ eq_refl Hp Hm) as (w' & c1 & c2 & Hrun & Hsent & Hn1 & Hn2 & _).
  exists w', c1, c2. split; [exact Hrun |]. split; [exact Hsent |]. split; [exact Hn1 | exact Hn2].
Defined.

(** X16: the accumulating calls of a timed action merge into its own maps:
    a key of the argument takes the argument's value, every other key keeps
    its own; they return the same timed action, send nothing, and change no
    other object. *)
Theorem timed_action_accumulates ta o w :
  (∃ w',
     TimedAction.withAdditionalProperties ta o w = (Normal ta, w') ∧
     sent w' = sent w ∧ console w' = console w ∧
     (∀ k, fields (heap w') (TimedAction.properties ta) !! k
           = match fields (heap w) o !! k with
             | Some v => Some v
             | None => fields (heap w) (TimedAction.properties ta) !! k
             end) ∧
     (∀ l, l ≠ TimedAction.properties ta → heap w' !! l = heap w !! l)) ∧
  (∃ w',
     TimedAction.withAdditionalMeasures ta o w = (Normal ta, w') ∧
     sent w' = sent w ∧ console w' = console w ∧
     (∀ k, fields (heap w') (TimedAction.measures ta) !! k
           = match fields (heap w) o !! k with
             | Some v => Some v
             | None => fields (heap w) (TimedAction.measures ta) !! k
             end) ∧
     (∀ l, l ≠ TimedAction.measures ta → heap w' !! l = heap w !! l)).
Proof.
  split; (eexists; split; [reflexivity |]; cbn; split_and!; try done).
  - intros k. rewrite fields_insert_eq. apply lookup_assigned.
  - intros l Hl. by rewrite lookup_insert_ne.
  - intros k. rewrite fields_insert_eq. apply lookup_assigned.
  - intros l Hl. by rewrite lookup_insert_ne.
Qed.

(** X17: two events made by [createTelemetryEvent] from one and the same
    map of the caller share it as their properties: what is added to the
    first with [withAdditionalProperties] is sent with the second. *)
Theorem createTelemetryEvent_events_share_the_map env this name1 name2 o a w t :
  TelemetryReporter._telemetryReporter this = Some t →
  is_Some (heap w !! o) → is_Some (heap w !! a) → a ≠ o →
  ∃ w' call,
    (ev1 <- TelemetryReporter.createTelemetryEvent env this name1 (Some o) None ;;
     ev2 <- TelemetryReporter.createTelemetryEvent env this name2 (Some o) None ;;
     TelemetryEventImpl.withAdditionalProperties ev1 a ;;;
     TelemetryEventImpl.send env ev2)%js w = (Normal tt, w') ∧
    sent w' = sent w ++ [call] ∧
    callName call = name2 ∧
    ∀ k v, fields (heap w) a !! k = Some v → callProperties call !! k = Some v.
Proof.
  intros Ht Ho Ha Hne.
  unfold TelemetryReporter.createTelemetryEvent, bind.
  destruct (TelemetryEventImpl_new_lookup env (TelemetryReporter._telemetryReporter this)
              name1 (Some o) None w)
    as (ev1 & w1 & -> & _ & _ & Hs1 & _ & Hp1 & Hm1 & Hf1 & Hsp1 & _).
  assert (Ha1 : heap w1 !! a = heap w !! a).
  { apply Hf1; [congruence |]. intros ->. rewrite Hm1 in Ha. by destruct Ha. }
  destruct (TelemetryEventImpl_new_lookup env (TelemetryReporter._telemetryReporter this)
              name2 (Some o) None w1)
    as (ev2 & w2 & -> & Hr2 & Hn2 & Hs2 & _ & Hp2 & Hm2 & Hf2 & _).
  assert (Ha2 : heap w2 !! a = heap w !! a).
  { rewrite Hf2; [done | congruence |]. intros ->. rewrite Hm2 in Ha1.
    rewrite <- Ha1 in Ha. by destruct Ha. }
  cbn [TelemetryEventImpl.withAdditionalProperties bind Object_assign_from Object_assign ret].
  cbn. rewrite send_completes. eexists _, _. split.
  { unfold callsOf. rewrite Hr2, Ht. reflexivity. }
  cbn [heap sent console callName callProperties]. split_and!.
  - by rewrite Hs2, Hs1.
  - done.
  - intros k v Hk. rewrite Hp1, Hp2, fields_insert_eq. apply lookup_union_Some_l.
    unfold fields. rewrite Ha2. exact Hk.
Qed.

Lemma createTelemetryEvent_events_share_the_map_witness :
  TelemetryReporter._telemetryReporter Example.active = Some (mkTransport "ext" "1.0.0" "key") ∧
  is_Some (heap Scenario.world !! 4%positive) ∧
  is_Some (heap Scenario.world !! 5%positive) ∧
  5%positive ≠ 4%positive ∧
  ∃ w' call,
    (ev1 <- TelemetryReporter.createTelemetryEvent Example.env Example.active "first"
              (Some 4%positive) None ;;
     ev2 <- TelemetryReporter.createTelemetryEvent Example.env Example.active "second"
              (Some 4%positive) None ;;
     TelemetryEventImpl.withAdditionalProperties ev1 5%positive ;;;
     TelemetryEventImpl.send Example.env ev2)%js Scenario.world = (Normal tt, w') ∧
    sent w' = [] ++ [call] ∧
    callName call = "second" ∧
    callProperties call !! "step" = Some (VString "2").
Proof.
  assert (H4 : is_Some (heap Scenario.world !! 4%positive)) by (by eexists).
  assert (H5 : is_Some (heap Scenario.world !! 5%positive)) by (by eexists).
  assert (Hne : 5%positive ≠ 4%positive) by discriminate.
  split; [reflexivity |]. split; [exact H4 |]. split; [exact H5 |]. split; [exact Hne |].
  destruct (createTelemetryEvent_events_share_the_map Example.env Example.active
              "first" "second" 4%positive 5%positive Scenario.world _ eq_refl H4 H5 Hne)
    as (w' & call & Hrun & Hsent & Hname & Hk).
  exists w', call. split; [exact Hrun |]. split; [exact Hsent |]. split; [exact Hname |].
  apply Hk. vm_compute. reflexivity.
Defined.

(** ** The internal-network flag *)

Lemma listed_domains_are_lower_case :
  ∀ d, d ∈ msftInternalDomains → d ≠ "" ∧ Forall (λ c, isCapital c = false) (chars d).
Proof.
  assert (H : forallb (λ d, negb (String.eqb d "") && forallb (λ c, negb (isCapital c)) (chars d))
                msftInternalDomains = true) by (vm_compute; reflexivity).
  intros d Hd. rewrite forallb_forall in H. apply list_elem_of_In in Hd.
  specialize (H d Hd). apply andb_true_iff in H as [Hne Hlow]. split.
  - apply negb_true_iff in Hne. by apply String.eqb_neq in Hne.
  - apply Forall_forall. intros c Hc. rewrite forallb_forall in Hlow.
    apply list_elem_of_In in Hc. specialize (Hlow c Hc). by apply negb_true_iff in Hlow.
Qed.

Lemma toLowerCase_spells u d :
  Forall (λ c, isCapital c = false) (chars d) →
  (toLowerCase u = d ↔ spells u d).
Proof.
  intros Hlow. unfold toLowerCase, spells, isCapital in *. split.
  - intros <-. rewrite list_ascii_of_string_of_list_ascii in Hlow |- *.
    fold (chars u) in *. induction (chars u) as [| a l IH]; [constructor |].
    cbn [map] in *. apply Forall_cons in Hlow as [Ha Hl]. constructor; [| by apply IH].
    split; [exact Ha |].
    destruct ((65 <=? nat_of_ascii a)%nat && (nat_of_ascii a <=? 90)%nat); [by right | by left].
  - intros Hsp. rewrite <- (string_of_list_ascii_of_string d). f_equal. fold (chars d).
    clear Hlow. induction Hsp as [| a b l l' [Hb Hab] _ IH]; [done |].
    cbn [map]. f_equal; [| exact IH].
    destruct Hab as [-> | [Ha ->]]; [by rewrite Hb | by rewrite Ha].
Qed.

(** X18: every event carries the measurement "common.msftInternal", 1 or 0;
    it is 1 exactly when [USERDNSDOMAIN] is set to a spelling, in capital or
    small letters, of one of the nine listed domains: the whole name, not a
    name that merely ends with one. *)
Theorem msftInternal_flag env :
  commonMeasurements env
    = {[ "common.msftInternal" := VNumber (Int (if isMsftInternal env then 1 else 0)) ]} ∧
  (isMsftInternal env = true ↔
   ∃ u d, USERDNSDOMAIN env = Some u ∧ d ∈ msftInternalDomains ∧ spells u d).
Proof.
  split; [reflexivity |]. unfold isMsftInternal. split.
  - destruct (USERDNSDOMAIN env) as [u |]; [| done].
    destruct (negb (truthy (VString u))); [done |].
    intros H. apply existsb_exists in H as (d & Hd & Heq).
    apply String.eqb_eq in Heq. apply list_elem_of_In in Hd.
    exists u, d. split; [done |]. split; [done |].
    apply toLowerCase_spells; [| done]. by apply listed_domains_are_lower_case.
  - intros (u & d & -> & Hd & Hsp).
    destruct (listed_domains_are_lower_case d Hd) as [Hne Hlow].
    assert (Hu : u ≠ "").
    { intros ->. unfold spells in Hsp. cbn in Hsp. apply Forall2_nil_inv_l in Hsp.
      destruct d; [done | discriminate Hsp]. }
    cbn [truthy]. apply String.eqb_neq in Hu. rewrite Hu. cbn [negb].
    apply existsb_exists. exists d. split; [by apply list_elem_of_In |].
    apply String.eqb_eq. by apply toLowerCase_spells.
Qed.

(** ** Order of precedence, and the order of target and source *)

(** X19: what is added after creation wins over the common fields: for the
    event any factory method returns, a map of the caller (not one the
    factory call adopted) passed to [withAdditionalProperties] reaches the
    transport with all its keys at the caller's values, common keys
    included.  No event is returned only when [createErrorEvent2] throws, as
    [createThrows] describes. *)
Theorem enrichment_overrides_common_fields env this c o w t :
  TelemetryReporter._telemetryReporter this = Some t →
  is_Some (heap w !! o) →
  adoptedProperties c ≠ Some o → adoptedMeasurements c ≠ Some o →
  match create env this c w with
  | (Normal ev, w1) =>
      ∃ w2 call,
        (ev' <- TelemetryEventImpl.withAdditionalProperties ev o ;;
         TelemetryEventImpl.send env ev')%js w1 = (Normal tt, w2) ∧
        sent w2 = sent w ++ [call] ∧
        ∀ k v, fields (heap w) o !! k = Some v → callProperties call !! k = Some v
  | (Throw e, _) => createThrows env w c e
  end.
Proof.
  intros Ht Ho Hap Ham. pose proof (create_spec env this c w) as Hc.
  destruct (create env this c w) as [[ev | e] w1]; [| by destruct Hc].
  destruct Hc as (Hrep & Hs & _ & Hp & Hm & Hframe & _).
  assert (Hop : o ≠ TelemetryEventImpl.properties ev).
  { intros ->. destruct (adoptedProperties c); [congruence |].
    rewrite Hp in Ho. by destruct Ho. }
  assert (Hom : o ≠ TelemetryEventImpl.measurements ev).
  { intros ->. destruct (adoptedMeasurements c); [congruence |].
    rewrite Hm in Ho. by destruct Ho. }
  unfold bind. cbn [TelemetryEventImpl.withAdditionalProperties bind Object_assign_from
                    Object_assign ret]. cbn.
  rewrite send_completes. eexists _, _. split.
  { unfold callsOf. rewrite Hrep, Ht. reflexivity. }
  cbn [heap sent console callProperties]. split; [by rewrite Hs |].
  intros k v Hk. rewrite fields_insert_eq. apply lookup_union_Some_l.
  unfold fields. rewrite Hframe by done. exact Hk.
Qed.

Lemma enrichment_overrides_common_fields_witness :
  let w := Example.callerWorld {[ "common.adsversion" := VString "mine" ]} in
  TelemetryReporter._telemetryReporter Example.active = Some (mkTransport "ext" "1.0.0" "key") ∧
  is_Some (heap w !! 1%positive) ∧
  adoptedProperties (CreateViewEvent "dialog") ≠ Some 1%positive ∧
  adoptedMeasurements (CreateViewEvent "dialog") ≠ Some 1%positive ∧
  match create Example.env Example.active (CreateViewEvent "dialog") w with
  | (Normal ev, w1) =>
      ∃ w2 call,
        (ev' <- TelemetryEventImpl.withAdditionalProperties ev 1%positive ;;
         TelemetryEventImpl.send Example.env ev')%js w1 = (Normal tt, w2) ∧
        sent w2 = sent w ++ [call] ∧
        ∀ k v, fields (heap w) 1%positive !! k = Some v → callProperties call !! k = Some v
  | (Throw e, _) =>
      createThrows Example.env w (CreateViewEvent "dialog") e
  end.
Proof.
  cbv zeta.
  assert (Ho : is_Some (heap (Example.callerWorld {[ "common.adsversion" := VString "mine" ]})
                          !! 1%positive)) by (by eexists).
  assert (Hp : adoptedProperties (CreateViewEvent "dialog") ≠ Some 1%positive) by discriminate.
  assert (Hm : adoptedMeasurements (CreateViewEvent "dialog") ≠ Some 1%positive) by discriminate.
  split; [reflexivity |]. split; [exact Ho |]. split; [exact Hp |]. split; [exact Hm |].
  exact (enrichment_overrides_common_fields Example.env Example.active (CreateViewEvent "dialog")
           1%positive (Example.callerWorld {[ "common.adsversion" := VString "mine" ]})
           _ eq_refl Ho Hp Hm).
Defined.

(** X20: the event of a timed action carries the two names exchanged: made
    by [createTimedAction(view, action, target, source)] and sent on a
    reporter with transport, it has the source (empty when left out) under
    "target" and the target (empty when left out) under "source", unless a
    property accumulated under that key takes its place. *)
Theorem timed_action_event_exchanges_target_and_source
    env this view action target source t0 accs now w0 t :
  TelemetryReporter._telemetryReporter this = Some t →
  ∃ ta w,
    (ta <- createTimedAction this view action target source t0 ;;
     accumulateAll ta accs)%js w0 = (Normal ta, w) ∧
    ∃ w' call,
      TimedAction.send env ta now w = (Normal tt, w') ∧
      sent w' = sent w0 ++ [call] ∧
      (fields (heap w) (TimedAction.properties ta) !! "target" = None →
       callProperties call !! "target" = Some (VString (default "" source))) ∧
      (fields (heap w) (TimedAction.properties ta) !! "source" = None →
       callProperties call !! "source" = Some (VString (default "" target))).
Proof.
  intros Ht. unfold bind.
  destruct (createTimedAction_spec this view action target source t0 w0)
    as (ta & w1 & -> & Hrep & _ & _ & Htarget & Hsource & _ & Hs1 & _ & _ & _ & _ & _ & _
        & Hap & Ham & _).
  destruct (accumulateAll_spec ta accs w1) as (w & -> & Hs2 & _ & _ & Hkeep).
  exists ta, w. split; [reflexivity |].
  destruct (TimedAction_send_call env ta now w t)
    as (w' & call & Hsend & Hsent & _ & _ & _ & Hpk & _);
    [by rewrite Hrep | by apply Hkeep | by apply Hkeep |].
  exists w', call. split; [exact Hsend |]. split; [by rewrite Hsent, Hs2, Hs1 |]. split.
  - intros Hk. rewrite Hpk by done. by rewrite Hsource.
  - intros Hk. rewrite Hpk by done. by rewrite Htarget.
Qed.

Lemma timed_action_event_exchanges_target_and_source_witness :
  TelemetryReporter._telemetryReporter Example.active = Some (mkTransport "ext" "1.0.0" "key") ∧
  ∃ ta w,
    (ta <- createTimedAction Example.active "dialog" "open" (Some "button") (Some "mouse") 1000 ;;
     accumulateAll ta [])%js Example.emptyWorld = (Normal ta, w) ∧
    ∃ w' call,
      TimedAction.send Example.env ta 1500 w = (Normal tt, w') ∧
      sent w' = [] ++ [call].
Proof.
  split; [reflexivity |].
  destruct (timed_action_event_exchanges_target_and_source Example.env Example.active
              "dialog" "open" (Some "button") (Some "mouse") 1000 [] 1500
              Example.emptyWorld _ eq_refl)
    as (ta & w & Hrun & w' & call & Hsend & Hsent & _).
  exists ta, w. split; [exact Hrun |]. exists w', call. split; [exact Hsend | exact Hsent].
Defined.
